(** * Synchronisation and caching layer of the air-quality replica

    A shallow embedding of [src/api/client.py] (the remote API client),
    [src/database/client.py] (the SQLite store) and [src/repository.py]
    (the orchestrator), with the properties the specification states about
    them.

    Conventions of the embedding.
    - Python exceptions are values of [exn]; a call that may raise returns a
      [result]; a method that also mutates its object runs in the
      state-and-exception monad [M] (the state survives an exception, as a
      mutated Python object does).
    - A naive [datetime] is the number of microseconds on the local time
      line, counted from [datetime.fromtimestamp(0)]; the zone offset is
      taken to be constant and a whole number of hours, so that truncating to
      the hour is the same as on the calendar.  ISO texts of naive datetimes
      order as the datetimes do, so the store's text comparisons of dates are
      comparisons of [datetime]s.
    - The payload is dynamically typed in Python.  A field is read at the
      type its dataclass declares; a field of another JSON type is reported
      as [IllTyped], which marks the edge of the typed model and is not a
      Python exception.
    - The clock is read once per public call ([now]). *)

From Stdlib Require QArith.
From Stdlib Require Import Ascii.
From stdpp Require Import base numbers option list gmap strings sorting.

Open Scope Z_scope.
Set Warnings "-register-all".

(** ** Values *)

Definition float : Type := QArith_base.Q.

Definition datetime : Type := Z.
Definition timedelta : Type := Z.

Definition timedelta_seconds (n : Z) : timedelta := n * 1000000.
Definition timedelta_minutes (n : Z) : timedelta := timedelta_seconds (n * 60).
Definition timedelta_hours (n : Z) : timedelta := timedelta_seconds (n * 3600).
Definition timedelta_days (n : Z) : timedelta := timedelta_seconds (n * 86400).

(** [d.replace(minute=0, second=0, microsecond=0)] *)
Definition replace_hour (d : datetime) : datetime := d - d `mod` timedelta_hours 1.

(** What [d.strftime("%Y-%m-%d %H:%M")] keeps of [d]: its minute. *)
Definition strftime_minute (d : datetime) : datetime := d - d `mod` timedelta_minutes 1.

(** [datetime.fromtimestamp(s)] and SQLite's [unixepoch('now')]. *)
Definition fromtimestamp (s : Z) : datetime := timedelta_seconds s.
Definition unixepoch (now : datetime) : Z := now `div` 1000000.

(** A decoded JSON document.  An object is a finite map from its keys: the
    code reads an object by key and merges objects by key, and the order of
    the keys matters to none of it. *)
Inductive json : Type :=
| JNull
| JBool (b : bool)
| JInt (n : Z)
| JFloat (x : float)
| JStr (s : string)
| JList (items : list json)
| JDict (fields : gmap string json).

Inductive exn : Type :=
| ConnectionError
| RequestException (name : string)
| JSONDecodeError
| APIError (code reason result solution : json)
| TooManyRequests (message : string)
| TypeError
| KeyError (key : string)
| AttributeError
| ValueError
| IntegrityError
| IllTyped (field : string).

Definition result (A : Type) : Type := (exn + A)%type.

Definition is_ConnectionError (e : exn) : bool :=
  match e with ConnectionError => true | _ => false end.

Definition raised {A} (r : result A) : bool :=
  match r with inl _ => true | inr _ => false end.

Definition bind_result {A B} (r : result A) (k : A → result B) : result B :=
  match r with inl e => inl e | inr a => k a end.

Notation "'let+' x := r 'in' k" := (bind_result r (λ x, k))
  (at level 10, x name, r at level 100, k at level 200, only parsing).

Fixpoint map_result {A B} (f : A → result B) (l : list A) : result (list B) :=
  match l with
  | [] => inr []
  | a :: l' =>
      let+ b := f a in
      let+ bs := map_result f l' in
      inr (b :: bs)
  end.

(** ** The state-and-exception monad *)

Definition M (S A : Type) : Type := S → result A * S.

Definition ret {S A} (a : A) : M S A := λ s, (inr a, s).
Definition raise {S A} (e : exn) : M S A := λ s, (inl e, s).
Definition lift_result {S A} (r : result A) : M S A := λ s, (r, s).
Definition bind {S A B} (c : M S A) (k : A → M S B) : M S B :=
  λ s, match c s with
       | (inr a, s') => k a s'
       | (inl e, s') => (inl e, s')
       end.
Definition modify {S} (f : S → S) : M S unit := λ s, (inr (), f s).

Notation "'let*' x := c 'in' k" := (bind c (λ x, k))
  (at level 10, x name, c at level 100, k at level 200, only parsing).
Notation "c ';;;' k" := (bind c (λ _, k))
  (at level 100, k at level 200, right associativity, only parsing).

(** [try: c  except E as e: h e] where [E] is the class [handles] tests. *)
Definition try_except {S A} (c : M S A) (handles : exn → bool) (h : exn → M S A) : M S A :=
  λ s, match c s with
       | (inl e, s') => if handles e then h e s' else (inl e, s')
       | r => r
       end.

Fixpoint for_each {S A} (f : A → M S unit) (l : list A) : M S unit :=
  match l with
  | [] => ret ()
  | a :: l' => f a ;;; for_each f l'
  end.

(** Running a computation on one component of a pair of states. *)
Definition on_fst {S T A} (c : M S A) : M (S * T) A :=
  λ st, let '(r, s') := c st.1 in (r, (s', st.2)).
Definition on_snd {S T A} (c : M T A) : M (S * T) A :=
  λ st, let '(r, t') := c st.2 in (r, (st.1, t')).

(** ** Python's dynamic operations on JSON values *)

(** [d.update(e)]: the keys of both, with the values of [e] where both have one. *)
Definition dict_update (d e : gmap string json) : gmap string json := e ∪ d.

(** [obj.get(key, otherwise)] *)
Definition get_method (obj : json) (key : string) (otherwise : json) : result json :=
  match obj with
  | JDict d => inr (default otherwise (d !! key))
  | _ => inl AttributeError
  end.

(** [obj[key]] with a string key *)
Definition subscript (obj : json) (key : string) : result json :=
  match obj with
  | JDict d =>
      match d !! key with
      | Some v => inr v
      | None => inl (KeyError key)
      end
  | _ => inl TypeError
  end.

Definition is_zero_float (x : float) : bool := bool_decide (QArith_base.Qnum x = 0).

(** Truth value of a decoded value, as [if value] tests it. *)
Definition truthy (v : json) : bool :=
  match v with
  | JNull => false
  | JBool b => b
  | JInt n => negb (bool_decide (n = 0))
  | JFloat x => negb (is_zero_float x)
  | JStr s => negb (bool_decide (s = ""))
  | JList l => negb (bool_decide (length l = 0%nat))
  | JDict d => negb (bool_decide (size d = 0%nat))
  end.

Fixpoint characters (s : string) : list json :=
  match s with
  | EmptyString => []
  | String c s' => JStr (String c EmptyString) :: characters s'
  end.

(** What [for entry in v] visits. *)
Definition iterate (v : json) : result (list json) :=
  match v with
  | JList l => inr l
  | JDict d => inr ((λ kv, JStr kv.1) <$> map_to_list d)
  | JStr s => inr (characters s)
  | _ => inl TypeError
  end.

(** Reading a field at its declared type. *)
Definition as_int (field : string) (v : json) : result Z :=
  match v with JInt n => inr n | _ => inl (IllTyped field) end.
Definition as_str (field : string) (v : json) : result string :=
  match v with JStr s => inr s | _ => inl (IllTyped field) end.
Definition as_float (field : string) (v : json) : result float :=
  match v with
  | JInt n => inr (QArith_base.inject_Z n)
  | JFloat x => inr x
  | _ => inl (IllTyped field)
  end.
Definition as_optional {A} (read : string → json → result A) (field : string) (v : json)
  : result (option A) :=
  match v with
  | JNull => inr None
  | _ => let+ a := read field v in inr (Some a)
  end.
Definition as_bool (field : string) (v : json) : result bool :=
  match v with JBool b => inr b | _ => inl (IllTyped field) end.

(** ** API records ([src/api/models.py]) *)

Record Station := {
  station_id : Z;
  station_codename : string;
  station_name : string;
  station_district : string;
  station_voivodeship : string;
  station_city : string;
  station_address : option string;
  station_latitude : float;
  station_longitude : float
}.

Record StationMeta := {
  meta_codename : string;
  meta_international_codename : option string;
  meta_launch_date : datetime;
  meta_close_date : option datetime;
  meta_type : string
}.

Record Index := {
  index_date : option datetime;
  index_value : option Z
}.

Record AirQualityIndexes := {
  overall : Index;
  sensors : list (string * Index);
  index_status : option bool;
  index_critical : option string
}.

Record Sensor := {
  sensor_id : Z;
  sensor_codename : string;
  sensor_name : string
}.

Record SensorData := {
  data_date : datetime;
  data_value : option float
}.

(** ** The remote API client ([src/api/client.py]) *)

Module APIClient.

(** The URL of a request is determined by its endpoint, page, size and
    query arguments; the endpoint's path embeds the identifier. *)
Inductive endpoint : Type :=
| StationFindAll
| MetadataStations
| AqIndexGetIndex (station : Z)
| StationSensors (station : Z)
| DataGetData (sensor : Z)
| ArchivalDataGetDataBySensor (sensor : Z).

Inductive query_value : Type :=
| QueryText (s : string)
| QueryInt (n : Z)
| QueryMinute (d : datetime).

Record request := {
  rq_endpoint : endpoint;
  rq_page : Z;
  rq_size : Z;
  rq_args : list (string * query_value)
}.

(** What [requests.get] followed by [raise_for_status] and [json()] meets:
    [requests.get] raises, or answers with an error status, or answers with
    a success status; a body is [None] when it does not decode. *)
Inductive response : Type :=
| Raises (e : exn)
| HttpError (body : option json)
| HttpOk (body : option json).

Record api_state := {
  _connection_status : bool;
  connection_status_changed : bool;
  notified : list bool;
  requested : list request
}.

Definition new_api_client : api_state :=
  {| _connection_status := true; connection_status_changed := false;
     notified := []; requested := [] |}.

(** The setter of [connection_status]. *)
Definition set_connection_status (value : bool) (st : api_state) : api_state :=
  if bool_decide (_connection_status st = value) then st
  else {| _connection_status := value;
          connection_status_changed := connection_status_changed st;
          notified := if connection_status_changed st
                      then notified st ++ [value] else notified st;
          requested := requested st |}.

Definition log_request (rq : request) (st : api_state) : api_state :=
  {| _connection_status := _connection_status st;
     connection_status_changed := connection_status_changed st;
     notified := notified st;
     requested := requested st ++ [rq] |}.

Definition RATE_LIMIT_CODE : string := "API-ERR-100003".

Definition RATE_LIMIT_MESSAGE : string :=
  "API rate limit exceeded (max 2 requests per minute). Please wait before retrying the request.".

Section Client.

(** The remote service: its answer to a request, given the requests this
    client made before. *)
Variable remote : list request → request → response.

(** Python's [int] on a [str] ([None] when it raises [ValueError]) and
    [datetime.fromisoformat] (likewise). *)
Variable int_of_str : string → option Z.
Variable fromisoformat : string → option datetime.

(** [int(v)] *)
Definition py_int (v : json) : result Z :=
  match v with
  | JInt n => inr n
  | JBool b => inr (if b then 1 else 0)
  | JFloat x => inr (QArith_base.Qnum x `quot` Z.pos (QArith_base.Qden x))
  | JStr s => match int_of_str s with Some n => inr n | None => inl ValueError end
  | _ => inl TypeError
  end.

(** [int(response.get("totalPages", 1))] *)
Definition total_pages_of (response : json) : result Z :=
  let+ v := get_method response "totalPages" (JInt 1) in py_int v.

(** [datetime.fromisoformat(v)] *)
Definition py_fromisoformat (v : json) : result datetime :=
  match v with
  | JStr s => match fromisoformat s with Some d => inr d | None => inl ValueError end
  | _ => inl TypeError
  end.

Definition _get (endpoint : endpoint) (page size : Z) (args : list (string * query_value))
  : M api_state json :=
  λ st,
    let rq := {| rq_endpoint := endpoint; rq_page := page; rq_size := size; rq_args := args |} in
    let st1 := log_request rq st in
    match remote (requested st) rq with
    | Raises e =>
        if is_ConnectionError e
        then (inl e, set_connection_status false st1)
        else (inl e, st1)
    | HttpError body =>
        let st2 := set_connection_status true st1 in
        match body with
        | None => (inl JSONDecodeError, st2)
        | Some payload =>
            (let+ code := get_method payload "error_code" JNull in
             let+ reason := get_method payload "error_reason" JNull in
             let+ res := get_method payload "error_result" JNull in
             let+ solution := get_method payload "error_solution" JNull in
             inl (APIError code reason res solution), st2)
        end
    | HttpOk body =>
        let st2 := set_connection_status true st1 in
        match body with
        | None => (inl JSONDecodeError, st2)
        | Some j => (inr j, st2)
        end
    end.

(** [result.extend(fragment)] or [result.update(fragment)], by the
    fragment's shape. *)
Definition merge_fragment (acc fragment : json) : result json :=
  match fragment with
  | JList l =>
      match acc with
      | JList r => inr (JList (r ++ l))
      | _ => inl AttributeError
      end
  | JDict d =>
      match acc with
      | JDict r => inr (JDict (dict_update r d))
      | _ => inl AttributeError
      end
  | _ => inl TypeError
  end.

(** The loop [for page in range(1, total_pages)] of [_get_collected], from
    [page] on, [count] pages to go. *)
Fixpoint collect_pages (endpoint : endpoint) (target : string)
    (args : list (string * query_value)) (page : Z) (count : nat) (acc : json)
  : M api_state json :=
  match count with
  | O => ret acc
  | S n =>
      let* response := _get endpoint page 100 args in
      let* fragment := lift_result (get_method response target JNull) in
      let* acc' := lift_result (merge_fragment acc fragment) in
      collect_pages endpoint target args (page + 1) n acc'
  end.

Definition _get_collected (endpoint : endpoint) (target : string) (size : Z)
    (args : list (string * query_value)) : M api_state json :=
  let* response := _get endpoint 0 size args in
  let* total_pages := lift_result (total_pages_of response) in
  let* fragment := lift_result (get_method response target JNull) in
  let* acc :=
    match fragment with
    | JList l => ret (JList l)
    | JDict d => ret (JDict d)
    | _ => raise TypeError
    end in
  collect_pages endpoint target args 1 (Z.to_nat (total_pages - 1)) acc.

(** The pages after the first of [_get_each]. *)
Fixpoint each_page {A} (endpoint : endpoint) (target : string) (callback : json → M A unit)
    (args : list (string * query_value)) (page : Z) (count : nat) : M (api_state * A) unit :=
  match count with
  | O => ret ()
  | S n =>
      let* response := on_fst (_get endpoint page 100 args) in
      let* fragment := lift_result (get_method response target JNull) in
      on_snd (callback fragment) ;;;
      each_page endpoint target callback args (page + 1) n
  end.

(** [callback] appends to a list the caller owns: the second component of
    the state, which keeps what was appended when a later page raises. *)
Definition _get_each {A} (endpoint : endpoint) (target : string) (callback : json → M A unit)
    (size : Z) (args : list (string * query_value)) : M (api_state * A) unit :=
  let* response := on_fst (_get endpoint 0 size args) in
  let* total_pages := lift_result (total_pages_of response) in
  match Z.to_nat total_pages with
  | O => ret ()
  | S n =>
      let* fragment := lift_result (get_method response target JNull) in
      on_snd (callback fragment) ;;;
      each_page endpoint target callback args 1 n
  end.

Definition station_of_entry (entry : json) : result Station :=
  let+ id := subscript entry "Identyfikator stacji" in
  let+ codename := subscript entry "Kod stacji" in
  let+ name := subscript entry "Nazwa stacji" in
  let+ district := subscript entry "Powiat" in
  let+ voivodeship := subscript entry "Województwo" in
  let+ city := subscript entry "Nazwa miasta" in
  let+ address := subscript entry "Ulica" in
  let+ latitude := subscript entry "WGS84 φ N" in
  let+ longitude := subscript entry "WGS84 λ E" in
  let+ id := as_int "id" id in
  let+ codename := as_str "codename" codename in
  let+ name := as_str "name" name in
  let+ district := as_str "district" district in
  let+ voivodeship := as_str "voivodeship" voivodeship in
  let+ city := as_str "city" city in
  let+ address := as_optional as_str "address" address in
  let+ latitude := as_float "latitude" latitude in
  let+ longitude := as_float "longitude" longitude in
  inr {| station_id := id; station_codename := codename; station_name := name;
         station_district := district; station_voivodeship := voivodeship;
         station_city := city; station_address := address;
         station_latitude := latitude; station_longitude := longitude |}.

Definition fetch_stations : M api_state (list Station) :=
  let* raw := _get_collected StationFindAll "Lista stacji pomiarowych" 100 [] in
  lift_result (let+ entries := iterate raw in map_result station_of_entry entries).

(** [datetime.fromisoformat(value) if value else None] *)
Definition optional_date (value : json) : result (option datetime) :=
  if truthy value then let+ d := py_fromisoformat value in inr (Some d) else inr None.

Definition station_meta_of_entry (entry : json) : result StationMeta :=
  let+ codename := subscript entry "Kod stacji" in
  let+ international := subscript entry "Kod międzynarodowy" in
  let+ launch := subscript entry "Data uruchomienia" in
  let+ launch_date := py_fromisoformat launch in
  let+ close := get_method entry "Data zamknięcia" JNull in
  let+ close_date := optional_date close in
  let+ type := subscript entry "Rodzaj stacji" in
  let+ codename := as_str "codename" codename in
  let+ international := as_optional as_str "international_codename" international in
  let+ type := as_str "type" type in
  inr {| meta_codename := codename; meta_international_codename := international;
         meta_launch_date := launch_date; meta_close_date := close_date;
         meta_type := type |}.

Definition fetch_station_meta (city station_codename : option string)
  : M api_state (list StationMeta) :=
  let params :=
    match city with
    | Some c => if bool_decide (c = "") then [] else [("filter[miasto]", QueryText c)]
    | None => []
    end ++
    match station_codename with
    | Some c => if bool_decide (c = "") then [] else [("filter[kod-stacji]", QueryText c)]
    | None => []
    end in
  let* raw := _get_collected MetadataStations "Lista metadanych stacji pomiarowych" 100 params in
  lift_result (let+ entries := iterate raw in map_result station_meta_of_entry entries).

Definition POLLUTANTS : list string := ["NO2"; "O3"; "PM10"; "PM2.5"; "SO2"].

Definition index_of_raw (raw : json) (date_key value_key : string) : result Index :=
  let+ date := get_method raw date_key JNull in
  let+ date := optional_date date in
  let+ value := get_method raw value_key JNull in
  let+ value := as_optional as_int "value" value in
  inr {| index_date := date; index_value := value |}.

Definition fetch_air_quality_indexes (station : Z) : M api_state AirQualityIndexes :=
  let* raw := _get_collected (AqIndexGetIndex station) "AqIndex" 100 [] in
  lift_result (
    let+ overall_index :=
      index_of_raw raw "Data wykonania obliczeń indeksu" "Wartość indeksu" in
    let+ per_sensor :=
      map_result
        (λ pollutant,
           let+ idx :=
             index_of_raw raw
               ("Data wykonania obliczeń indeksu dla wskaźnika " +:+ pollutant)
               ("Wartość indeksu dla wskaźnika " +:+ pollutant) in
           inr (pollutant, idx))
        POLLUTANTS in
    let+ status := get_method raw "Status indeksu ogólnego dla stacji pomiarowej" JNull in
    let+ status := as_optional as_bool "index_status" status in
    let+ critical := get_method raw "Kod zanieczyszczenia krytycznego" JNull in
    let+ critical := as_optional as_str "index_critical" critical in
    inr {| overall := overall_index; sensors := per_sensor;
           index_status := status; index_critical := critical |}).

Definition sensor_of_entry (entry : json) : result Sensor :=
  let+ id := subscript entry "Identyfikator stanowiska" in
  let+ codename := subscript entry "Wskaźnik - kod" in
  let+ name := subscript entry "Wskaźnik" in
  let+ id := as_int "id" id in
  let+ codename := as_str "codename" codename in
  let+ name := as_str "name" name in
  inr {| sensor_id := id; sensor_codename := codename; sensor_name := name |}.

Definition fetch_station_sensors (station : Z) : M api_state (list Sensor) :=
  let* raw :=
    _get_collected (StationSensors station)
      "Lista stanowisk pomiarowych dla podanej stacji" 100 [] in
  lift_result (let+ entries := iterate raw in map_result sensor_of_entry entries).

Definition append {A} (a : A) : M (list A) unit := modify (λ l, l ++ [a]).

(** The callback of [fetch_sensor_data]: entries without a value are left out. *)
Definition collect_current (data : json) : M (list SensorData) unit :=
  let* entries := lift_result (iterate data) in
  for_each
    (λ entry,
       let* value := lift_result (get_method entry "Wartość" JNull) in
       match value with
       | JNull => ret ()
       | _ =>
           let* date :=
             lift_result (let+ d := subscript entry "Data" in py_fromisoformat d) in
           let* value := lift_result (as_float "value" value) in
           append {| data_date := date; data_value := Some value |}
       end)
    entries.

Definition fetch_sensor_data (sensor : Z) : M api_state (list SensorData) :=
  λ st,
    match _get_each (DataGetData sensor) "Lista danych pomiarowych" collect_current 500 []
            (st, []) with
    | (inr _, (st', data)) => (inr data, st')
    | (inl e, (st', _)) => (inl e, st')
    end.

(** The callback of [fetch_sensor_archival_data]: every entry is kept, with
    the value it has or with none. *)
Definition collect_archival (data : json) : M (list SensorData) unit :=
  let* entries := lift_result (iterate data) in
  for_each
    (λ entry,
       let* date :=
         lift_result (let+ d := subscript entry "Data" in py_fromisoformat d) in
       let* value := lift_result (get_method entry "Wartość" JNull) in
       let* value := lift_result (as_optional as_float "value" value) in
       append {| data_date := date; data_value := value |})
    entries.

Definition archival_params (date_from date_to : option datetime) (days : option Z)
  : list (string * query_value) :=
  match date_from with Some d => [("dateFrom", QueryMinute (strftime_minute d))] | None => [] end ++
  match date_to with Some d => [("dateTo", QueryMinute (strftime_minute d))] | None => [] end ++
  match days with
  | Some n => if bool_decide (n = 0) then [] else [("dayNumber", QueryInt n)]
  | None => []
  end.

Definition is_rate_limit_code (code : json) : bool :=
  match code with
  | JStr s => bool_decide (s = RATE_LIMIT_CODE)
  | _ => false
  end.

(** The [except APIError] clause matches the code against one case and has
    no other: after any other code control leaves the [match] and reaches
    [return result]. *)
Definition fetch_sensor_archival_data (sensor : Z) (date_from date_to : option datetime)
    (days : option Z) : M api_state (list SensorData) :=
  λ st,
    match _get_each (ArchivalDataGetDataBySensor sensor)
            "Lista archiwalnych wyników pomiarów" collect_archival 500
            (archival_params date_from date_to days) (st, []) with
    | (inr _, (st', data)) => (inr data, st')
    | (inl (APIError code _ _ _), (st', data)) =>
        if is_rate_limit_code code
        then (inl (TooManyRequests RATE_LIMIT_MESSAGE), st')
        else (inr data, st')
    | (inl e, (st', _)) => (inl e, st')
    end.

End Client.

End APIClient.

(** ** Store views ([src/database/views.py]) and configuration ([src/config.py]) *)

Record StationListView := {
  slv_id : Z;
  slv_name : string;
  slv_latitude : float;
  slv_longitude : float;
  slv_city : string
}.

Record StationDetailsView := {
  sdv_id : Z;
  sdv_codename : string;
  sdv_name : string;
  sdv_district : string;
  sdv_voivodeship : string;
  sdv_city : string;
  sdv_address : option string
}.

Record SensorView := {
  sv_id : Z;
  sv_codename : string
}.

Record SensorValueView := {
  svv_date : datetime;
  svv_value : float
}.

Definition UPDATE_INTERVAL_station : timedelta := timedelta_days 1.
Definition UPDATE_INTERVAL_aq_indexes : timedelta := timedelta_hours 1.
Definition UPDATE_INTERVAL_sensors : timedelta := timedelta_days 1.

Definition AQ_INDEX_CATEGORIES : list (Z * string) :=
  [(-1, "Brak wartości"); (0, "Bardzo dobry"); (1, "Dobry");
   (2, "Umiarkowany"); (3, "Zły"); (4, "Bardzo zły")].

Definition AQ_TYPES : list string := ["Ogólny"; "SO2"; "NO2"; "PM10"; "PM2.5"; "O3"].

(** ** The store ([src/database/client.py])

    A table with a key is a finite map from the key; a table without one is
    the list of its rows.  [city] and [sensor_type] are keyed by their
    [UNIQUE] column, the one every statement addresses them by, and carry the
    [AUTOINCREMENT] identifier in the row; each has its counter of
    [sqlite_sequence], which SQLite advances on every [INSERT OR IGNORE],
    ignored or not.  Foreign keys are declared and not enforced (the
    connection never turns them on).  The store is what one connection sees:
    a statement's rows stay when a later statement of the same call raises. *)

Module DatabaseClient.

Definition OVERALL_SENSOR_TYPE_CODENAME : string := "Ogólny".

(** [GlobalUpdateIds.STATION_LIST] *)
Definition STATION_LIST : Z := 0.

Record city_row := {
  city_id : Z;
  city_district : string;
  city_voivodeship : string
}.

Record station_row := {
  st_codename : string;
  st_name : string;
  st_city_id : Z;
  st_address : option string;
  st_latitude : float;
  st_longitude : float
}.

Record station_update_row := {
  last_sensors_update_at : Z;
  last_indexes_update_at : Z;
  last_meta_update_at : Z
}.

(** A value of an [INTEGER] column: an integer, or a text that is no number. *)
Definition key : Type := (Z + string)%type.

Record station_meta_row := {
  sm_station_id : key;
  sm_international_codename : string;
  sm_launch_date : datetime;
  sm_shutdown_date : option datetime;
  sm_type : string
}.

Record aq_index_row := {
  aq_value : option Z;
  aq_record_date : option datetime
}.

Record sensor_row := {
  sn_station_id : Z;
  sn_sensor_type_id : option Z
}.

Record store := {
  global_update : gmap Z Z;
  city : gmap string city_row;
  city_sequence : Z;
  station : gmap Z station_row;
  station_update : gmap key station_update_row;
  station_meta : list station_meta_row;
  aq_index_category_name : gmap Z string;
  sensor_type : gmap string Z;
  sensor_type_sequence : Z;
  aq_index : gmap (Z * Z) aq_index_row;
  (** the rows of [aq_index] whose [sensor_type_id] is [NULL], by station *)
  aq_index_untyped : list (Z * aq_index_row);
  sensor : gmap Z sensor_row;
  sensor_data : gmap (Z * datetime) float
}.

Definition with_global_update (f : gmap Z Z → gmap Z Z) (db : store) : store :=
  {| global_update := f (global_update db); city := city db;
     city_sequence := city_sequence db; station := station db;
     station_update := station_update db; station_meta := station_meta db;
     aq_index_category_name := aq_index_category_name db;
     sensor_type := sensor_type db; sensor_type_sequence := sensor_type_sequence db;
     aq_index := aq_index db; aq_index_untyped := aq_index_untyped db;
     sensor := sensor db; sensor_data := sensor_data db |}.

Definition with_city (f : gmap string city_row → gmap string city_row) (seq : Z)
    (db : store) : store :=
  {| global_update := global_update db; city := f (city db);
     city_sequence := seq; station := station db;
     station_update := station_update db; station_meta := station_meta db;
     aq_index_category_name := aq_index_category_name db;
     sensor_type := sensor_type db; sensor_type_sequence := sensor_type_sequence db;
     aq_index := aq_index db; aq_index_untyped := aq_index_untyped db;
     sensor := sensor db; sensor_data := sensor_data db |}.

Definition with_station (f : gmap Z station_row → gmap Z station_row) (db : store) : store :=
  {| global_update := global_update db; city := city db;
     city_sequence := city_sequence db; station := f (station db);
     station_update := station_update db; station_meta := station_meta db;
     aq_index_category_name := aq_index_category_name db;
     sensor_type := sensor_type db; sensor_type_sequence := sensor_type_sequence db;
     aq_index := aq_index db; aq_index_untyped := aq_index_untyped db;
     sensor := sensor db; sensor_data := sensor_data db |}.

Definition with_station_update
    (f : gmap key station_update_row → gmap key station_update_row) (db : store) : store :=
  {| global_update := global_update db; city := city db;
     city_sequence := city_sequence db; station := station db;
     station_update := f (station_update db); station_meta := station_meta db;
     aq_index_category_name := aq_index_category_name db;
     sensor_type := sensor_type db; sensor_type_sequence := sensor_type_sequence db;
     aq_index := aq_index db; aq_index_untyped := aq_index_untyped db;
     sensor := sensor db; sensor_data := sensor_data db |}.

Definition with_station_meta (f : list station_meta_row → list station_meta_row)
    (db : store) : store :=
  {| global_update := global_update db; city := city db;
     city_sequence := city_sequence db; station := station db;
     station_update := station_update db; station_meta := f (station_meta db);
     aq_index_category_name := aq_index_category_name db;
     sensor_type := sensor_type db; sensor_type_sequence := sensor_type_sequence db;
     aq_index := aq_index db; aq_index_untyped := aq_index_untyped db;
     sensor := sensor db; sensor_data := sensor_data db |}.

Definition with_sensor_type (f : gmap string Z → gmap string Z) (seq : Z) (db : store) : store :=
  {| global_update := global_update db; city := city db;
     city_sequence := city_sequence db; station := station db;
     station_update := station_update db; station_meta := station_meta db;
     aq_index_category_name := aq_index_category_name db;
     sensor_type := f (sensor_type db); sensor_type_sequence := seq;
     aq_index := aq_index db; aq_index_untyped := aq_index_untyped db;
     sensor := sensor db; sensor_data := sensor_data db |}.

Definition with_aq_index (f : gmap (Z * Z) aq_index_row → gmap (Z * Z) aq_index_row)
    (db : store) : store :=
  {| global_update := global_update db; city := city db;
     city_sequence := city_sequence db; station := station db;
     station_update := station_update db; station_meta := station_meta db;
     aq_index_category_name := aq_index_category_name db;
     sensor_type := sensor_type db; sensor_type_sequence := sensor_type_sequence db;
     aq_index := f (aq_index db); aq_index_untyped := aq_index_untyped db;
     sensor := sensor db; sensor_data := sensor_data db |}.

Definition with_aq_index_untyped
    (f : list (Z * aq_index_row) → list (Z * aq_index_row)) (db : store) : store :=
  {| global_update := global_update db; city := city db;
     city_sequence := city_sequence db; station := station db;
     station_update := station_update db; station_meta := station_meta db;
     aq_index_category_name := aq_index_category_name db;
     sensor_type := sensor_type db; sensor_type_sequence := sensor_type_sequence db;
     aq_index := aq_index db; aq_index_untyped := f (aq_index_untyped db);
     sensor := sensor db; sensor_data := sensor_data db |}.

Definition with_sensor (f : gmap Z sensor_row → gmap Z sensor_row) (db : store) : store :=
  {| global_update := global_update db; city := city db;
     city_sequence := city_sequence db; station := station db;
     station_update := station_update db; station_meta := station_meta db;
     aq_index_category_name := aq_index_category_name db;
     sensor_type := sensor_type db; sensor_type_sequence := sensor_type_sequence db;
     aq_index := aq_index db; aq_index_untyped := aq_index_untyped db;
     sensor := f (sensor db); sensor_data := sensor_data db |}.

Definition with_sensor_data
    (f : gmap (Z * datetime) float → gmap (Z * datetime) float) (db : store) : store :=
  {| global_update := global_update db; city := city db;
     city_sequence := city_sequence db; station := station db;
     station_update := station_update db; station_meta := station_meta db;
     aq_index_category_name := aq_index_category_name db;
     sensor_type := sensor_type db; sensor_type_sequence := sensor_type_sequence db;
     aq_index := aq_index db; aq_index_untyped := aq_index_untyped db;
     sensor := sensor db; sensor_data := f (sensor_data db) |}.


(** *** Statements and triggers *)

(** [INSERT OR IGNORE INTO sensor_type (codename) VALUES (?)] *)
Definition insert_or_ignore_sensor_type (codename : string) (db : store) : store :=
  let id := sensor_type_sequence db + 1 in
  match sensor_type db !! codename with
  | Some _ => with_sensor_type (λ m, m) id db
  | None => with_sensor_type <[codename := id]> id db
  end.

(** [INSERT OR IGNORE INTO city (district, voivodeship, city) VALUES (?, ?, ?)] *)
Definition insert_or_ignore_city (s : Station) (db : store) : store :=
  let id := city_sequence db + 1 in
  match city db !! station_city s with
  | Some _ => with_city (λ m, m) id db
  | None =>
      with_city
        <[station_city s := {| city_id := id; city_district := station_district s;
                               city_voivodeship := station_voivodeship s |}]> id db
  end.

(** [tgr_on_insert_station]: stamps the station list's row of [global_update]. *)
Definition tgr_on_insert_station (now : Z) (db : store) : store :=
  with_global_update (alter (λ _, now) STATION_LIST) db.

(** [INSERT OR REPLACE INTO station ... SELECT ... FROM city WHERE city.city = :city]:
    the rows in conflict on [id] or on [codename] go, the new row comes. *)
Definition insert_or_replace_station (now : Z) (s : Station) (db : store) : store :=
  match city db !! station_city s with
  | None => db
  | Some c =>
      let row := {| st_codename := station_codename s; st_name := station_name s;
                    st_city_id := city_id c; st_address := station_address s;
                    st_latitude := station_latitude s;
                    st_longitude := station_longitude s |} in
      tgr_on_insert_station now
        (with_station
           (λ m, <[station_id s := row]>
                   (filter (λ kv, st_codename kv.2 ≠ station_codename s) m))
           db)
  end.

(** [INSERT INTO station_update (station_id, last_sensors_update_at) ...
    ON CONFLICT(station_id) DO UPDATE SET last_sensors_update_at = ...]: the
    station's row keeps its other columns, a new row takes their defaults. *)
Definition upsert_last_sensors_update_at (now : Z) (station : Z)
    (m : gmap key station_update_row) : gmap key station_update_row :=
  match m !! inl station with
  | Some r =>
      <[inl station := {| last_sensors_update_at := now;
                          last_indexes_update_at := last_indexes_update_at r;
                          last_meta_update_at := last_meta_update_at r |}]> m
  | None =>
      <[inl station := {| last_sensors_update_at := now;
                          last_indexes_update_at := 0;
                          last_meta_update_at := 0 |}]> m
  end.

(** The same statement for [last_indexes_update_at]. *)
Definition upsert_last_indexes_update_at (now : Z) (station : Z)
    (m : gmap key station_update_row) : gmap key station_update_row :=
  match m !! inl station with
  | Some r =>
      <[inl station := {| last_sensors_update_at := last_sensors_update_at r;
                          last_indexes_update_at := now;
                          last_meta_update_at := last_meta_update_at r |}]> m
  | None =>
      <[inl station := {| last_sensors_update_at := 0;
                          last_indexes_update_at := now;
                          last_meta_update_at := 0 |}]> m
  end.

(** [INSERT OR REPLACE INTO station_update (station_id, last_meta_update_at)]:
    the row in conflict goes, and the new one takes the defaults in its
    other columns. *)
Definition replace_last_meta_update_at (now : Z) (station : key)
    (m : gmap key station_update_row) : gmap key station_update_row :=
  <[station := {| last_sensors_update_at := 0; last_indexes_update_at := 0;
                  last_meta_update_at := now |}]> m.

(** [tgr_on_insert_sensor], [tgr_on_update_sensor] *)
Definition tgr_on_insert_sensor (now : Z) (station : Z) (db : store) : store :=
  with_station_update (upsert_last_sensors_update_at now station) db.

(** [tgr_on_insert_aq_index], [tgr_on_update_aq_index] *)
Definition tgr_on_aq_index (now : Z) (station : Z) (db : store) : store :=
  with_station_update (upsert_last_indexes_update_at now station) db.

(** [tgr_on_insert_station_meta], [tgr_on_update_station_meta] *)
Definition tgr_on_station_meta (now : Z) (station : key) (db : store) : store :=
  with_station_update (replace_last_meta_update_at now station) db.

(** [INSERT OR IGNORE INTO sensor (id, station_id, sensor_type_id)]; the
    trigger runs when a row went in. *)
Definition insert_or_ignore_sensor (now : Z) (station : Z) (s : Sensor) (db : store) : store :=
  match sensor db !! sensor_id s with
  | Some _ => db
  | None =>
      tgr_on_insert_sensor now station
        (with_sensor
           <[sensor_id s := {| sn_station_id := station;
                               sn_sensor_type_id := sensor_type db !! sensor_codename s |}]>
           db)
  end.

(** [INSERT INTO aq_index ... ON CONFLICT(station_id, sensor_type_id) DO UPDATE]:
    a [NULL] type is in conflict with nothing. *)
Definition upsert_aq_index (now : Z) (station : Z) (entry : string * Index) (db : store)
  : store :=
  let row := {| aq_value := index_value entry.2; aq_record_date := index_date entry.2 |} in
  tgr_on_aq_index now station
    match sensor_type db !! entry.1 with
    | Some type => with_aq_index <[(station, type) := row]> db
    | None => with_aq_index_untyped (λ l, l ++ [(station, row)]) db
    end.

(** [INSERT INTO sensor_data ... ON CONFLICT(sensor_id, date) DO UPDATE];
    [value] is [NOT NULL]. *)
Definition upsert_sensor_data (sensor : Z) (entry : SensorData) : M store unit :=
  match data_value entry with
  | None => raise IntegrityError
  | Some v => modify (with_sensor_data <[(sensor, data_date entry) := v]>)
  end.

(** [INSERT OR REPLACE INTO station_meta]: the table has no key, the row is
    added; [international_codename] is [NOT NULL]. *)
Definition insert_station_meta (now : Z) (station : key) (m : StationMeta)
    (shutdown : datetime) : M store unit :=
  match meta_international_codename m with
  | None => raise IntegrityError
  | Some international =>
      modify (λ db,
        tgr_on_station_meta now station
          (with_station_meta
             (λ l, l ++ [{| sm_station_id := station;
                            sm_international_codename := international;
                            sm_launch_date := meta_launch_date m;
                            sm_shutdown_date := Some shutdown;
                            sm_type := meta_type m |}])
             db))
  end.

(** *** The client's methods *)

Definition empty_store : store :=
  {| global_update := ∅; city := ∅; city_sequence := 0; station := ∅;
     station_update := ∅; station_meta := []; aq_index_category_name := ∅;
     sensor_type := ∅; sensor_type_sequence := 0; aq_index := ∅;
     aq_index_untyped := []; sensor := ∅; sensor_data := ∅ |}.

Definition update_sensor_types (types : list string) (db : store) : store :=
  foldl (λ db t, insert_or_ignore_sensor_type t db) db types.

(** The store of a new file. *)
Definition _populate_tables : store :=
  update_sensor_types AQ_TYPES
    {| global_update := {[STATION_LIST := 0]}; city := ∅; city_sequence := 0;
       station := ∅; station_update := ∅; station_meta := [];
       aq_index_category_name := list_to_map AQ_INDEX_CATEGORIES;
       sensor_type := ∅; sensor_type_sequence := 0; aq_index := ∅;
       aq_index_untyped := []; sensor := ∅; sensor_data := ∅ |}.

Definition update_stations (now : Z) (stations : list Station) (db : store) : store :=
  foldl (λ db s, insert_or_replace_station now s db)
    (foldl (λ db s, insert_or_ignore_city s db) db stations)
    stations.

Definition get_last_stations_update (db : store) : result datetime :=
  match global_update db !! STATION_LIST with
  | Some t => inr (fromtimestamp t)
  | None => inl TypeError
  end.

(** Rows come out in the order of their key. *)
Definition key_le {A} (x y : Z * A) : Prop := x.1 ≤ y.1.

#[global] Instance key_le_dec {A} : RelDecision (@key_le A).
Proof. intros x y. unfold key_le. apply _. Defined.

Definition by_key {A} (rows : list (Z * A)) : list (Z * A) :=
  merge_sort key_le rows.

Definition city_by_id (db : store) (id : Z) : option (string * city_row) :=
  List.find (λ kv, bool_decide (city_id kv.2 = id)) (map_to_list (city db)).

Definition sensor_type_by_id (db : store) (id : Z) : option (string * Z) :=
  List.find (λ kv, bool_decide (kv.2 = id)) (map_to_list (sensor_type db)).

Definition get_station_list_view (db : store) : list StationListView :=
  omap (λ kv,
          c ← city_by_id db (st_city_id kv.2);
          Some {| slv_id := kv.1; slv_name := st_name kv.2;
                  slv_latitude := st_latitude kv.2;
                  slv_longitude := st_longitude kv.2; slv_city := c.1 |})
       (by_key (map_to_list (station db))).

Section Affinity.

(** SQLite's [INTEGER] column affinity on a text: the integer when the text
    is a numeric literal of integral value, the text itself otherwise. *)
Variable integer_affinity : string → key.

(** The parameters are built first, for every record, and the statement
    runs after; [station_id] is bound to the record's codename. *)
Definition update_station_meta (now : Z) (meta : list StationMeta) : M store unit :=
  let* params :=
    lift_result
      (map_result
         (λ m, match meta_close_date m with
               | Some d => inr (m, d)
               | None => inl AttributeError
               end)
         meta) in
  for_each
    (λ p, insert_station_meta now (integer_affinity (meta_codename p.1)) p.1 p.2)
    params.

End Affinity.

Definition fetch_last_station_meta_update (db : store) (station : Z) : result datetime :=
  match station_update db !! inl station with
  | Some row => inr (fromtimestamp (last_meta_update_at row))
  | None => inl TypeError
  end.

Definition fetch_station_detail_view (db : store) (station_id : Z)
  : result StationDetailsView :=
  match
    row ← station db !! station_id;
    c ← city_by_id db (st_city_id row);
    Some {| sdv_id := station_id; sdv_codename := st_codename row;
            sdv_name := st_name row; sdv_district := city_district c.2;
            sdv_voivodeship := city_voivodeship c.2; sdv_city := c.1;
            sdv_address := st_address row |}
  with
  | Some v => inr v
  | None => inl TypeError
  end.

Definition update_station_air_quality_indexes (now : Z) (station : Z)
    (indexes : AirQualityIndexes) (db : store) : store :=
  foldl (λ db entry, upsert_aq_index now station entry db) db
    ((OVERALL_SENSOR_TYPE_CODENAME, overall indexes) :: sensors indexes).

Definition fetch_last_station_air_quality_indexes_update (db : store) (station : Z)
  : datetime :=
  match station_update db !! inl station with
  | Some row => fromtimestamp (last_indexes_update_at row)
  | None => fromtimestamp 0
  end.

Definition fetch_station_air_quality_index_value (db : store) (station : Z)
    (type_codename : string) : option Z :=
  type ← sensor_type db !! type_codename;
  row ← aq_index db !! (station, type);
  aq_value row.

Definition update_station_sensors (now : Z) (station : Z) (sensors : list Sensor)
    (db : store) : store :=
  foldl (λ db s, insert_or_ignore_sensor now station s db)
    (update_sensor_types (sensor_codename <$> sensors) db)
    sensors.

Definition fetch_last_station_sensors_update (db : store) (station : Z) : datetime :=
  match station_update db !! inl station with
  | Some row => fromtimestamp (last_sensors_update_at row)
  | None => fromtimestamp 0
  end.

Definition fetch_station_sensors (db : store) (station : Z) : list SensorView :=
  omap (λ kv,
          if bool_decide (sn_station_id kv.2 = station)
          then type ← sn_sensor_type_id kv.2;
               t ← sensor_type_by_id db type;
               Some {| sv_id := kv.1; sv_codename := t.1 |}
          else None)
       (by_key (map_to_list (sensor db))).

Definition update_sensor_data (sensor : Z) (data : list SensorData) : M store unit :=
  for_each (upsert_sensor_data sensor) data.

(** The dates of a sensor's rows. *)
Definition record_dates (db : store) (sensor : Z) : list datetime :=
  omap (λ kv, if bool_decide (kv.1.1 = sensor) then Some kv.1.2 else None)
       (map_to_list (sensor_data db)).

Definition fetch_latest_sensor_record_date (db : store) (sensor : Z) : option datetime :=
  foldr (λ d acc, Some (from_option (Z.max d) d acc)) None (record_dates db sensor).

Definition fetch_oldest_sensor_record_date (db : store) (sensor : Z) : option datetime :=
  foldr (λ d acc, Some (from_option (Z.min d) d acc)) None (record_dates db sensor).

Definition fetch_sensor_data (db : store) (sensor : Z) (date_from date_to : datetime)
  : list SensorValueView :=
  (λ kv, {| svv_date := kv.1; svv_value := kv.2 |}) <$>
    (by_key
       (omap (λ kv,
                if bool_decide (kv.1.1 = sensor ∧ date_from ≤ kv.1.2 ∧ kv.1.2 ≤ date_to)
                then Some (kv.1.2, kv.2) else None)
             (map_to_list (sensor_data db)))).

End DatabaseClient.

(** ** The orchestrator ([src/repository.py]) *)

Module Repository.

(** What a repository call acts on: its two clients and the log.  The field
    [refreshes] is a ghost: it records every entry into
    [update_sensor_data], with its arguments, and no code reads it. *)
Record world := {
  _api_client : APIClient.api_state;
  _database_client : DatabaseClient.store;
  warnings : list (string * exn);
  refreshes : list (Z * datetime * datetime)
}.

Definition on_api {A} (c : M APIClient.api_state A) : M world A :=
  λ w, let '(r, st) := c (_api_client w) in
       (r, {| _api_client := st; _database_client := _database_client w;
              warnings := warnings w; refreshes := refreshes w |}).

Definition on_database {A} (c : M DatabaseClient.store A) : M world A :=
  λ w, let '(r, db) := c (_database_client w) in
       (r, {| _api_client := _api_client w; _database_client := db;
              warnings := warnings w; refreshes := refreshes w |}).

Definition query {A} (q : DatabaseClient.store → A) : M world A :=
  λ w, (inr (q (_database_client w)), w).

Definition query_or_raise {A} (q : DatabaseClient.store → result A) : M world A :=
  λ w, (q (_database_client w), w).

Definition logging_warning (message : string) (e : exn) : M world unit :=
  modify (λ w, {| _api_client := _api_client w; _database_client := _database_client w;
                  warnings := warnings w ++ [(message, e)]; refreshes := refreshes w |}).

Definition ghost_refresh (sensor : Z) (date_from date_to : datetime) : M world unit :=
  modify (λ w, {| _api_client := _api_client w; _database_client := _database_client w;
                  warnings := warnings w;
                  refreshes := refreshes w ++ [(sensor, date_from, date_to)] |}).

(** [timedelta(days=3, hours=1)] *)
Definition ARCHIVE_AGE : timedelta := timedelta_days 3 + timedelta_hours 1.

Section Repository.

Variable remote : list APIClient.request → APIClient.request → APIClient.response.
Variable int_of_str : string → option Z.
Variable fromisoformat : string → option datetime.

(** The reading of the clock, [datetime.now()], during the call. *)
Variable now : datetime.

Definition update_stations : M world unit :=
  let* api_stations := on_api (APIClient.fetch_stations remote int_of_str) in
  on_database (modify (DatabaseClient.update_stations (unixepoch now) api_stations)).

Definition get_station_list_view : M world (list StationListView) :=
  let* last_update_at :=
    query_or_raise DatabaseClient.get_last_stations_update in
  let elapsed := now - last_update_at in
  try_except
    (if bool_decide (UPDATE_INTERVAL_station ≤ elapsed) then update_stations else ret ())
    is_ConnectionError
    (logging_warning "Error while updating stations: %s") ;;;
  query DatabaseClient.get_station_list_view.

Definition fetch_station_details_view (station_id : Z) : M world StationDetailsView :=
  let* last_update_at :=
    query_or_raise DatabaseClient.get_last_stations_update in
  let elapsed := now - last_update_at in
  try_except
    (if bool_decide (UPDATE_INTERVAL_station ≤ elapsed) then update_stations else ret ())
    is_ConnectionError
    (logging_warning "Error while updating stations: %s") ;;;
  query_or_raise (λ db, DatabaseClient.fetch_station_detail_view db station_id).

Definition update_station_air_quality_indexes (station_id : Z) : M world unit :=
  let* air_quality_indexes :=
    on_api (APIClient.fetch_air_quality_indexes remote int_of_str fromisoformat station_id) in
  on_database
    (modify (DatabaseClient.update_station_air_quality_indexes (unixepoch now) station_id
               air_quality_indexes)).

Definition fetch_station_air_quality_index_value (station_id : Z) (type_codename : string)
  : M world (option Z) :=
  let* last_update_at :=
    query (λ db, DatabaseClient.fetch_last_station_air_quality_indexes_update db station_id) in
  let elapsed := now - last_update_at in
  try_except
    (if bool_decide (UPDATE_INTERVAL_aq_indexes ≤ elapsed)
     then update_station_air_quality_indexes station_id else ret ())
    is_ConnectionError
    (logging_warning "Error while updating air quality index values: %s") ;;;
  query (λ db, DatabaseClient.fetch_station_air_quality_index_value db station_id type_codename).

Definition update_station_sensors (station_id : Z) : M world unit :=
  let* stations := on_api (APIClient.fetch_station_sensors remote int_of_str station_id) in
  on_database
    (modify (DatabaseClient.update_station_sensors (unixepoch now) station_id stations)).

Definition fetch_station_sensors (station_id : Z) : M world (list SensorView) :=
  let* last_update_at :=
    query (λ db, DatabaseClient.fetch_last_station_sensors_update db station_id) in
  let elapsed := now - last_update_at in
  try_except
    (if bool_decide (UPDATE_INTERVAL_sensors ≤ elapsed)
     then update_station_sensors station_id else ret ())
    is_ConnectionError
    (logging_warning "Error while updating station sensors: %s") ;;;
  query (λ db, DatabaseClient.fetch_station_sensors db station_id).

Definition update_sensor_data (sensor_id : Z) (date_from date_to : datetime) : M world unit :=
  ghost_refresh sensor_id date_from date_to ;;;
  let from_delta := now - date_from in
  (if bool_decide (ARCHIVE_AGE ≤ from_delta)
   then
     let* data :=
       on_api (APIClient.fetch_sensor_archival_data remote int_of_str fromisoformat
                 sensor_id (Some date_from) (Some date_to) None) in
     on_database (DatabaseClient.update_sensor_data sensor_id data)
   else ret ()) ;;;
  let to_delta := now - date_to in
  if bool_decide (to_delta ≤ ARCHIVE_AGE)
  then
    let* data :=
      on_api (APIClient.fetch_sensor_data remote int_of_str fromisoformat sensor_id) in
    on_database (DatabaseClient.update_sensor_data sensor_id data)
  else ret ().

(** The two edge refreshes of [fetch_sensor_data], in the order and inside
    the one [try] block the source has them. *)
Definition refresh_edges (sensor_id : Z) (date_from date_to : datetime)
    (latest oldest : option datetime) : M world unit :=
  match latest, oldest with
  | Some latest, Some oldest =>
      (if bool_decide (replace_hour date_to ≠ replace_hour latest)
       then update_sensor_data sensor_id (Z.max date_from latest) date_to
       else ret ()) ;;;
      if bool_decide (date_from ≤ oldest - timedelta_hours 1)
      then update_sensor_data sensor_id date_from (Z.min date_to oldest)
      else ret ()
  | _, _ => update_sensor_data sensor_id date_from date_to
  end.

Definition fetch_sensor_data (sensor_id : Z) (date_from : datetime)
    (date_to : option datetime) : M world (list SensorValueView) :=
  let date_to := default now date_to in
  let* latest := query (λ db, DatabaseClient.fetch_latest_sensor_record_date db sensor_id) in
  let* oldest := query (λ db, DatabaseClient.fetch_oldest_sensor_record_date db sensor_id) in
  try_except
    (refresh_edges sensor_id date_from date_to latest oldest)
    is_ConnectionError
    (logging_warning "Error while updating sensor data: %s") ;;;
  query (λ db, DatabaseClient.fetch_sensor_data db sensor_id date_from date_to).

End Repository.

End Repository.

(** ** Concrete readers of texts

    The model takes Python's [int] on a text and [datetime.fromisoformat]
    as parameters, and SQLite's column affinity likewise.  The examples
    instantiate them with readers of the texts the service sends: decimal
    integers, and dates written [YYYY-MM-DD HH:MM[:SS]], counted from
    1970-01-01 00:00. *)

Module Instances.

Definition digit (c : ascii) : option Z :=
  let n := Z.of_nat (nat_of_ascii c) in
  if bool_decide (48 ≤ n ≤ 57) then Some (n - 48) else None.

Fixpoint digits (n : nat) (s : string) (acc : Z) : option (Z * string) :=
  match n, s with
  | O, _ => Some (acc, s)
  | S n', String c s' => d ← digit c; digits n' s' (acc * 10 + d)
  | S _, EmptyString => None
  end.

Fixpoint all_digits (s : string) (acc : Z) : option Z :=
  match s with
  | EmptyString => Some acc
  | String c s' => d ← digit c; all_digits s' (acc * 10 + d)
  end.

Definition decimal (s : string) : option Z :=
  match s with
  | EmptyString => None
  | String "-" (String c s') => Z.opp <$> all_digits (String c s') 0
  | String "+" (String c s') => all_digits (String c s') 0
  | _ => all_digits s 0
  end.

Definition expect (cs : list ascii) (s : string) : option string :=
  match s with
  | String c s' => if bool_decide (c ∈ cs) then Some s' else None
  | EmptyString => None
  end.

Definition days_from_civil (y m d : Z) : Z :=
  let y' := if bool_decide (m ≤ 2) then y - 1 else y in
  let era := y' `div` 400 in
  let yoe := y' - era * 400 in
  let doy := (153 * (if bool_decide (m ≤ 2) then m + 9 else m - 3) + 2) `div` 5 + d - 1 in
  let doe := yoe * 365 + yoe `div` 4 - yoe `div` 100 + doy in
  era * 146097 + doe - 719468.

Definition iso_datetime (s : string) : option datetime :=
  '(y, s) ← digits 4 s 0;
  s ← expect ["-"%char] s;
  '(m, s) ← digits 2 s 0;
  s ← expect ["-"%char] s;
  '(d, s) ← digits 2 s 0;
  s ← expect [" "%char; "T"%char] s;
  '(hh, s) ← digits 2 s 0;
  s ← expect [":"%char] s;
  '(mm, s) ← digits 2 s 0;
  '(ss, s) ← match s with
             | EmptyString => Some (0, s)
             | _ => s ← expect [":"%char] s; digits 2 s 0
             end;
  if bool_decide (s = "" ∧ 1 ≤ m ≤ 12 ∧ 1 ≤ d ≤ 31 ∧ hh < 24 ∧ mm < 60 ∧ ss < 60)
  then Some (timedelta_days (days_from_civil y m d) + timedelta_hours hh
             + timedelta_minutes mm + timedelta_seconds ss)
  else None.

(** The affinity of an [INTEGER] column on a text, for the texts that are
    decimal integers. *)
Definition integer_affinity (s : string) : DatabaseClient.key :=
  match decimal s with
  | Some n => inl n
  | None => inr s
  end.

End Instances.

(** * Vocabulary of the statements *)

(** ** Pagination *)

(** The request for page [k] of a paginated fetch: the caller's size on the
    first page, the default one after. *)
Definition page_request (endpoint : APIClient.endpoint) (size : Z)
    (args : list (string * APIClient.query_value)) (k : nat) : APIClient.request :=
  {| APIClient.rq_endpoint := endpoint; APIClient.rq_page := Z.of_nat k;
     APIClient.rq_size := match k with O => size | _ => 100 end;
     APIClient.rq_args := args |}.

Definition page_requests (endpoint : APIClient.endpoint) (size : Z)
    (args : list (string * APIClient.query_value)) (n : nat) : list APIClient.request :=
  map (page_request endpoint size args) (seq 0 n).

(** After the requests of [history], the remote answers the page requests
    of one fetch with success envelopes: page [k] holds [fragments !! k]
    under [target], and the first envelope reports as many pages as there
    are fragments (one page when it reports fewer than two). *)
Definition paginated (remote : list APIClient.request → APIClient.request → APIClient.response)
    (int_of_str : string → option Z) (endpoint : APIClient.endpoint) (target : string)
    (size : Z) (args : list (string * APIClient.query_value))
    (history : list APIClient.request) (fragments : list json) : Prop :=
  ∃ bodies total,
    Forall2 (λ body fragment, get_method body target JNull = inr fragment) bodies fragments ∧
    (∀ k body, bodies !! k = Some body →
       remote (history ++ page_requests endpoint size args k) (page_request endpoint size args k)
       = APIClient.HttpOk (Some body)) ∧
    APIClient.total_pages_of int_of_str <$> head bodies = Some (inr total) ∧
    length fragments = S (Z.to_nat (total - 1)).

(** The fragments of the later pages merged into [acc], in their order. *)
Fixpoint merge_all (acc : json) (fragments : list json) : result json :=
  match fragments with
  | [] => inr acc
  | f :: fs => let+ acc' := APIClient.merge_fragment acc f in merge_all acc' fs
  end.

(** What a paginated fetch makes of the fragments of its pages. *)
Definition collected (fragments : list json) : result json :=
  match fragments with
  | JList l :: fs => merge_all (JList l) fs
  | JDict d :: fs => merge_all (JDict d) fs
  | _ => inl TypeError
  end.

(** The merge of map-shaped pages as the specification words it: a key has
    the value of the last page that has it. *)
Fixpoint later_wins (key : string) (pages : list (gmap string json)) : option json :=
  match pages with
  | [] => None
  | p :: rest =>
      match later_wins key rest with
      | Some v => Some v
      | None => p !! key
      end
  end.

(** A fragment that is neither list-shaped nor map-shaped. *)
Definition other_shape (f : json) : Prop :=
  match f with JList _ | JDict _ => False | _ => True end.

(** ** Outcomes *)

Definition exception {A} (r : result A) : option exn :=
  match r with inl e => Some e | inr _ => None end.

Definition returned {A} (r : result A) : option A :=
  match r with inl _ => None | inr a => Some a end.

(** The [APIError] that [_get] makes of a structured error body. *)
Definition api_error_of (payload : gmap string json) : exn :=
  APIError (default JNull (payload !! "error_code"))
           (default JNull (payload !! "error_reason"))
           (default JNull (payload !! "error_result"))
           (default JNull (payload !! "error_solution")).

(** The request [rq], made after [history], decides the outcome when the
    remote answers it with a structured error. *)
Definition answered (remote : list APIClient.request → APIClient.request → APIClient.response)
    (history : list APIClient.request) (rq : APIClient.request) (e : option exn) : Prop :=
  ∀ payload, remote history rq = APIClient.HttpError (Some (JDict payload)) →
             e = Some (api_error_of payload).

(** ** Runs of statements over a table *)

Section Upserts.

(** A run of upserts into a keyed table, and the row a key was last
    written with. *)
Context `{Countable K} {V B : Type}.
Variables (key_of : B → K) (row_of : B → V).

Definition upserts (m : gmap K V) (l : list B) : gmap K V :=
  foldl (λ m b, <[key_of b := row_of b]> m) m l.

Definition last_written (k : K) (l : list B) : option V :=
  foldl (λ acc b, if decide (key_of b = k) then Some (row_of b) else acc) None l.

End Upserts.

(** The entries of a list of measurements before the first one without a
    value, and whether there is one without. *)
Fixpoint valued (data : list SensorData) : list (datetime * float) :=
  match data with
  | [] => []
  | entry :: data' =>
      match data_value entry with
      | Some v => (data_date entry, v) :: valued data'
      | None => []
      end
  end.

Definition all_valued (data : list SensorData) : result unit :=
  if forallb (λ entry, bool_decide (is_Some (data_value entry))) data
  then inr () else inl IntegrityError.

(** An index whose sensor type is in the catalog of the store. *)
Definition typed (db : DatabaseClient.store) (entry : string * Index) : bool :=
  bool_decide (is_Some (DatabaseClient.sensor_type db !! entry.1)).

(** Every index of the record is of a sensor type of the catalog, the
    overall one included. *)
Definition catalogued (db : DatabaseClient.store) (indexes : AirQualityIndexes) : Prop :=
  forallb (typed db)
    ((DatabaseClient.OVERALL_SENSOR_TYPE_CODENAME, overall indexes) :: sensors indexes) = true.

Definition aq_key (db : DatabaseClient.store) (station : Z) (entry : string * Index) : Z * Z :=
  (station, default 0 (DatabaseClient.sensor_type db !! entry.1)).

Definition aq_row (entry : string * Index) : DatabaseClient.aq_index_row :=
  {| DatabaseClient.aq_value := index_value entry.2;
     DatabaseClient.aq_record_date := index_date entry.2 |}.

(** [INSERT OR REPLACE INTO station] on the table alone. *)
Definition replace_row (m : gmap Z DatabaseClient.station_row)
    (e : Z * DatabaseClient.station_row) : gmap Z DatabaseClient.station_row :=
  <[e.1 := e.2]>
    (filter (λ kv, DatabaseClient.st_codename kv.2 ≠ DatabaseClient.st_codename e.2) m).

(** A row with key [k] is in conflict with none of [rows]. *)
Definition survives (rows : list (Z * DatabaseClient.station_row)) (k : Z)
    (x : DatabaseClient.station_row) : bool :=
  forallb (λ e, bool_decide (k ≠ e.1 ∧
                             DatabaseClient.st_codename x ≠ DatabaseClient.st_codename e.2))
          rows.

Definition kept (rows : list (Z * DatabaseClient.station_row)) (k : Z)
    (o : option DatabaseClient.station_row) : option DatabaseClient.station_row :=
  match o with
  | Some x => if survives rows k x then Some x else None
  | None => None
  end.

(** The row [INSERT OR REPLACE INTO station] writes for a station, when its
    city is there. *)
Definition station_entry (cities : gmap string DatabaseClient.city_row) (s : Station)
  : option (Z * DatabaseClient.station_row) :=
  c ← cities !! station_city s;
  Some (station_id s,
        {| DatabaseClient.st_codename := station_codename s;
           DatabaseClient.st_name := station_name s;
           DatabaseClient.st_city_id := DatabaseClient.city_id c;
           DatabaseClient.st_address := station_address s;
           DatabaseClient.st_latitude := station_latitude s;
           DatabaseClient.st_longitude := station_longitude s |}).

(** The stamp of the station list after the statement ran for [rows]. *)
Definition stamp_station_list (now : Z) (rows : list (Z * DatabaseClient.station_row))
    (g : gmap Z Z) : gmap Z Z :=
  match rows with [] => g | _ => alter (λ _, now) DatabaseClient.STATION_LIST g end.

(** ** The orchestrator *)

(** A computation that leaves the ghost record and the log as they are. *)
Definition keeps {A} (c : M Repository.world A) : Prop :=
  ∀ w, Repository.refreshes (c w).2 = Repository.refreshes w ∧
       Repository.warnings (c w).2 = Repository.warnings w.

(** The two conditions of [fetch_sensor_data]. *)
Definition recent_edge_due (date_to latest : datetime) : bool :=
  bool_decide (replace_hour date_to ≠ replace_hour latest).

Definition historical_edge_due (date_from oldest : datetime) : bool :=
  bool_decide (date_from ≤ oldest - timedelta_hours 1).


(** * Scenarios *)

Module Scenario.

(** An envelope of the service: the page count and the fragment under its key. *)
Definition envelope (total : Z) (target : string) (fragment : json) : json :=
  JDict (<["totalPages" := JInt total]> {[target := fragment]}).

(** ** A list endpoint of three pages, of 100, 100 and 37 records *)

Definition record (n : Z) : json := JDict {["Identyfikator stacji" := JInt n]}.

Definition three_pages : list (list json) :=
  [record <$> seqZ 0 100; record <$> seqZ 100 100; record <$> seqZ 200 37].

Definition three_page_remote (history : list APIClient.request) (rq : APIClient.request)
  : APIClient.response :=
  match three_pages !! Z.to_nat (APIClient.rq_page rq) with
  | Some records =>
      APIClient.HttpOk (Some (envelope 3 "Lista stacji pomiarowych" (JList records)))
  | None => APIClient.HttpError None
  end.

(** ** Structured errors of the service *)

Definition error_body (code : string) : json :=
  JDict (<["error_code" := JStr code]>
         (<["error_reason" := JStr "reason"]>
          (<["error_result" := JStr "result"]>
           {["error_solution" := JStr "solution"]}))).

Definition measurement (date : string) (value : json) : json :=
  JDict (<["Data" := JStr date]> {["Wartość" := value]}).

(** The archival endpoint answers its first page, of two, and then reports
    the rate limit. *)
Definition rate_limited_remote (history : list APIClient.request) (rq : APIClient.request)
  : APIClient.response :=
  if bool_decide (APIClient.rq_page rq = 0)
  then APIClient.HttpOk
         (Some (envelope 2 "Lista archiwalnych wyników pomiarów"
                  (JList [measurement "2024-05-01 08:00:00" (JInt 17)])))
  else APIClient.HttpError (Some (error_body APIClient.RATE_LIMIT_CODE)).

(** The service rejects every request with a structured error that is not
    the rate limit. *)
Definition rejecting_remote (history : list APIClient.request) (rq : APIClient.request)
  : APIClient.response :=
  APIClient.HttpError (Some (error_body "API-ERR-100001")).

(** ** A station of the store and its staleness *)

Definition pm10_sensor : Sensor :=
  {| sensor_id := 52; sensor_codename := "PM10"; sensor_name := "pył zawieszony PM10" |}.

Definition good_index : Index :=
  {| index_date := Some 1714550400000000; index_value := Some 1 |}.

Definition good_indexes : AirQualityIndexes :=
  {| overall := good_index;
     sensors := (λ pollutant, (pollutant, good_index)) <$> APIClient.POLLUTANTS;
     index_status := Some true; index_critical := None |}.

(** Station 5 of a new store, its sensors written at second 100 and its
    indexes at second 200. *)
Definition synced_store : DatabaseClient.store :=
  DatabaseClient.update_station_air_quality_indexes 200 5 good_indexes
    (DatabaseClient.update_station_sensors 100 5 [pm10_sensor]
       DatabaseClient._populate_tables).

(** The metadata of a closed station, of codename ["5"], and of an active one. *)
Definition closed_meta : StationMeta :=
  {| meta_codename := "5"; meta_international_codename := Some "PL0005A";
     meta_launch_date := 946684800000000; meta_close_date := Some 1577836800000000;
     meta_type := "tło" |}.

Definition active_meta : StationMeta :=
  {| meta_codename := "DsWrocWybCon"; meta_international_codename := Some "PL0194A";
     meta_launch_date := 946684800000000; meta_close_date := None;
     meta_type := "tło" |}.

(** ** A sensor with measurements at 10:00 and at 14:00 *)

(** An hour of 2024-05-01. *)
Definition may_1st (hour : Z) : datetime := timedelta_days 19844 + timedelta_hours hour.

Definition wroclaw : Station :=
  {| station_id := 5; station_codename := "DsWrocWybCon";
     station_name := "Wrocław, wyb. Conrada-Korzeniowskiego";
     station_district := "Wrocław"; station_voivodeship := "DOLNOŚLĄSKIE";
     station_city := "Wrocław"; station_address := None;
     station_latitude := QArith_base.Qmake 51129378 1000000;
     station_longitude := QArith_base.Qmake 17029250 1000000 |}.

Definition stored_points : list SensorData :=
  [{| data_date := may_1st 10; data_value := Some (QArith_base.inject_Z 21) |};
   {| data_date := may_1st 14; data_value := Some (QArith_base.inject_Z 25) |}].

Definition stocked_store : DatabaseClient.store :=
  (DatabaseClient.update_sensor_data 52 stored_points
     (DatabaseClient.update_station_sensors 100 5 [pm10_sensor]
        (DatabaseClient.update_stations 100 [wroclaw] DatabaseClient._populate_tables))).2.

Definition world_of (db : DatabaseClient.store) : Repository.world :=
  {| Repository._api_client := APIClient.new_api_client;
     Repository._database_client := db;
     Repository.warnings := []; Repository.refreshes := [] |}.

(** The transport is down. *)
Definition unreachable_remote (history : list APIClient.request) (rq : APIClient.request)
  : APIClient.response :=
  APIClient.Raises ConnectionError.

Definition query_date (name : string) (args : list (string * APIClient.query_value))
  : option datetime :=
  match List.find (λ kv, bool_decide (kv.1 = name)) args with
  | Some (_, APIClient.QueryMinute d) => Some d
  | _ => None
  end.

(** The service holds the sensor's measurements of 08:00, 09:00, 15:00 and
    16:00: the archival endpoint answers, in one page, with those from
    [dateFrom] on, two at most; the current-data endpoint with the last. *)
Definition archive_remote (history : list APIClient.request) (rq : APIClient.request)
  : APIClient.response :=
  match APIClient.rq_endpoint rq with
  | APIClient.ArchivalDataGetDataBySensor _ =>
      APIClient.HttpOk
        (Some (envelope 1 "Lista archiwalnych wyników pomiarów"
                 (JList
                    (if bool_decide (query_date "dateFrom" (APIClient.rq_args rq)
                                     = Some (may_1st 8))
                     then [measurement "2024-05-01 08:00:00" (JInt 17);
                           measurement "2024-05-01 09:00:00" (JInt 19)]
                     else [measurement "2024-05-01 15:00:00" (JInt 27);
                           measurement "2024-05-01 16:00:00" (JInt 30)]))))
  | APIClient.DataGetData _ =>
      APIClient.HttpOk
        (Some (envelope 1 "Lista danych pomiarowych"
                 (JList [measurement "2024-05-01 16:00:00" (JInt 30)])))
  | _ => APIClient.HttpError None
  end.

End Scenario.

(** * Vocabulary of the further properties *)

(** ** Identifiers of the store *)

(** The identifiers the rows of a table carry. *)
Definition identifiers `{Countable K} {V : Type} (id_of : V → Z) (m : gmap K V) : list Z :=
  (λ kv, id_of kv.2) <$> map_to_list m.

(** In [city] and in [sensor_type] no identifier is used twice and none is
    past the table's counter. *)
Definition well_formed (db : DatabaseClient.store) : Prop :=
  NoDup (identifiers DatabaseClient.city_id (DatabaseClient.city db)) ∧
  Forall (λ id, id ≤ DatabaseClient.city_sequence db)
         (identifiers DatabaseClient.city_id (DatabaseClient.city db)) ∧
  NoDup (identifiers (λ id, id) (DatabaseClient.sensor_type db)) ∧
  Forall (λ id, id ≤ DatabaseClient.sensor_type_sequence db)
         (identifiers (λ id, id) (DatabaseClient.sensor_type db)).

(** The row [INSERT OR REPLACE INTO station] writes for a station whose
    city has the row [c]. *)
Definition station_row_of (s : Station) (c : DatabaseClient.city_row)
  : DatabaseClient.station_row :=
  {| DatabaseClient.st_codename := station_codename s;
     DatabaseClient.st_name := station_name s;
     DatabaseClient.st_city_id := DatabaseClient.city_id c;
     DatabaseClient.st_address := station_address s;
     DatabaseClient.st_latitude := station_latitude s;
     DatabaseClient.st_longitude := station_longitude s |}.

(** ** The connection status *)

(** Each value of [news] differs from the one before it, [previous] being
    the one before the first. *)
Fixpoint alternates (previous : bool) (news : list bool) : bool :=
  match news with
  | [] => true
  | value :: news' => negb (eqb value previous) && alternates value news'
  end.

(** What a call made of the connection status and of its callback: the
    callback stays as it was; when one is installed it was called with
    [news], each a change of the status, and the status is the last of
    them; when none is installed nothing was notified. *)
Definition notifies_changes (st st' : APIClient.api_state) : Prop :=
  APIClient.connection_status_changed st' = APIClient.connection_status_changed st ∧
  ∃ news,
    APIClient.notified st' = APIClient.notified st ++ news ∧
    if APIClient.connection_status_changed st
    then alternates (APIClient._connection_status st) news = true ∧
         APIClient._connection_status st'
         = List.last news (APIClient._connection_status st)
    else news = [].

(** A computation whose every run relates, by [R], the client it starts
    from to the client it ends with; [proj] finds the client in the state. *)
Definition through {S A : Type} (R : APIClient.api_state → APIClient.api_state → Prop)
    (proj : S → APIClient.api_state) (c : M S A) : Prop :=
  ∀ s, R (proj s) (proj (c s).2).

(** ** Streamed pages *)

(** After the requests of [history], the remote answers the page requests
    of one streamed fetch with success envelopes: the first reports [total]
    pages, at least one, and page [k] holds [fragments !! k] under [target]. *)
Definition streamed (remote : list APIClient.request → APIClient.request → APIClient.response)
    (int_of_str : string → option Z) (endpoint : APIClient.endpoint) (target : string)
    (size : Z) (args : list (string * APIClient.query_value))
    (history : list APIClient.request) (fragments : list json) : Prop :=
  ∃ bodies total,
    Forall2 (λ body fragment, get_method body target JNull = inr fragment) bodies fragments ∧
    (∀ k body, bodies !! k = Some body →
       remote (history ++ page_requests endpoint size args k) (page_request endpoint size args k)
       = APIClient.HttpOk (Some body)) ∧
    APIClient.total_pages_of int_of_str <$> head bodies = Some (inr total) ∧
    0 < total ∧ length fragments = Z.to_nat total.

(** A measurement as the service sends it: the text of its date, the date
    the text reads as, and its value, which can be missing. *)
Record reading := {
  reading_text : string;
  reading_date : datetime;
  reading_value : option float
}.

Definition reading_entry (p : reading) : json :=
  JDict (<["Data" := JStr (reading_text p)]>
         {["Wartość" := match reading_value p with Some x => JFloat x | None => JNull end]}).

Definition reading_data (p : reading) : SensorData :=
  {| data_date := reading_date p; data_value := reading_value p |}.

(** * Further scenarios *)

Module Streams.

(** Two pages of measurements of 2024-05-01: 08:00 and 09:00, the second
    without a value, and 12:00. *)
Definition morning : list reading :=
  [{| reading_text := "2024-05-01 08:00:00"; reading_date := Scenario.may_1st 8;
      reading_value := Some (QArith_base.inject_Z 17) |};
   {| reading_text := "2024-05-01 09:00:00"; reading_date := Scenario.may_1st 9;
      reading_value := None |}].

Definition noon : list reading :=
  [{| reading_text := "2024-05-01 12:00:00"; reading_date := Scenario.may_1st 12;
      reading_value := Some (QArith_base.Qmake 43 2) |}].

Definition target_of (endpoint : APIClient.endpoint) : string :=
  match endpoint with
  | APIClient.ArchivalDataGetDataBySensor _ => "Lista archiwalnych wyników pomiarów"
  | _ => "Lista danych pomiarowych"
  end.

Definition page_body (endpoint : APIClient.endpoint) (page : list reading) : json :=
  Scenario.envelope 2 (target_of endpoint) (JList (reading_entry <$> page)).

(** The service answers both measurement endpoints with the two pages. *)
Definition two_page_remote (history : list APIClient.request) (rq : APIClient.request)
  : APIClient.response :=
  match [morning; noon] !! Z.to_nat (APIClient.rq_page rq) with
  | Some page => APIClient.HttpOk (Some (page_body (APIClient.rq_endpoint rq) page))
  | None => APIClient.HttpError None
  end.

End Streams.

(** ** Records as the service sends them *)

Definition optional_text (s : option string) : json :=
  match s with Some s => JStr s | None => JNull end.

Definition station_json (s : Station) : json :=
  JDict (<["Identyfikator stacji" := JInt (station_id s)]>
         (<["Kod stacji" := JStr (station_codename s)]>
          (<["Nazwa stacji" := JStr (station_name s)]>
           (<["Powiat" := JStr (station_district s)]>
            (<["Województwo" := JStr (station_voivodeship s)]>
             (<["Nazwa miasta" := JStr (station_city s)]>
              (<["Ulica" := optional_text (station_address s)]>
               (<["WGS84 φ N" := JFloat (station_latitude s)]>
                {["WGS84 λ E" := JFloat (station_longitude s)]})))))))).

Definition sensor_json (s : Sensor) : json :=
  JDict (<["Identyfikator stanowiska" := JInt (sensor_id s)]>
         (<["Wskaźnik - kod" := JStr (sensor_codename s)]>
          {["Wskaźnik" := JStr (sensor_name s)]})).

Module Service.

Definition krakow : Station :=
  {| station_id := 400; station_codename := "MpKrakAlKras";
     station_name := "Kraków, Aleja Krasińskiego";
     station_district := "Kraków"; station_voivodeship := "MAŁOPOLSKIE";
     station_city := "Kraków"; station_address := Some "al. Krasińskiego";
     station_latitude := QArith_base.Qmake 50057678 1000000;
     station_longitude := QArith_base.Qmake 19926189 1000000 |}.

Definition no2_sensor : Sensor :=
  {| sensor_id := 50; sensor_codename := "NO2"; sensor_name := "dwutlenek azotu" |}.

Definition station_pages : list (list Station) := [[Scenario.wroclaw]; [krakow]].

Definition sensor_pages : list (list Sensor) := [[Scenario.pm10_sensor; no2_sensor]].

(** The index of a station: an overall value with its date, and a value
    for PM10 alone. *)
Definition aq_index_body : json :=
  JDict {["AqIndex" :=
            JDict (<["Wartość indeksu" := JInt 1]>
                   (<["Data wykonania obliczeń indeksu" := JStr "2024-05-01 12:00:00"]>
                    {["Wartość indeksu dla wskaźnika PM10" := JInt 2]}))]}.

(** A service that answers every endpoint but the metadata one: the
    stations in two pages, the sensors of any station and its index in one,
    the measurements as [Streams.two_page_remote] does. *)
Definition remote (history : list APIClient.request) (rq : APIClient.request)
  : APIClient.response :=
  match APIClient.rq_endpoint rq with
  | APIClient.StationFindAll =>
      match station_pages !! Z.to_nat (APIClient.rq_page rq) with
      | Some page =>
          APIClient.HttpOk
            (Some (Scenario.envelope 2 "Lista stacji pomiarowych"
                     (JList (station_json <$> page))))
      | None => APIClient.HttpError None
      end
  | APIClient.StationSensors _ =>
      match sensor_pages !! Z.to_nat (APIClient.rq_page rq) with
      | Some page =>
          APIClient.HttpOk
            (Some (Scenario.envelope 1 "Lista stanowisk pomiarowych dla podanej stacji"
                     (JList (sensor_json <$> page))))
      | None => APIClient.HttpError None
      end
  | APIClient.AqIndexGetIndex _ => APIClient.HttpOk (Some aq_index_body)
  | APIClient.MetadataStations => APIClient.HttpError None
  | _ => Streams.two_page_remote history rq
  end.

End Service.

(** * Vocabulary of the orchestrator's further properties *)

(** What a failed refresh leaves of a read, [out] being the read's outcome
    and the world after it: when the refresh raised a connectivity error
    the error is logged and [answer], taken from the store as it was, is
    the outcome; any other exception is raised to the caller with nothing
    logged.  The store is as it was either way, and the connection status
    is off after a connectivity error and as it was after another. *)
Definition served_from_store {A : Type} (w : Repository.world) (message : string) (e : exn)
    (answer : result A) (out : result A * Repository.world) : Prop :=
  out.1 = (if is_ConnectionError e then answer else inl e) ∧
  Repository._database_client out.2 = Repository._database_client w ∧
  Repository.warnings out.2
  = Repository.warnings w ++ (if is_ConnectionError e then [(message, e)] else []) ∧
  APIClient._connection_status (Repository._api_client out.2)
  = (if is_ConnectionError e then false
     else APIClient._connection_status (Repository._api_client w)).

(** ** Station metadata as the service sends it *)

(** The fields of a record of metadata, its dates written by [isoformat];
    a station that is not closed has a null close date. *)
Definition station_meta_fields (isoformat : datetime → string) (m : StationMeta)
  : gmap string json :=
  <["Kod stacji" := JStr (meta_codename m)]>
    (<["Kod międzynarodowy" := optional_text (meta_international_codename m)]>
     (<["Data uruchomienia" := JStr (isoformat (meta_launch_date m))]>
      (<["Data zamknięcia" := match meta_close_date m with
                              | Some d => JStr (isoformat d)
                              | None => JNull
                              end]>
       {["Rodzaj stacji" := JStr (meta_type m)]}))).

(** The dates of the record are written as texts that are not empty and
    that [fromisoformat] reads back. *)
Definition dates_read_back (isoformat : datetime → string)
    (fromisoformat : string → option datetime) (m : StationMeta) : Prop :=
  fromisoformat (isoformat (meta_launch_date m)) = Some (meta_launch_date m) ∧
  ∀ d, meta_close_date m = Some d → fromisoformat (isoformat d) = Some d ∧ isoformat d ≠ "".

Module Metadata.

(** The two dates of the example records, as the service writes them. *)
Definition isoformat (d : datetime) : string :=
  if bool_decide (d = 946684800000000) then "2000-01-01 00:00:00" else "2020-01-01 00:00:00".

(** The service answers the metadata endpoint with one page: a closed
    station and an active one. *)
Definition remote (history : list APIClient.request) (rq : APIClient.request)
  : APIClient.response :=
  match APIClient.rq_endpoint rq with
  | APIClient.MetadataStations =>
      APIClient.HttpOk
        (Some (Scenario.envelope 1 "Lista metadanych stacji pomiarowych"
                 (JList (JDict ∘ station_meta_fields isoformat
                           <$> [Scenario.closed_meta; Scenario.active_meta]))))
  | _ => APIClient.HttpError None
  end.

End Metadata.

(** ** The connection status and the outcome of a call *)

Definition is_APIError (e : exn) : bool :=
  match e with APIError _ _ _ _ => true | _ => false end.

(** What [requests.get] raises is an exception of the [requests] library:
    the connectivity error or another one. *)
Definition transport_errors
    (remote : list APIClient.request → APIClient.request → APIClient.response) : Prop :=
  ∀ history rq e, remote history rq = APIClient.Raises e →
                  e = ConnectionError ∨ ∃ name, e = RequestException name.

(** A result that, when it is an exception, is neither the connectivity
    error nor a structured error of the service. *)
Definition quiet {A : Type} (r : result A) : Prop :=
  match r with
  | inl e => is_ConnectionError e = false ∧ is_APIError e = false
  | inr _ => True
  end.

(** The status after a call agrees with how the call ended: on after a
    return and after a structured error of the service, off after a
    connectivity error. *)
Definition status_follows {A : Type} (r : result A) (st : APIClient.api_state) : Prop :=
  match r with
  | inr _ => APIClient._connection_status st = true
  | inl e =>
      (is_ConnectionError e = true → APIClient._connection_status st = false) ∧
      (is_APIError e = true → APIClient._connection_status st = true)
  end.

(** A computation after which the status follows the outcome, from any
    state ([turns_on]) or from the states where the status is on
    ([keeps_on]). *)
Definition turns_on {S A : Type} (proj : S → APIClient.api_state) (c : M S A) : Prop :=
  ∀ s, status_follows (c s).1 (proj (c s).2).

Definition keeps_on {S A : Type} (proj : S → APIClient.api_state) (c : M S A) : Prop :=
  ∀ s, APIClient._connection_status (proj s) = true → status_follows (c s).1 (proj (c s).2).

(** * Properties of the remote API client *)

Section Monad.

Context {S A B : Type}.

Lemma bind_ok (c : M S A) (k : A → M S B) s a s' :
  c s = (inr a, s') → bind c k s = k a s'.
Proof. intros H. unfold bind. rewrite H. reflexivity. Qed.

Lemma bind_raised (c : M S A) (k : A → M S B) s e s' :
  c s = (inl e, s') → bind c k s = (inl e, s').
Proof. intros H. unfold bind. rewrite H. reflexivity. Qed.

End Monad.

Section Pagination.

Import APIClient.

Variable remote : list request → request → response.
Variable int_of_str : string → option Z.
Variables (endpoint : endpoint) (target : string) (size : Z).
Variable args : list (string * query_value).

#[local] Abbreviation page_request := (page_request endpoint size args).
#[local] Abbreviation page_requests := (page_requests endpoint size args).
#[local] Abbreviation paginated := (paginated remote int_of_str endpoint target size args).

Lemma requested_set_connection_status v st :
  requested (set_connection_status v st) = requested st.
Proof. unfold set_connection_status. case_bool_decide; reflexivity. Qed.

Lemma _get_ok st page sz body :
  remote (requested st)
    {| rq_endpoint := endpoint; rq_page := page; rq_size := sz; rq_args := args |}
    = HttpOk (Some body) →
  _get remote endpoint page sz args st =
    (inr body,
     set_connection_status true
       (log_request {| rq_endpoint := endpoint; rq_page := page; rq_size := sz;
                       rq_args := args |} st)).
Proof. intros H. unfold _get. rewrite H. reflexivity. Qed.

Lemma page_requests_S n : page_requests (S n) = page_requests n ++ [page_request n].
Proof. unfold page_requests. rewrite seq_S, map_app. reflexivity. Qed.

Lemma collect_pages_served count :
  ∀ page acc st history fragments bodies,
    requested st = history ++ page_requests (S page) →
    length fragments = count →
    Forall2 (λ body fragment, get_method body target JNull = inr fragment) bodies fragments →
    (∀ k body, bodies !! k = Some body →
       remote (history ++ page_requests (S page + k)) (page_request (S page + k))
       = HttpOk (Some body)) →
    ∃ st',
      collect_pages remote endpoint target args (Z.of_nat (S page)) count acc st
      = (merge_all acc fragments, st') ∧
      (raised (merge_all acc fragments) = false →
       requested st' = history ++ page_requests (S page + count)).
Proof.
  induction count as [|count IH]; intros page acc st history fragments bodies Hreq Hlen Hfrag Hserve.
  - destruct fragments; [|done]. exists st. split; [reflexivity|].
    intros _. rewrite Hreq. f_equal. f_equal. lia.
  - destruct fragments as [|f fs]; [done|].
    inversion Hfrag as [|body ? bodies' ? Hbody Hrest]; subst.
    pose proof (Hserve 0%nat body eq_refl) as H0.
    rewrite Nat.add_0_r, <- Hreq in H0.
    cbn [collect_pages merge_all].
    rewrite (bind_ok _ _ _ _ _ (_get_ok st (Z.of_nat (S page)) 100 body H0)).
    unfold bind at 1, lift_result at 1. rewrite Hbody.
    unfold bind at 1, lift_result at 1.
    destruct (merge_fragment acc f) as [e|acc'] eqn:Hm.
    + eexists. split; [reflexivity|done].
    + cbn [bind_result].
      replace (Z.of_nat (S page) + 1) with (Z.of_nat (S (S page))) by lia.
      destruct (IH (S page) acc'
        (set_connection_status true
           (log_request {| rq_endpoint := endpoint; rq_page := Z.of_nat (S page);
                           rq_size := 100; rq_args := args |} st))
        history fs bodies') as (st' & IH1 & IH2).
      * rewrite requested_set_connection_status. unfold log_request. cbn [requested]. rewrite Hreq.
        rewrite (page_requests_S (S page)), <- app_assoc. reflexivity.
      * simpl in Hlen. lia.
      * exact Hrest.
      * intros k b Hk. specialize (Hserve (S k) b Hk).
        replace (S (S page) + k)%nat with (S page + S k)%nat by lia. exact Hserve.
      * exists st'. split; [exact IH1|]. intros Hok. rewrite (IH2 Hok). f_equal. f_equal. lia.
Qed.

Lemma _get_logs st page sz :
  ∃ r st', _get remote endpoint page sz args st = (r, st') ∧
    requested st' = requested st ++
      [{| rq_endpoint := endpoint; rq_page := page; rq_size := sz; rq_args := args |}].
Proof.
  unfold _get.
  destruct (remote _ _) as [e|[payload|]|[body|]];
    try destruct (is_ConnectionError e);
    eexists _, _; (split; [reflexivity|]);
    rewrite ?requested_set_connection_status; reflexivity.
Qed.

Lemma collect_pages_extends count :
  ∀ page acc st, ∃ r st' later,
    collect_pages remote endpoint target args page count acc st = (r, st') ∧
    requested st' = requested st ++ later.
Proof.
  induction count as [|count IH]; intros page acc st.
  - exists (inr acc), st, []. split; [reflexivity|]. by rewrite app_nil_r.
  - cbn [collect_pages].
    destruct (_get_logs st page 100) as (r & st1 & Hget & Hreq).
    destruct r as [e|response].
    + rewrite (bind_raised _ _ _ _ _ Hget). by eexists _, _, _.
    + rewrite (bind_ok _ _ _ _ _ Hget).
      unfold bind at 1, lift_result at 1.
      destruct (get_method response target JNull) as [e|fragment].
      { by eexists _, _, _. }
      unfold bind at 1, lift_result at 1.
      destruct (merge_fragment acc fragment) as [e|acc'].
      { by eexists _, _, _. }
      destruct (IH (page + 1) acc' st1) as (r & st' & later & Hrun & Hlater).
      eexists r, st', (_ :: later). split; [exact Hrun|].
      rewrite Hlater, Hreq, <- app_assoc. reflexivity.
Qed.

Lemma _get_collected_first st :
  ∃ r st' later,
    _get_collected remote int_of_str endpoint target size args st = (r, st') ∧
    requested st' = requested st ++ page_request 0 :: later.
Proof.
  unfold _get_collected.
  destruct (_get_logs st 0 size) as (r & st1 & Hget & Hreq).
  destruct r as [e|response].
  - rewrite (bind_raised _ _ _ _ _ Hget). by exists (inl e), st1, [].
  - rewrite (bind_ok _ _ _ _ _ Hget).
    unfold bind at 1, lift_result at 1.
    destruct (total_pages_of _ _) as [e|total]; [by eexists _, _, []|].
    unfold bind at 1, lift_result at 1.
    destruct (get_method response target JNull) as [e|fragment]; [by eexists _, _, []|].
    assert (Hloop : ∀ acc, ∃ r st' later,
      collect_pages remote endpoint target args 1 (Z.to_nat (total - 1)) acc st1 = (r, st') ∧
      requested st' = requested st ++ page_request 0 :: later).
    { intros acc.
      destruct (collect_pages_extends (Z.to_nat (total - 1)) 1 acc st1)
        as (r & st' & later & Hrun & Hlater).
      exists r, st', later. split; [exact Hrun|].
      rewrite Hlater, Hreq, <- app_assoc. reflexivity. }
    destruct fragment; try (by eexists _, _, []); apply Hloop.
Qed.

Lemma _get_collected_served st fragments :
  paginated (requested st) fragments →
  ∃ st',
    _get_collected remote int_of_str endpoint target size args st
    = (collected fragments, st') ∧
    (raised (collected fragments) = false →
     requested st' = requested st ++ page_requests (length fragments)).
Proof.
  intros (bodies & total & Hfrag & Hserve & Htotal & Hlen).
  destruct fragments as [|f fs]; [done|].
  inversion Hfrag as [|body ? bodies' ? Hbody Hrest]; subst.
  pose proof (Hserve 0%nat body eq_refl) as H0. cbn in H0. rewrite app_nil_r in H0.
  cbn in Htotal. injection Htotal as Htotal.
  unfold _get_collected.
  rewrite (bind_ok _ _ _ _ _ (_get_ok st 0 size body H0)).
  unfold bind at 1, lift_result at 1. rewrite Htotal.
  unfold bind at 1, lift_result at 1. rewrite Hbody.
  simpl in Hlen. injection Hlen as Hlen.
  assert (Hstep : ∀ acc, ∃ st',
    collect_pages remote endpoint target args 1 (Z.to_nat (total - 1)) acc
      (set_connection_status true
         (log_request {| rq_endpoint := endpoint; rq_page := 0; rq_size := size;
                         rq_args := args |} st))
    = (merge_all acc fs, st') ∧
    (raised (merge_all acc fs) = false →
     requested st' = requested st ++ page_requests (S (length fs)))).
  { intros acc.
    destruct (collect_pages_served (Z.to_nat (total - 1)) 0%nat acc
                (set_connection_status true
                   (log_request {| rq_endpoint := endpoint; rq_page := 0; rq_size := size;
                                   rq_args := args |} st))
                (requested st) fs bodies') as (st' & H1 & H2).
    - rewrite requested_set_connection_status. reflexivity.
    - lia.
    - exact Hrest.
    - intros k b Hk. exact (Hserve (S k) b Hk).
    - exists st'. split; [exact H1|]. intros Hok. rewrite (H2 Hok). f_equal. f_equal. lia. }
  destruct f; cbn [collected]; try (eexists; split; [reflexivity|done]); apply Hstep.
Qed.

Lemma merge_all_lists lists : ∀ acc,
  merge_all (JList acc) (map JList lists) = inr (JList (acc ++ concat lists)).
Proof.
  induction lists as [|l lists IH]; intros acc; cbn.
  - by rewrite app_nil_r.
  - rewrite IH, <- app_assoc. reflexivity.
Qed.

Lemma merge_all_dicts dicts : ∀ acc,
  merge_all (JDict acc) (map JDict dicts) = inr (JDict (foldl dict_update acc dicts)).
Proof.
  induction dicts as [|d dicts IH]; intros acc; cbn; [reflexivity|]. apply IH.
Qed.

Lemma lookup_foldl_dict_update key dicts : ∀ acc,
  foldl dict_update acc dicts !! key
  = match later_wins key dicts with Some v => Some v | None => acc !! key end.
Proof.
  induction dicts as [|d dicts IH]; intros acc; cbn; [reflexivity|].
  rewrite IH. destruct (later_wins key dicts); [reflexivity|].
  unfold dict_update. rewrite lookup_union.
  destruct (d !! key), (acc !! key); reflexivity.
Qed.

Lemma merge_all_other acc fs1 f fs2 acc' :
  merge_all acc fs1 = inr acc' → other_shape f →
  merge_all acc (fs1 ++ f :: fs2) = inl TypeError.
Proof.
  revert acc. induction fs1 as [|g fs1 IH]; intros acc Hm Hf; cbn in *.
  - destruct f; done.
  - destruct (merge_fragment acc g); [done|]. cbn in *. by apply IH.
Qed.

(** C7.  Every paginated fetch asks for page 0 first and learns the page
    count from its envelope.  When the remote serves the pages: list-shaped
    fragments come back concatenated in ascending page order, after exactly
    one request per page; map-shaped fragments come back merged, a key
    having the value of the last page that has it; and a fragment of any
    other shape, after fragments of one shape, makes the fetch raise
    [TypeError], the fatal error of an unexpected payload. *)
Theorem pagination_merge (st : api_state) (fragments : list json) :
  paginated (requested st) fragments →
  ∃ r st' later,
    _get_collected remote int_of_str endpoint target size args st = (r, st') ∧
    requested st' = requested st ++ page_request 0 :: later ∧
    (∀ lists, fragments = JList <$> lists →
       r = inr (JList (concat lists)) ∧
       requested st' = requested st ++ page_requests (length lists)) ∧
    (∀ dicts, fragments = JDict <$> dicts →
       ∃ merged, r = inr (JDict merged) ∧
                 ∀ key, merged !! key = later_wins key dicts) ∧
    (∀ lists dicts f rest,
       fragments = (JList <$> lists) ++ f :: rest ∨
       fragments = (JDict <$> dicts) ++ f :: rest →
       other_shape f → r = inl TypeError).
Proof.
  intros Hpages.
  destruct (_get_collected_first st) as (r & st' & later & Hrun & Hfirst).
  destruct (_get_collected_served st fragments Hpages) as (st'' & Hserved & Hreqs).
  rewrite Hrun in Hserved. injection Hserved as Hr Hst. subst st''.
  exists r, st', later. split; [exact Hrun|]. split; [exact Hfirst|].
  split; [|split].
  - intros lists ->. destruct lists as [|l lists]; [by destruct Hpages as (? & ? & ? & ? & ? & ?)|].
    cbn [fmap list_fmap collected] in *. rewrite merge_all_lists in Hr, Hreqs.
    split; [exact Hr|]. rewrite Hreqs by reflexivity.
    cbn [length]. by rewrite length_fmap.
  - intros dicts ->. destruct dicts as [|d dicts]; [by destruct Hpages as (? & ? & ? & ? & ? & ?)|].
    cbn [fmap list_fmap collected] in *. rewrite merge_all_dicts in Hr.
    eexists. split; [exact Hr|]. intros key.
    rewrite lookup_foldl_dict_update. cbn [later_wins].
    destruct (later_wins key dicts); reflexivity.
  - intros lists dicts f rest Hshape Hf. rewrite Hr.
    destruct Hshape as [-> | ->].
    + destruct lists as [|l lists]; cbn [fmap list_fmap app collected].
      * by destruct f.
      * eapply merge_all_other; [apply merge_all_lists|exact Hf].
    + destruct dicts as [|d dicts]; cbn [fmap list_fmap app collected].
      * by destruct f.
      * eapply merge_all_other; [apply merge_all_dicts|exact Hf].
Qed.

End Pagination.

(** The endpoint of three pages of sizes 100, 100 and 37 is served as
    [paginated] asks, and [fetch_stations]'s fetch of it returns the 237
    records in page order. *)
Lemma pagination_merge_witness :
  paginated Scenario.three_page_remote Instances.decimal APIClient.StationFindAll
    "Lista stacji pomiarowych" 100 [] [] (JList <$> Scenario.three_pages) ∧
  length (concat Scenario.three_pages) = 237%nat ∧
  (APIClient._get_collected Scenario.three_page_remote Instances.decimal
     APIClient.StationFindAll "Lista stacji pomiarowych" 100 []
     APIClient.new_api_client).1
  = inr (JList (concat Scenario.three_pages)).
Proof.
  assert (Hpages :
    paginated Scenario.three_page_remote Instances.decimal APIClient.StationFindAll
      "Lista stacji pomiarowych" 100 [] [] (JList <$> Scenario.three_pages)).
  { exists ((λ l, Scenario.envelope 3 "Lista stacji pomiarowych" (JList l))
              <$> Scenario.three_pages), 3.
    split; [|split; [|split]].
    - repeat constructor.
    - intros k body Hk.
      destruct k as [|[|[|k]]]; cbn in Hk; [| | |done];
        injection Hk as <-; reflexivity.
    - reflexivity.
    - reflexivity. }
  split; [exact Hpages|]. split; [reflexivity|].
  destruct (pagination_merge Scenario.three_page_remote Instances.decimal
              APIClient.StationFindAll "Lista stacji pomiarowych" 100 []
              APIClient.new_api_client _ Hpages)
    as (r & st' & later & Hrun & _ & Hlists & _).
  rewrite Hrun. exact (proj1 (Hlists Scenario.three_pages eq_refl)).
Defined.

(** ** The streamed fetches and the rate limit *)

Section Streamed.

Import APIClient.

Variable remote : list request → request → response.
Variable int_of_str : string → option Z.
Variable fromisoformat : string → option datetime.

#[local] Abbreviation answered := (answered remote).

Lemma _get_last endpoint page sz args st r st' :
  _get remote endpoint page sz args st = (r, st') →
  let rq := {| rq_endpoint := endpoint; rq_page := page; rq_size := sz; rq_args := args |} in
  requested st' = requested st ++ [rq] ∧
  answered (requested st) rq (exception r) ∧
  (∀ body, r = inr body → remote (requested st) rq = HttpOk (Some body)).
Proof.
  intros H rq. unfold _get in H. fold rq in H. unfold answered.
  destruct (remote (requested st) rq) as [e|[payload|]|[body|]] eqn:Hr.
  - assert (r = inl e ∧ requested st' = requested st ++ [rq]) as [-> ->].
    { destruct (is_ConnectionError e); injection H as <- <-;
        rewrite ?requested_set_connection_status; done. }
    done.
  - injection H as <- <-. rewrite requested_set_connection_status.
    split; [done|]. split.
    + intros p Hp. injection Hp as ->. reflexivity.
    + intros b Hb. destruct payload; discriminate Hb.
  - injection H as <- <-. rewrite requested_set_connection_status. done.
  - injection H as <- <-. rewrite requested_set_connection_status.
    split; [done|]. split; [done|]. intros b Hb. congruence.
  - injection H as <- <-. rewrite requested_set_connection_status. done.
Qed.

Lemma each_page_last {A} endpoint target (callback : json → M A unit) args count :
  ∀ page st acc h0 rq0 body0 r st' acc',
    requested st = h0 ++ [rq0] →
    remote h0 rq0 = HttpOk (Some body0) →
    each_page remote endpoint target callback args page count (st, acc) = (r, (st', acc')) →
    ∃ h rq more, requested st' = h ++ [rq] ∧ h ++ [rq] = requested st ++ more ∧
                 answered h rq (exception r).
Proof.
  induction count as [|count IH]; intros page st acc h0 rq0 body0 r st' acc' Hreq Hok Hrun.
  - injection Hrun as <- <- <-. exists h0, rq0, []. rewrite app_nil_r.
    split; [exact Hreq|]. split; [by rewrite Hreq|].
    intros p Hp. congruence.
  - cbn [each_page] in Hrun. unfold bind at 1, on_fst at 1 in Hrun. cbn [fst snd] in Hrun.
    destruct (_get remote endpoint page 100 args st) as [r1 st1] eqn:Hget.
    destruct (_get_last _ _ _ _ _ _ _ Hget) as (Hreq1 & Hans & Hbody).
    destruct r1 as [e|response].
    + injection Hrun as <- <- <-.
      eexists _, _, [_]. split; [exact Hreq1|]. split; [reflexivity|exact Hans].
    + specialize (Hbody response eq_refl).
      assert (Hstop : ∀ e : exn,
        ∃ h rq more, requested st1 = h ++ [rq] ∧ h ++ [rq] = requested st ++ more ∧
                     answered h rq (Some e)).
      { intros e. eexists _, _, [_]. split; [exact Hreq1|]. split; [reflexivity|].
        intros p Hp. congruence. }
      unfold bind at 1, lift_result at 1 in Hrun.
      destruct (get_method response target JNull) as [e|fragment].
      { injection Hrun as <- <- <-. apply Hstop. }
      unfold bind at 1, on_snd at 1 in Hrun. cbn [fst snd] in Hrun.
      destruct (callback fragment acc) as [[e|[]] acc1].
      { injection Hrun as <- <- <-. apply Hstop. }
      destruct (IH _ _ _ _ _ _ _ _ _ Hreq1 Hbody Hrun) as (h & rq & more & H1 & H2 & H3).
      eexists h, rq, (_ :: more). split; [exact H1|]. split; [|exact H3].
      rewrite H2, Hreq1, <- app_assoc. reflexivity.
Qed.

Lemma _get_each_last {A} endpoint target (callback : json → M A unit) sz args st acc r st' acc' :
  _get_each remote int_of_str endpoint target callback sz args (st, acc) = (r, (st', acc')) →
  ∃ earlier rq, requested st' = requested st ++ earlier ++ [rq] ∧
                answered (requested st ++ earlier) rq (exception r).
Proof.
  intros Hrun. unfold _get_each in Hrun.
  unfold bind at 1, on_fst at 1 in Hrun. cbn [fst snd] in Hrun.
  destruct (_get remote endpoint 0 sz args st) as [r1 st1] eqn:Hget.
  destruct (_get_last _ _ _ _ _ _ _ Hget) as (Hreq1 & Hans & Hbody).
  destruct r1 as [e|response].
  - injection Hrun as <- <- <-. eexists [], _. rewrite app_nil_r.
    split; [exact Hreq1|exact Hans].
  - specialize (Hbody response eq_refl).
    assert (Hstop : ∀ r0 : result unit, (∀ p, r0 ≠ inl (api_error_of p)) ∨ True →
      ∃ earlier rq, requested st1 = requested st ++ earlier ++ [rq] ∧
                    (∀ payload, remote (requested st ++ earlier) rq
                                = HttpError (Some (JDict payload)) → False)).
    { intros _ _. eexists [], _. rewrite app_nil_r. split; [exact Hreq1|].
      intros p Hp. congruence. }
    assert (Hstop' : ∀ r0 : result unit,
      ∃ earlier rq, requested st1 = requested st ++ earlier ++ [rq] ∧
                    answered (requested st ++ earlier) rq (exception r0)).
    { intros r0. destruct (Hstop r0 (or_intror I)) as (earlier & rq & H1 & H2).
      exists earlier, rq. split; [exact H1|]. intros p Hp. destruct (H2 p Hp). }
    unfold bind at 1, lift_result at 1 in Hrun.
    destruct (total_pages_of int_of_str response) as [e|total].
    { injection Hrun as <- <- <-. apply Hstop'. }
    destruct (Z.to_nat total) as [|n].
    { injection Hrun as <- <- <-. apply Hstop'. }
    unfold bind at 1, lift_result at 1 in Hrun.
    destruct (get_method response target JNull) as [e|fragment].
    { injection Hrun as <- <- <-. apply Hstop'. }
    unfold bind at 1, on_snd at 1 in Hrun. cbn [fst snd] in Hrun.
    destruct (callback fragment acc) as [[e|[]] acc1].
    { injection Hrun as <- <- <-. apply Hstop'. }
    destruct (each_page_last _ _ _ _ _ _ _ _ _ _ _ _ _ _ Hreq1 Hbody Hrun)
      as (h & rq & more & H1 & H2 & H3).
    rewrite Hreq1, <- app_assoc in H2.
    destruct more as [|m more _] using rev_ind.
    + rewrite app_nil_r in H2. apply app_inj_tail in H2 as [-> ->].
      eexists [], _. rewrite app_nil_r. split; [by rewrite H1|exact H3].
    + rewrite !app_assoc in H2. apply app_inj_tail in H2 as [-> ->].
      eexists (_ :: more), _. split; [|].
      * rewrite H1. by rewrite <- !app_assoc.
      * rewrite <- app_assoc in H3. exact H3.
Qed.


(** The last request of an archival fetch, and what was answered to it,
    decide how the fetch ends. *)
Lemma fetch_sensor_archival_data_last sensor date_from date_to days st r st' :
  fetch_sensor_archival_data remote int_of_str fromisoformat sensor date_from date_to days st
  = (r, st') →
  ∃ (r0 : result unit) (kept : list SensorData) earlier rq,
    requested st' = requested st ++ earlier ++ [rq] ∧
    answered (requested st ++ earlier) rq (exception r0) ∧
    r = match r0 with
        | inr _ => inr kept
        | inl (APIError code _ _ _) =>
            if is_rate_limit_code code
            then inl (TooManyRequests RATE_LIMIT_MESSAGE) else inr kept
        | inl e => inl e
        end.
Proof.
  unfold fetch_sensor_archival_data. intros H.
  destruct (_get_each _ _ _ _ _ _ _ _) as [r0 [st0 kept]] eqn:Hrun.
  destruct (_get_each_last _ _ _ _ _ _ _ _ _ _ Hrun) as (earlier & rq & Hreq & Hans).
  exists r0, kept, earlier, rq.
  assert (st0 = st') as ->.
  { destruct r0 as [[]|[]]; try (by injection H);
      destruct (is_rate_limit_code code); by injection H. }
  split; [exact Hreq|]. split; [exact Hans|].
  destruct r0 as [[]|[]]; try (by injection H);
    destruct (is_rate_limit_code code); by injection H.
Qed.

(** C3.  Whenever the remote answers a request of the archival fetch with
    a structured error that carries the rate-limit code, the fetch raises
    [TooManyRequests], not the [APIError] made of the body. *)
Theorem rate_limit_signalled sensor date_from date_to days st r st' earlier rq payload :
  fetch_sensor_archival_data remote int_of_str fromisoformat sensor date_from date_to days st
  = (r, st') →
  requested st' = requested st ++ earlier ++ [rq] →
  remote (requested st ++ earlier) rq = HttpError (Some (JDict payload)) →
  payload !! "error_code" = Some (JStr RATE_LIMIT_CODE) →
  r = inl (TooManyRequests RATE_LIMIT_MESSAGE).
Proof.
  intros Hrun Hreq Hremote Hcode.
  destruct (fetch_sensor_archival_data_last _ _ _ _ _ _ _ Hrun)
    as (r0 & kept & earlier' & rq' & Hreq' & Hans & ->).
  rewrite Hreq in Hreq'. apply app_inv_head in Hreq'.
  apply app_inj_tail in Hreq' as [<- <-].
  specialize (Hans payload Hremote).
  destruct r0 as [e|[]]; [|discriminate Hans].
  injection Hans as ->. unfold api_error_of. rewrite Hcode. reflexivity.
Qed.

(** The same answer with any other code ends the fetch without an
    exception: it returns what the earlier pages gave. *)
Lemma remote_error_swallowed sensor date_from date_to days st r st' earlier rq payload :
  fetch_sensor_archival_data remote int_of_str fromisoformat sensor date_from date_to days st
  = (r, st') →
  requested st' = requested st ++ earlier ++ [rq] →
  remote (requested st ++ earlier) rq = HttpError (Some (JDict payload)) →
  is_rate_limit_code (default JNull (payload !! "error_code")) = false →
  raised r = false.
Proof.
  intros Hrun Hreq Hremote Hcode.
  destruct (fetch_sensor_archival_data_last _ _ _ _ _ _ _ Hrun)
    as (r0 & kept & earlier' & rq' & Hreq' & Hans & ->).
  rewrite Hreq in Hreq'. apply app_inv_head in Hreq'.
  apply app_inj_tail in Hreq' as [<- <-].
  specialize (Hans payload Hremote).
  destruct r0 as [e|[]]; [|discriminate Hans].
  injection Hans as ->. unfold api_error_of. rewrite Hcode. reflexivity.
Qed.

End Streamed.

(** The rate limit reported on the second page of an archival fetch. *)
Lemma rate_limit_signalled_witness :
  ∃ st',
    APIClient.fetch_sensor_archival_data Scenario.rate_limited_remote Instances.decimal
      Instances.iso_datetime 52 (Some 1714550400000000) (Some 1714557600000000) None
      APIClient.new_api_client
    = (inl (TooManyRequests APIClient.RATE_LIMIT_MESSAGE), st') ∧
    length (APIClient.requested st') = 2%nat.
Proof.
  destruct (APIClient.fetch_sensor_archival_data Scenario.rate_limited_remote
              Instances.decimal Instances.iso_datetime 52 (Some 1714550400000000)
              (Some 1714557600000000) None APIClient.new_api_client)
    as [r st'] eqn:Hrun.
  exists st'.
  assert (Hreq : APIClient.requested st' =
    APIClient.requested APIClient.new_api_client ++
      [page_request (APIClient.ArchivalDataGetDataBySensor 52) 500
         (APIClient.archival_params (Some 1714550400000000) (Some 1714557600000000) None)
         0] ++
      [page_request (APIClient.ArchivalDataGetDataBySensor 52) 500
         (APIClient.archival_params (Some 1714550400000000) (Some 1714557600000000) None)
         1]).
  { vm_compute in Hrun. injection Hrun as _ <-. reflexivity. }
  rewrite (rate_limit_signalled Scenario.rate_limited_remote Instances.decimal
             Instances.iso_datetime 52 _ _ _ _ r st' _ _
             (<["error_code" := JStr APIClient.RATE_LIMIT_CODE]>
              (<["error_reason" := JStr "reason"]>
               (<["error_result" := JStr "result"]>
                {["error_solution" := JStr "solution"]})))
             Hrun Hreq eq_refl eq_refl).
  split; [reflexivity|]. rewrite Hreq. reflexivity.
Defined.

(** * Properties of the store *)

Section Folds.

Context {A B C : Type}.

Lemma foldl_preserves (proj : A → C) (f : A → B → A) :
  (∀ a b, proj (f a b) = proj a) → ∀ l a, proj (foldl f a l) = proj a.
Proof.
  intros Hf l. induction l as [|b l IH]; intros a; cbn; [reflexivity|].
  by rewrite IH, Hf.
Qed.

Lemma foldl_fixed (f : A → B → A) l a :
  (∀ b, b ∈ l → f a b = a) → foldl f a l = a.
Proof.
  induction l as [|b l IH]; intros Hf; cbn; [reflexivity|].
  rewrite Hf by (by left). apply IH. intros b' Hb'. apply Hf. by right.
Qed.

End Folds.

Section UpsertFacts.

Context `{Countable K} {V B : Type}.
Variables (key_of : B → K) (row_of : B → V).

Lemma last_written_snoc k l b :
  last_written key_of row_of k (l ++ [b])
  = if decide (key_of b = k) then Some (row_of b) else last_written key_of row_of k l.
Proof. unfold last_written. by rewrite foldl_app. Qed.

Lemma upserts_lookup l : ∀ m k,
  upserts key_of row_of m l !! k
  = match last_written key_of row_of k l with Some v => Some v | None => m !! k end.
Proof.
  induction l as [|b l IH] using rev_ind; intros m k; [reflexivity|].
  unfold upserts. rewrite foldl_app. cbn. fold (upserts key_of row_of m l).
  rewrite last_written_snoc. destruct (decide (key_of b = k)) as [<-|Hne].
  - by rewrite lookup_insert_eq.
  - rewrite lookup_insert_ne by done. apply IH.
Qed.


Lemma upserts_snoc m l b :
  upserts key_of row_of m (l ++ [b]) = <[key_of b := row_of b]> (upserts key_of row_of m l).
Proof. unfold upserts. by rewrite foldl_app. Qed.

End UpsertFacts.

Section Store.

Import DatabaseClient.



(** ** Measurements *)

Lemma update_sensor_data_run sensor data : ∀ db,
  update_sensor_data sensor data db
  = (all_valued data,
     with_sensor_data
       (λ m, upserts (λ p, (sensor, p.1)) snd m (valued data)) db).
Proof.
  unfold update_sensor_data, all_valued.
  induction data as [|entry data IH]; intros db; cbn.
  - unfold ret. by destruct db.
  - unfold bind, upsert_sensor_data. destruct (data_value entry) as [v|]; cbn.
    + rewrite IH. destruct db; reflexivity.
    + unfold raise. by destruct db.
Qed.


(** ** Air-quality indexes *)

Lemma upsert_last_indexes_update_at_twice t1 t2 station m :
  upsert_last_indexes_update_at t2 station (upsert_last_indexes_update_at t1 station m)
  = upsert_last_indexes_update_at t2 station m.
Proof.
  unfold upsert_last_indexes_update_at.
  destruct (m !! inl station) as [r|]; rewrite lookup_insert_eq, insert_insert_eq;
    reflexivity.
Qed.

Lemma upsert_aq_index_fold now station entries : ∀ db,
  forallb (typed db) entries = true → entries ≠ [] →
  foldl (λ db entry, upsert_aq_index now station entry db) db entries
  = with_station_update (upsert_last_indexes_update_at now station)
      (with_aq_index (λ m, upserts (aq_key db station) aq_row m entries) db).
Proof.
  induction entries as [|entry entries IH] using rev_ind; intros db Htyped Hne; [done|].
  rewrite foldl_app. cbn [foldl].
  rewrite forallb_app in Htyped. apply andb_prop in Htyped as [Hes He].
  cbn in He. rewrite andb_true_r in He. unfold typed in He.
  apply bool_decide_eq_true in He as [type Htype].
  destruct entries as [|e0 es].
  - unfold upsert_aq_index. cbn [foldl]. rewrite Htype. unfold upserts, aq_key. cbn.
    rewrite Htype. destruct db; reflexivity.
  - rewrite (IH db Hes) by done. unfold upsert_aq_index.
    set (es' := e0 :: es).
    assert (Hst : sensor_type
      (with_station_update (upsert_last_indexes_update_at now station)
         (with_aq_index (λ m, upserts (aq_key db station) aq_row m es') db))
      = sensor_type db) by (by destruct db).
    rewrite Hst, Htype.
    unfold tgr_on_aq_index, with_station_update, with_aq_index. cbv beta.
    rewrite upserts_snoc.
    replace (aq_key db station entry) with (station, type)
      by (unfold aq_key; by rewrite Htype).
    destruct db; cbn. f_equal. apply upsert_last_indexes_update_at_twice.
Qed.


(** ** Sensors *)

Lemma insert_or_ignore_sensor_type_present codename db t :
  is_Some (sensor_type db !! t) ∨ t = codename →
  is_Some (sensor_type (insert_or_ignore_sensor_type codename db) !! t).
Proof.
  unfold insert_or_ignore_sensor_type.
  destruct (sensor_type db !! codename) as [id|] eqn:Hc; destruct db; cbn in *.
  - intros [Ht| ->]; [exact Ht|]. by rewrite Hc.
  - intros [Ht| ->]; [|by rewrite lookup_insert_eq].
    destruct (decide (codename = t)) as [->|Hne].
    + by rewrite lookup_insert_eq.
    + by rewrite lookup_insert_ne.
Qed.

Lemma update_sensor_types_present types : ∀ db t,
  is_Some (sensor_type db !! t) ∨ t ∈ types →
  is_Some (sensor_type (update_sensor_types types db) !! t).
Proof.
  unfold update_sensor_types.
  induction types as [|c types IH]; intros db t Ht; cbn.
  - destruct Ht as [Ht|Ht]; [exact Ht|]. by apply elem_of_nil in Ht.
  - apply IH. destruct Ht as [Ht|Ht].
    + left. apply insert_or_ignore_sensor_type_present. by left.
    + apply elem_of_cons in Ht as [->|Ht]; [|by right].
      left. apply insert_or_ignore_sensor_type_present. by right.
Qed.






(** ** Stations *)




Lemma alter_stamp_twice (t1 t2 : Z) (g : gmap Z Z) :
  alter (λ _, t2) STATION_LIST (alter (λ _, t1) STATION_LIST g)
  = alter (λ _, t2) STATION_LIST g.
Proof.
  apply map_eq. intros k. destruct (decide (STATION_LIST = k)) as [<-|Hne].
  - rewrite !lookup_alter_eq. by destruct (g !! STATION_LIST).
  - by rewrite !lookup_alter_ne.
Qed.


Lemma insert_or_replace_stations_run now stations : ∀ db,
  foldl (λ db s, insert_or_replace_station now s db) db stations
  = with_global_update (stamp_station_list now (omap (station_entry (city db)) stations))
      (with_station (λ m, foldl replace_row m (omap (station_entry (city db)) stations)) db).
Proof.
  induction stations as [|s stations IH]; intros db; [by destruct db|].
  cbn [foldl omap list_omap]. rewrite IH.
  assert (Hcity : city (insert_or_replace_station now s db) = city db).
  { unfold insert_or_replace_station. destruct (city db !! station_city s); by destruct db. }
  rewrite Hcity. clear Hcity IH.
  set (rows := omap (station_entry (city db)) stations). clearbody rows.
  unfold insert_or_replace_station, station_entry.
  destruct (city db !! station_city s) as [c|]; cbn [mbind option_bind]; [|reflexivity].
  destruct db; unfold tgr_on_insert_station, with_global_update, with_station.
  cbn. f_equal.
  destruct rows; cbn; [reflexivity|]. apply alter_stamp_twice.
Qed.

Lemma insert_or_ignore_city_present s db name :
  is_Some (city db !! name) ∨ name = station_city s →
  is_Some (city (insert_or_ignore_city s db) !! name).
Proof.
  unfold insert_or_ignore_city.
  destruct (city db !! station_city s) as [c|] eqn:Hc; destruct db; cbn in *.
  - intros [Hn| ->]; [exact Hn|]. by rewrite Hc.
  - intros [Hn| ->]; [|by rewrite lookup_insert_eq].
    destruct (decide (station_city s = name)) as [->|Hne].
    + by rewrite lookup_insert_eq.
    + by rewrite lookup_insert_ne.
Qed.

Lemma insert_cities_present stations : ∀ db name,
  is_Some (city db !! name) ∨ name ∈ station_city <$> stations →
  is_Some (city (foldl (λ db s, insert_or_ignore_city s db) db stations) !! name).
Proof.
  induction stations as [|s stations IH]; intros db name Hn; cbn.
  - destruct Hn as [Hn|Hn]; [exact Hn|]. by apply elem_of_nil in Hn.
  - apply IH. destruct Hn as [Hn|Hn].
    + left. apply insert_or_ignore_city_present. by left.
    + cbn in Hn. apply elem_of_cons in Hn as [->|Hn]; [|by right].
      left. apply insert_or_ignore_city_present. by right.
Qed.


Lemma insert_cities_frame stations db :
  let db' := foldl (λ db s, insert_or_ignore_city s db) db stations in
  global_update db' = global_update db ∧ station db' = station db ∧
  station_update db' = station_update db ∧ station_meta db' = station_meta db ∧
  aq_index_category_name db' = aq_index_category_name db ∧
  sensor_type db' = sensor_type db ∧ aq_index db' = aq_index db ∧
  aq_index_untyped db' = aq_index_untyped db ∧ sensor db' = sensor db ∧
  sensor_data db' = sensor_data db.
Proof.
  cbn zeta.
  repeat split; apply foldl_preserves; intros a b; unfold insert_or_ignore_city;
    destruct (city a !! station_city b); by destruct a.
Qed.



(** ** The upserts are idempotent *)


(** ** Staleness *)

Lemma upsert_last_sensors_update_at_keeps now station m r :
  m !! inl station = Some r →
  upsert_last_sensors_update_at now station m !! inl station
  = Some {| last_sensors_update_at := now;
            last_indexes_update_at := last_indexes_update_at r;
            last_meta_update_at := last_meta_update_at r |}.
Proof. intros Hr. unfold upsert_last_sensors_update_at. by rewrite Hr, lookup_insert_eq. Qed.

Lemma upsert_last_indexes_update_at_keeps now station m r :
  m !! inl station = Some r →
  upsert_last_indexes_update_at now station m !! inl station
  = Some {| last_sensors_update_at := last_sensors_update_at r;
            last_indexes_update_at := now;
            last_meta_update_at := last_meta_update_at r |}.
Proof. intros Hr. unfold upsert_last_indexes_update_at. by rewrite Hr, lookup_insert_eq. Qed.

(** The trigger of [station_meta] does not keep them. *)
Lemma replace_last_meta_update_at_resets now station m :
  replace_last_meta_update_at now station m !! station
  = Some {| last_sensors_update_at := 0; last_indexes_update_at := 0;
            last_meta_update_at := now |}.
Proof. unfold replace_last_meta_update_at. by rewrite lookup_insert_eq. Qed.

(** C6.  For a station without a staleness row, the lookups of the
    sensors' and of the indexes' last refresh return epoch zero; the lookup
    of the metadata's last refresh subscripts the missing row and raises
    [TypeError]. *)
Theorem never_synced_lookups db station :
  station_update db !! inl station = None →
  fetch_last_station_sensors_update db station = fromtimestamp 0 ∧
  fetch_last_station_air_quality_indexes_update db station = fromtimestamp 0 ∧
  fetch_last_station_meta_update db station = inl TypeError.
Proof.
  intros Hrow.
  unfold fetch_last_station_sensors_update, fetch_last_station_air_quality_indexes_update,
    fetch_last_station_meta_update.
  rewrite Hrow. done.
Qed.

(** ** Station metadata *)

Lemma map_result_close_date meta :
  (∃ m, m ∈ meta ∧ meta_close_date m = None) →
  map_result
    (λ m, match meta_close_date m with
          | Some d => inr (m, d)
          | None => inl AttributeError
          end) meta
  = inl AttributeError.
Proof.
  induction meta as [|m meta IH]; intros (m' & Hin & Hnone).
  - by apply elem_of_nil in Hin.
  - cbn. destruct (meta_close_date m) as [d|] eqn:Hd; [|reflexivity].
    cbn. rewrite IH; [reflexivity|].
    apply elem_of_cons in Hin as [->|Hin]; [congruence|]. by exists m'.
Qed.

(** C10.  When a record of the list has no close date, [update_station_meta]
    raises [AttributeError] while it builds the parameters and writes
    nothing, whatever the other records are. *)
Theorem update_station_meta_without_close_date (integer_affinity : string → key)
    now meta db :
  (∃ m, m ∈ meta ∧ meta_close_date m = None) →
  update_station_meta integer_affinity now meta db = (inl AttributeError, db).
Proof.
  intros Hnone. unfold update_station_meta, bind, lift_result.
  by rewrite (map_result_close_date meta Hnone).
Qed.

End Store.

(** A station of a new store has no staleness row. *)
Lemma never_synced_lookups_witness :
  DatabaseClient.fetch_last_station_sensors_update DatabaseClient._populate_tables 5
  = fromtimestamp 0 ∧
  DatabaseClient.fetch_last_station_air_quality_indexes_update
    DatabaseClient._populate_tables 5 = fromtimestamp 0 ∧
  DatabaseClient.fetch_last_station_meta_update DatabaseClient._populate_tables 5
  = inl TypeError.
Proof. apply (never_synced_lookups DatabaseClient._populate_tables 5). reflexivity. Defined.

(** The record of an active station after the record of a closed one: the
    call raises and the closed station's record is not written either. *)
Lemma update_station_meta_without_close_date_witness :
  DatabaseClient.update_station_meta Instances.integer_affinity 300
    [Scenario.closed_meta; Scenario.active_meta] Scenario.synced_store
  = (inl AttributeError, Scenario.synced_store).
Proof.
  apply (update_station_meta_without_close_date Instances.integer_affinity 300
           [Scenario.closed_meta; Scenario.active_meta] Scenario.synced_store).
  exists Scenario.active_meta. split; [|reflexivity]. right. left.
Defined.


(** C9, at the failing input.  Station 5 has its sensors stamped at second
    100 and its indexes at second 200.  Writing, at second 300, the metadata
    of the station whose codename is the text ["5"] (an [INTEGER] column
    stores that text as the integer 5) replaces the staleness row: both
    stamps are back to zero. *)
Lemma station_meta_write_resets_staleness :
  DatabaseClient.station_update Scenario.synced_store !! inl 5
  = Some {| DatabaseClient.last_sensors_update_at := 100;
            DatabaseClient.last_indexes_update_at := 200;
            DatabaseClient.last_meta_update_at := 0 |} ∧
  DatabaseClient.station_update
    (DatabaseClient.update_station_meta Instances.integer_affinity 300
       [Scenario.closed_meta] Scenario.synced_store).2 !! inl 5
  = Some {| DatabaseClient.last_sensors_update_at := 0;
            DatabaseClient.last_indexes_update_at := 0;
            DatabaseClient.last_meta_update_at := 300 |}.
Proof. split; vm_compute; reflexivity. Qed.

(** * Properties of the orchestrator *)

Section Worlds.

Import Repository.

Context {A : Type}.

Lemma on_api_run (c : M APIClient.api_state A) w r st :
  c (_api_client w) = (r, st) →
  on_api c w = (r, {| _api_client := st; _database_client := _database_client w;
                      warnings := warnings w; refreshes := refreshes w |}).
Proof. intros Hc. unfold on_api. by rewrite Hc. Qed.

Lemma on_database_run (c : M DatabaseClient.store A) w r db :
  c (_database_client w) = (r, db) →
  on_database c w = (r, {| _api_client := _api_client w; _database_client := db;
                           warnings := warnings w; refreshes := refreshes w |}).
Proof. intros Hc. unfold on_database. by rewrite Hc. Qed.

Lemma on_api_frame (c : M APIClient.api_state A) w :
  _database_client (on_api c w).2 = _database_client w ∧
  warnings (on_api c w).2 = warnings w ∧ refreshes (on_api c w).2 = refreshes w.
Proof. unfold on_api. by destruct (c (_api_client w)). Qed.

Lemma on_database_frame (c : M DatabaseClient.store A) w :
  _api_client (on_database c w).2 = _api_client w ∧
  warnings (on_database c w).2 = warnings w ∧ refreshes (on_database c w).2 = refreshes w.
Proof. unfold on_database. by destruct (c (_database_client w)). Qed.

End Worlds.

Section Unreachable.

Import APIClient.

Variable remote : list request → request → response.
Variable int_of_str : string → option Z.
Variable fromisoformat : string → option datetime.

(** The transport fails on every request. *)
Hypothesis unreachable : ∀ history rq, remote history rq = Raises ConnectionError.







Variable now : datetime.

Import Repository.






End Unreachable.

Section Frames.

Import Repository.

Context {A B : Type}.

Lemma keeps_on_api (c : M APIClient.api_state A) : keeps (on_api c).
Proof. intros w. unfold on_api. by destruct (c (_api_client w)). Qed.

Lemma keeps_on_database (c : M DatabaseClient.store A) : keeps (on_database c).
Proof. intros w. unfold on_database. by destruct (c (_database_client w)). Qed.

Lemma keeps_ret (a : A) : keeps (ret a).
Proof. by intros w. Qed.

Lemma keeps_query (q : DatabaseClient.store → A) : keeps (query q).
Proof. by intros w. Qed.

Lemma keeps_bind (c : M world A) (k : A → M world B) :
  keeps c → (∀ a, keeps (k a)) → keeps (bind c k).
Proof.
  intros Hc Hk w. unfold bind. specialize (Hc w).
  destruct (c w) as [[e|a] w1]; [exact Hc|].
  destruct (Hk a w1) as [H1 H2]. cbn in Hc. destruct Hc as [H3 H4].
  split; congruence.
Qed.

Lemma keeps_if (b : bool) (c1 c2 : M world A) : keeps c1 → keeps c2 → keeps (if b then c1 else c2).
Proof. by destruct b. Qed.

End Frames.

Section Edges.

Import Repository.

Variable remote : list APIClient.request → APIClient.request → APIClient.response.
Variable int_of_str : string → option Z.
Variable fromisoformat : string → option datetime.
Variable now : datetime.

#[local] Abbreviation update_sensor_data :=
  (update_sensor_data remote int_of_str fromisoformat now).
#[local] Abbreviation fetch_sensor_data :=
  (fetch_sensor_data remote int_of_str fromisoformat now).

Lemma update_sensor_data_refreshes sensor date_from date_to w :
  refreshes (update_sensor_data sensor date_from date_to w).2
  = refreshes w ++ [(sensor, date_from, date_to)].
Proof.
  unfold Repository.update_sensor_data.
  unfold bind at 1, ghost_refresh at 1, modify at 1.
  match goal with |- refreshes (?c ?w1).2 = _ => assert (Hk : keeps c) end.
  { apply keeps_bind.
    - apply keeps_if; [|apply keeps_ret].
      apply keeps_bind; [apply keeps_on_api|]. intros data. apply keeps_on_database.
    - intros _. apply keeps_if; [|apply keeps_ret].
      apply keeps_bind; [apply keeps_on_api|]. intros data. apply keeps_on_database. }
  rewrite (proj1 (Hk _)). reflexivity.
Qed.

Lemma try_except_refreshes (c : M world unit) message w :
  refreshes (try_except c is_ConnectionError (logging_warning message) w).2
  = refreshes (c w).2.
Proof.
  unfold try_except. destruct (c w) as [[e|[]] w1]; [|reflexivity].
  by destruct (is_ConnectionError e).
Qed.

Lemma fetch_sensor_data_refreshes sensor date_from date_to w :
  refreshes (fetch_sensor_data sensor date_from date_to w).2
  = refreshes
      (refresh_edges remote int_of_str fromisoformat now sensor date_from
         (default now date_to)
         (DatabaseClient.fetch_latest_sensor_record_date (_database_client w) sensor)
         (DatabaseClient.fetch_oldest_sensor_record_date (_database_client w) sensor) w).2.
Proof.
  unfold Repository.fetch_sensor_data. cbn zeta.
  unfold bind at 1, query at 1. unfold bind at 1, query at 1.
  unfold bind.
  rewrite <- (try_except_refreshes _ "Error while updating sensor data: %s").
  destruct (try_except _ _ _ w) as [[e|[]] w1]; reflexivity.
Qed.

(** C4, as the code has it.  With rows in the store, the recent-edge
    refresh over [max(dateFrom, latest), dateTo] is attempted exactly when
    [dateTo] and [latest] are not of the same hour, and the historical-edge
    refresh over [dateFrom, min(dateTo, oldest)] exactly when [dateFrom] is
    at least an hour older than [oldest] and the recent-edge refresh, if it
    was attempted, did not raise; both can be attempted in one call, in this
    order.  With no rows, one refresh over the whole of [dateFrom, dateTo]
    is attempted. *)
Theorem edge_refreshes sensor date_from date_to w :
  let to := default now date_to in
  let latest := DatabaseClient.fetch_latest_sensor_record_date (_database_client w) sensor in
  let oldest := DatabaseClient.fetch_oldest_sensor_record_date (_database_client w) sensor in
  let attempted := refreshes (fetch_sensor_data sensor date_from date_to w).2 in
  match latest, oldest with
  | Some latest, Some oldest =>
      let recent := (sensor, Z.max date_from latest, to) in
      let historical := (sensor, date_from, Z.min to oldest) in
      let first :=
        (if recent_edge_due to latest
         then update_sensor_data sensor (Z.max date_from latest) to else ret ()) w in
      attempted =
        refreshes w ++
        (if recent_edge_due to latest then [recent] else []) ++
        (if historical_edge_due date_from oldest && negb (raised first.1)
         then [historical] else [])
  | _, _ => attempted = refreshes w ++ [(sensor, date_from, to)]
  end.
Proof.
  cbn zeta. rewrite fetch_sensor_data_refreshes.
  set (to := default now date_to).
  destruct (DatabaseClient.fetch_latest_sensor_record_date _ _) as [latest|];
    [destruct (DatabaseClient.fetch_oldest_sensor_record_date _ _) as [oldest|]|];
    cbn [refresh_edges]; try apply update_sensor_data_refreshes.
  unfold recent_edge_due, historical_edge_due.
  assert (Hfirst :
    refreshes ((if bool_decide (replace_hour to ≠ replace_hour latest)
                then update_sensor_data sensor (Z.max date_from latest) to
                else ret ()) w).2
    = refreshes w ++ (if bool_decide (replace_hour to ≠ replace_hour latest)
                      then [(sensor, Z.max date_from latest, to)] else [])).
  { destruct (bool_decide _); [apply update_sensor_data_refreshes|]. by rewrite app_nil_r. }
  unfold bind.
  destruct ((if bool_decide (replace_hour to ≠ replace_hour latest)
             then update_sensor_data sensor (Z.max date_from latest) to
             else ret ()) w) as [[e|[]] w1]; cbn [fst snd raised negb] in *.
  - rewrite andb_false_r, app_nil_r. exact Hfirst.
  - rewrite andb_true_r.
    destruct (bool_decide (date_from ≤ oldest - timedelta_hours 1)).
    + rewrite update_sensor_data_refreshes, Hfirst, <- app_assoc. reflexivity.
    + cbn. rewrite Hfirst, app_nil_r. reflexivity.
Qed.

End Edges.

Section StoredDates.

Import DatabaseClient.

Lemma last_written_elem `{Countable K} {V B : Type} (key_of : B → K) (row_of : B → V) l b :
  b ∈ l → is_Some (last_written key_of row_of (key_of b) l).
Proof.
  induction l as [|b' l IH] using rev_ind; intros Hb; [by apply elem_of_nil in Hb|].
  rewrite last_written_snoc. destruct (decide (key_of b' = key_of b)); [done|].
  apply IH. apply elem_of_app in Hb as [Hb|Hb]; [exact Hb|].
  apply list_elem_of_singleton in Hb. congruence.
Qed.

Lemma valued_all data p :
  all_valued data = inr () → p ∈ data →
  ∃ v, (data_date p, v) ∈ valued data.
Proof.
  unfold all_valued. induction data as [|q data IH]; intros Hall Hp;
    [by apply elem_of_nil in Hp|].
  cbn in Hall |- *. destruct (data_value q) as [v|] eqn:Hq; cbn in Hall; [|done].
  apply elem_of_cons in Hp as [->|Hp].
  - exists v. left.
  - destruct (IH Hall Hp) as [v' Hv']. exists v'. by right.
Qed.

(** After a write of measurements that all have a value, the store has a
    row at the date of each, and the rows it had. *)
Lemma update_sensor_data_stored sensor data db :
  all_valued data = inr () →
  (∀ p, p ∈ data →
     is_Some (sensor_data (update_sensor_data sensor data db).2 !! (sensor, data_date p))) ∧
  (∀ k, is_Some (sensor_data db !! k) →
     is_Some (sensor_data (update_sensor_data sensor data db).2 !! k)).
Proof.
  intros Hall. rewrite update_sensor_data_run. cbn [snd].
  assert (Hsd : ∀ f, sensor_data (with_sensor_data f db) = f (sensor_data db))
    by (intros f; by destruct db).
  rewrite Hsd. split.
  - intros p Hp. destruct (valued_all data p Hall Hp) as [v Hv].
    rewrite upserts_lookup.
    destruct (last_written_elem (λ p : datetime * float, (sensor, p.1)) snd _ _ Hv)
      as [v' Hv'].
    cbn in Hv'. by rewrite Hv'.
  - intros k Hk. rewrite upserts_lookup. by destruct (last_written _ _ k _).
Qed.

(** The range query lists every date of the sensor in the range. *)
Lemma fetch_sensor_data_dates db sensor date_from date_to d :
  is_Some (sensor_data db !! (sensor, d)) → date_from ≤ d ≤ date_to →
  d ∈ svv_date <$> fetch_sensor_data db sensor date_from date_to.
Proof.
  intros [v Hv] Hrange. unfold fetch_sensor_data.
  apply list_elem_of_fmap. exists {| svv_date := d; svv_value := v |}.
  split; [reflexivity|].
  apply (list_elem_of_fmap_2' _ _ (d, v)); [|reflexivity].
  unfold by_key. rewrite merge_sort_Permutation.
  apply list_elem_of_omap. exists ((sensor, d), v). split.
  - by apply elem_of_map_to_list.
  - cbn. rewrite bool_decide_eq_true_2; [reflexivity|]. done.
Qed.

End StoredDates.

Section RangeExtension.

Import Repository.

Variable remote : list APIClient.request → APIClient.request → APIClient.response.
Variable int_of_str : string → option Z.
Variable fromisoformat : string → option datetime.
Variable now : datetime.

#[local] Abbreviation update_sensor_data :=
  (update_sensor_data remote int_of_str fromisoformat now).
#[local] Abbreviation fetch_sensor_data :=
  (fetch_sensor_data remote int_of_str fromisoformat now).
#[local] Abbreviation fetch_sensor_archival_data :=
  (APIClient.fetch_sensor_archival_data remote int_of_str fromisoformat).

(** A refresh of a range that is all older than the archive age is one
    archival fetch and one write. *)
Lemma update_sensor_data_archival sensor date_from date_to w data st :
  ARCHIVE_AGE ≤ now - date_from → ARCHIVE_AGE < now - date_to →
  fetch_sensor_archival_data sensor (Some date_from) (Some date_to) None (_api_client w)
  = (inr data, st) →
  all_valued data = inr () →
  update_sensor_data sensor date_from date_to w
  = (inr (),
     {| _api_client := st;
        _database_client :=
          (DatabaseClient.update_sensor_data sensor data (_database_client w)).2;
        warnings := warnings w;
        refreshes := refreshes w ++ [(sensor, date_from, date_to)] |}).
Proof.
  intros Hfrom Hto Hfetch Hall. unfold Repository.update_sensor_data.
  unfold bind at 1, ghost_refresh at 1, modify at 1.
  rewrite bool_decide_eq_true_2 by done.
  rewrite (bool_decide_eq_false_2 (now - date_to ≤ ARCHIVE_AGE)) by lia.
  set (w1 := {| _api_client := _api_client w; _database_client := _database_client w;
                warnings := warnings w;
                refreshes := refreshes w ++ [(sensor, date_from, date_to)] |}).
  change (_api_client w) with (_api_client w1) in Hfetch.
  erewrite bind_ok; [reflexivity|].
  erewrite bind_ok; [|exact (on_api_run _ _ _ _ Hfetch)].
  unfold on_database. cbn [_database_client _api_client warnings refreshes w1].
  rewrite update_sensor_data_run, Hall. cbn [snd]. reflexivity.
Qed.

(** C5, as the code has it.  The store has rows of the sensor, the
    request reaches past both edges of them, and the whole window is older
    than the archive age.  When the archival endpoint answers, exactly two
    archival fetches are made, the first over [max(dateFrom, latest), dateTo]
    and the second over [dateFrom, min(dateTo, oldest)]; what they return is
    written, and the answer is the range query of the store after that: it
    has a point at every date of the window that was fetched or was there. *)
Theorem range_extension sensor date_from date_to w latest oldest
    recent_points old_points st1 st2 :
  DatabaseClient.fetch_latest_sensor_record_date (_database_client w) sensor = Some latest →
  DatabaseClient.fetch_oldest_sensor_record_date (_database_client w) sensor = Some oldest →
  recent_edge_due date_to latest = true →
  historical_edge_due date_from oldest = true →
  ARCHIVE_AGE ≤ now - Z.max date_from latest →
  ARCHIVE_AGE < now - date_to →
  fetch_sensor_archival_data sensor (Some (Z.max date_from latest)) (Some date_to) None
    (_api_client w) = (inr recent_points, st1) →
  fetch_sensor_archival_data sensor (Some date_from) (Some (Z.min date_to oldest)) None st1
  = (inr old_points, st2) →
  all_valued recent_points = inr () →
  all_valued old_points = inr () →
  ∃ served w',
    fetch_sensor_data sensor date_from (Some date_to) w = (inr served, w') ∧
    _api_client w' = st2 ∧
    _database_client w'
    = (DatabaseClient.update_sensor_data sensor old_points
         (DatabaseClient.update_sensor_data sensor recent_points (_database_client w)).2).2 ∧
    refreshes w' = refreshes w ++ [(sensor, Z.max date_from latest, date_to);
                                   (sensor, date_from, Z.min date_to oldest)] ∧
    warnings w' = warnings w ∧
    served = DatabaseClient.fetch_sensor_data (_database_client w') sensor date_from date_to ∧
    (∀ p, p ∈ recent_points ++ old_points → date_from ≤ data_date p ≤ date_to →
          data_date p ∈ svv_date <$> served) ∧
    (∀ d, is_Some (DatabaseClient.sensor_data (_database_client w) !! (sensor, d)) →
          date_from ≤ d ≤ date_to → d ∈ svv_date <$> served).
Proof.
  intros Hlatest Holdest Hrecent Hhist Hage_from Hage_to Hfetch1 Hfetch2 Hall1 Hall2.
  pose proof (update_sensor_data_archival sensor (Z.max date_from latest) date_to w
                recent_points st1 Hage_from Hage_to Hfetch1 Hall1) as Hrun1.
  set (w1 := {| _api_client := st1;
                _database_client :=
                  (DatabaseClient.update_sensor_data sensor recent_points
                     (_database_client w)).2;
                warnings := warnings w;
                refreshes := refreshes w ++ [(sensor, Z.max date_from latest, date_to)] |})
    in Hrun1.
  assert (Hrun2 := update_sensor_data_archival sensor date_from (Z.min date_to oldest) w1
                     old_points st2).
  cbn [_api_client _database_client warnings refreshes w1] in Hrun2.
  specialize (Hrun2 ltac:(lia) ltac:(lia) Hfetch2 Hall2).
  assert (Hedges :
    refresh_edges remote int_of_str fromisoformat now sensor date_from date_to
      (Some latest) (Some oldest) w
    = (inr (),
       {| _api_client := st2;
          _database_client :=
            (DatabaseClient.update_sensor_data sensor old_points
               (DatabaseClient.update_sensor_data sensor recent_points
                  (_database_client w)).2).2;
          warnings := warnings w;
          refreshes :=
            (refreshes w ++ [(sensor, Z.max date_from latest, date_to)]) ++
            [(sensor, date_from, Z.min date_to oldest)] |})).
  { unfold refresh_edges.
    unfold recent_edge_due in Hrecent. unfold historical_edge_due in Hhist.
    rewrite Hrecent, Hhist. erewrite bind_ok; [|exact Hrun1]. exact Hrun2. }
  unfold Repository.fetch_sensor_data. cbv zeta.
  change (default now (Some date_to)) with date_to.
  unfold bind at 1, query at 1. unfold bind at 1, query at 1.
  rewrite Hlatest, Holdest.
  erewrite bind_ok; [|by unfold try_except; rewrite Hedges].
  unfold query. eexists _, _. split; [reflexivity|].
  cbn [_api_client _database_client warnings refreshes].
  split; [reflexivity|]. split; [reflexivity|].
  split; [by rewrite <- app_assoc|]. split; [reflexivity|]. split; [reflexivity|].
  destruct (update_sensor_data_stored sensor recent_points (_database_client w) Hall1)
    as [Hnew1 Hold1].
  destruct (update_sensor_data_stored sensor old_points
              (DatabaseClient.update_sensor_data sensor recent_points
                 (_database_client w)).2 Hall2) as [Hnew2 Hold2].
  split.
  - intros p Hp Hrange. apply fetch_sensor_data_dates; [|exact Hrange].
    apply elem_of_app in Hp as [Hp|Hp]; [apply Hold2, Hnew1, Hp|apply Hnew2, Hp].
  - intros d Hd Hrange. apply fetch_sensor_data_dates; [|exact Hrange].
    apply Hold2, Hold1, Hd.
Qed.

End RangeExtension.

(** ** What the orchestrator lets through *)

Section Propagation.

Import Repository.

Variable remote : list APIClient.request → APIClient.request → APIClient.response.
Variable int_of_str : string → option Z.
Variable fromisoformat : string → option datetime.
Variable now : datetime.

(** X28.  An exception of the refresh that is not the connectivity error leaves
    [fetch_sensor_data] as it was raised, with nothing logged. *)
Lemma fetch_sensor_data_propagates sensor date_from date_to w e w1 :
  refresh_edges remote int_of_str fromisoformat now sensor date_from (default now date_to)
    (DatabaseClient.fetch_latest_sensor_record_date (_database_client w) sensor)
    (DatabaseClient.fetch_oldest_sensor_record_date (_database_client w) sensor) w
  = (inl e, w1) →
  is_ConnectionError e = false →
  fetch_sensor_data remote int_of_str fromisoformat now sensor date_from date_to w
  = (inl e, w1).
Proof.
  intros Hrun He. unfold fetch_sensor_data. cbv zeta.
  unfold bind at 1, query at 1. unfold bind at 1, query at 1.
  erewrite bind_raised; [reflexivity|]. unfold try_except. by rewrite Hrun, He.
Qed.

(** A connectivity error of the refresh, wherever in it the transport
    failed, is logged, and the read answers from the store as the refresh
    left it. *)
Lemma connectivity_failure_is_swallowed sensor date_from date_to w e w1 :
  refresh_edges remote int_of_str fromisoformat now sensor date_from (default now date_to)
    (DatabaseClient.fetch_latest_sensor_record_date (_database_client w) sensor)
    (DatabaseClient.fetch_oldest_sensor_record_date (_database_client w) sensor) w
  = (inl e, w1) →
  is_ConnectionError e = true →
  ∃ w', fetch_sensor_data remote int_of_str fromisoformat now sensor date_from date_to w
        = (inr (DatabaseClient.fetch_sensor_data (_database_client w1) sensor date_from
                  (default now date_to)), w') ∧
        _database_client w' = _database_client w1 ∧
        warnings w' = warnings w1 ++ [("Error while updating sensor data: %s", e)].
Proof.
  intros Hrun He. unfold fetch_sensor_data. cbv zeta.
  unfold bind at 1, query at 1. unfold bind at 1, query at 1.
  eexists. erewrite bind_ok; [|by unfold try_except; rewrite Hrun, He].
  unfold query. cbn. done.
Qed.

(** A station without a staleness row is refreshed by the next read of its
    sensors, on any day after the first of the epoch: the read asks the
    remote for them. *)
Lemma never_synced_station_is_refreshed station w :
  DatabaseClient.station_update (_database_client w) !! inl station = None →
  UPDATE_INTERVAL_sensors ≤ now →
  ∃ later,
    APIClient.requested
      (_api_client (fetch_station_sensors remote int_of_str now station w).2)
    = APIClient.requested (_api_client w) ++
      page_request (APIClient.StationSensors station) 100 [] 0 :: later.
Proof.
  intros Hrow Hnow.
  destruct (_get_collected_first remote int_of_str (APIClient.StationSensors station)
              "Lista stanowisk pomiarowych dla podanej stacji" 100 [] (_api_client w))
    as (r & st' & later & Hget & Hreq).
  exists later. rewrite <- Hreq. f_equal.
  unfold fetch_station_sensors.
  unfold bind at 1, query at 1.
  unfold DatabaseClient.fetch_last_station_sensors_update. rewrite Hrow.
  rewrite bool_decide_eq_true_2 by (unfold fromtimestamp, timedelta_seconds; lia).
  assert (Hfetch : ∃ r', APIClient.fetch_station_sensors remote int_of_str station
                           (_api_client w) = (r', st')).
  { unfold APIClient.fetch_station_sensors, bind. rewrite Hget.
    destruct r; by eexists. }
  destruct Hfetch as [r' Hfetch].
  assert (Hrefresh : ∃ r'' w1, update_station_sensors remote int_of_str now station w
                               = (r'', w1) ∧ _api_client w1 = st').
  { unfold update_station_sensors, bind. rewrite (on_api_run _ _ _ _ Hfetch).
    destruct r'; by eexists _, _. }
  destruct Hrefresh as (r'' & w1 & Hrefresh & Hapi).
  unfold bind, try_except. rewrite Hrefresh.
  destruct r'' as [e|[]]; [destruct (is_ConnectionError e)|]; exact Hapi.
Qed.

End Propagation.

(** * The scenarios *)


(** C4, where the statement fails.  The store has the sensor's measurements of
    10:00 and 14:00 and the request is for 08:00 to 16:00, so both edges are
    due; the transport is down.  The recent-edge refresh raises, and the
    historical-edge refresh, though [dateFrom] is two hours older than
    [oldest], is not attempted. *)
Lemma historical_edge_skipped_after_failure :
  DatabaseClient.fetch_oldest_sensor_record_date Scenario.stocked_store 52
  = Some (Scenario.may_1st 10) ∧
  historical_edge_due (Scenario.may_1st 8) (Scenario.may_1st 10) = true ∧
  Repository.refreshes
    (Repository.fetch_sensor_data Scenario.unreachable_remote Instances.decimal
       Instances.iso_datetime (Scenario.may_1st 100) 52 (Scenario.may_1st 8)
       (Some (Scenario.may_1st 16)) (Scenario.world_of Scenario.stocked_store)).2
  = [(52, Scenario.may_1st 14, Scenario.may_1st 16)].
Proof. repeat split; vm_compute; reflexivity. Qed.

(** Both edges refreshed in one call, the recent one first. *)
Lemma edge_refreshes_witness :
  Repository.refreshes
    (Repository.fetch_sensor_data Scenario.archive_remote Instances.decimal
       Instances.iso_datetime (Scenario.may_1st 100) 52 (Scenario.may_1st 8)
       (Some (Scenario.may_1st 16)) (Scenario.world_of Scenario.stocked_store)).2
  = [(52, Scenario.may_1st 14, Scenario.may_1st 16);
     (52, Scenario.may_1st 8, Scenario.may_1st 10)].
Proof.
  exact (edge_refreshes Scenario.archive_remote Instances.decimal Instances.iso_datetime
           (Scenario.may_1st 100) 52 (Scenario.may_1st 8) (Some (Scenario.may_1st 16))
           (Scenario.world_of Scenario.stocked_store)).
Defined.

(** C5, where the statement fails.  The same store and request, half an hour
    after the end of the window: both edges are refreshed, each through the
    current-data endpoint; no archival fetch is made, and the answer has no
    point before 10:00. *)
Lemma recent_window_makes_no_archival_fetch :
  APIClient.rq_endpoint <$>
    APIClient.requested
      (Repository._api_client
         (Repository.fetch_sensor_data Scenario.archive_remote Instances.decimal
            Instances.iso_datetime (Scenario.may_1st 16 + timedelta_minutes 30) 52
            (Scenario.may_1st 8) (Some (Scenario.may_1st 16))
            (Scenario.world_of Scenario.stocked_store)).2)
  = [APIClient.DataGetData 52; APIClient.DataGetData 52] ∧
  svv_date <$>
    default []
      (returned
         (Repository.fetch_sensor_data Scenario.archive_remote Instances.decimal
            Instances.iso_datetime (Scenario.may_1st 16 + timedelta_minutes 30) 52
            (Scenario.may_1st 8) (Some (Scenario.may_1st 16))
            (Scenario.world_of Scenario.stocked_store)).1)
  = [Scenario.may_1st 10; Scenario.may_1st 14; Scenario.may_1st 16].
Proof. split; vm_compute; reflexivity. Qed.

(** The same store and request, four days later: two archival fetches,
    over 14:00 to 16:00 and over 08:00 to 10:00, and an answer with the
    points of 08:00 to 16:00. *)
Lemma range_extension_witness :
  ∃ served w',
    Repository.fetch_sensor_data Scenario.archive_remote Instances.decimal
      Instances.iso_datetime (Scenario.may_1st 100) 52 (Scenario.may_1st 8)
      (Some (Scenario.may_1st 16)) (Scenario.world_of Scenario.stocked_store)
    = (inr served, w') ∧
    APIClient.requested (Repository._api_client w')
    = [page_request (APIClient.ArchivalDataGetDataBySensor 52) 500
         (APIClient.archival_params (Some (Scenario.may_1st 14))
            (Some (Scenario.may_1st 16)) None) 0;
       page_request (APIClient.ArchivalDataGetDataBySensor 52) 500
         (APIClient.archival_params (Some (Scenario.may_1st 8))
            (Some (Scenario.may_1st 10)) None) 0] ∧
    svv_date <$> served = Scenario.may_1st <$> [8; 9; 10; 14; 15; 16].
Proof.
  destruct (range_extension Scenario.archive_remote Instances.decimal
              Instances.iso_datetime (Scenario.may_1st 100) 52 (Scenario.may_1st 8)
              (Scenario.may_1st 16) (Scenario.world_of Scenario.stocked_store)
              (Scenario.may_1st 14) (Scenario.may_1st 10)
              [{| data_date := Scenario.may_1st 15;
                  data_value := Some (QArith_base.inject_Z 27) |};
               {| data_date := Scenario.may_1st 16;
                  data_value := Some (QArith_base.inject_Z 30) |}]
              [{| data_date := Scenario.may_1st 8;
                  data_value := Some (QArith_base.inject_Z 17) |};
               {| data_date := Scenario.may_1st 9;
                  data_value := Some (QArith_base.inject_Z 19) |}]
              (APIClient.fetch_sensor_archival_data Scenario.archive_remote
                 Instances.decimal Instances.iso_datetime 52 (Some (Scenario.may_1st 14))
                 (Some (Scenario.may_1st 16)) None APIClient.new_api_client).2
              (APIClient.fetch_sensor_archival_data Scenario.archive_remote
                 Instances.decimal Instances.iso_datetime 52 (Some (Scenario.may_1st 8))
                 (Some (Scenario.may_1st 10)) None
                 (APIClient.fetch_sensor_archival_data Scenario.archive_remote
                    Instances.decimal Instances.iso_datetime 52
                    (Some (Scenario.may_1st 14)) (Some (Scenario.may_1st 16)) None
                    APIClient.new_api_client).2).2)
    as (served & w' & Hrun & Hapi & Hdb & _ & _ & Hserved & _).
  - vm_compute; reflexivity.
  - vm_compute; reflexivity.
  - vm_compute; reflexivity.
  - vm_compute; reflexivity.
  - vm_compute. discriminate.
  - vm_compute; reflexivity.
  - vm_compute; reflexivity.
  - vm_compute; reflexivity.
  - vm_compute; reflexivity.
  - vm_compute; reflexivity.
  - exists served, w'. split; [exact Hrun|]. split.
    + rewrite Hapi. vm_compute; reflexivity.
    + rewrite Hserved, Hdb. vm_compute; reflexivity.
Defined.

(** C2, at the failing input.  The service rejects the archival request
    with a structured error that is not the rate limit.  [_get] raises the
    [APIError] made of the body; [fetch_sensor_archival_data] catches it,
    matches no case and returns the empty list; and the orchestrator's read,
    over a window older than the archive age, returns the stored points with
    nothing raised and nothing logged. *)
Lemma remote_error_not_propagated :
  (APIClient._get Scenario.rejecting_remote
     (APIClient.ArchivalDataGetDataBySensor 52) 0 500
     (APIClient.archival_params (Some (Scenario.may_1st 14)) (Some (Scenario.may_1st 16))
        None)
     APIClient.new_api_client).1
  = inl (APIError (JStr "API-ERR-100001") (JStr "reason") (JStr "result") (JStr "solution")) ∧
  (APIClient.fetch_sensor_archival_data Scenario.rejecting_remote Instances.decimal
     Instances.iso_datetime 52 (Some (Scenario.may_1st 14)) (Some (Scenario.may_1st 16)) None
     APIClient.new_api_client).1
  = inr [] ∧
  (Repository.fetch_sensor_data Scenario.rejecting_remote Instances.decimal
     Instances.iso_datetime (Scenario.may_1st 100) 52 (Scenario.may_1st 8)
     (Some (Scenario.may_1st 16)) (Scenario.world_of Scenario.stocked_store)).1
  = inr [{| svv_date := Scenario.may_1st 10; svv_value := QArith_base.inject_Z 21 |};
         {| svv_date := Scenario.may_1st 14; svv_value := QArith_base.inject_Z 25 |}] ∧
  Repository.warnings
    (Repository.fetch_sensor_data Scenario.rejecting_remote Instances.decimal
       Instances.iso_datetime (Scenario.may_1st 100) 52 (Scenario.may_1st 8)
       (Some (Scenario.may_1st 16)) (Scenario.world_of Scenario.stocked_store)).2
  = [].
Proof. repeat split; vm_compute; reflexivity. Qed.
(** * Further properties of the store *)

Section Measurements.

Import DatabaseClient.

Lemma elem_of_fetch_sensor_data db sensor date_from date_to v :
  v ∈ fetch_sensor_data db sensor date_from date_to ↔
  sensor_data db !! (sensor, svv_date v) = Some (svv_value v) ∧
  date_from ≤ svv_date v ≤ date_to.
Proof.
  unfold fetch_sensor_data. rewrite list_elem_of_fmap. split.
  - intros ([d x] & -> & Hin). cbn.
    unfold by_key in Hin. rewrite merge_sort_Permutation in Hin.
    apply list_elem_of_omap in Hin as ([[s d'] x'] & Hin & Hf). cbn in Hf.
    case_bool_decide as Hc; [|done]. injection Hf as <- <-.
    destruct Hc as (-> & Hc). apply elem_of_map_to_list in Hin. done.
  - intros [Hv Hrange]. exists (svv_date v, svv_value v). split; [by destruct v|].
    unfold by_key. rewrite merge_sort_Permutation.
    apply list_elem_of_omap. exists ((sensor, svv_date v), svv_value v). split.
    + by apply elem_of_map_to_list.
    + cbn. rewrite bool_decide_eq_true_2; [reflexivity|]. done.
Qed.

Lemma NoDup_fetch_sensor_data db sensor date_from date_to :
  NoDup (svv_date <$> fetch_sensor_data db sensor date_from date_to).
Proof.
  unfold fetch_sensor_data. rewrite <- list_fmap_compose.
  unfold by_key. rewrite merge_sort_Permutation.
  assert (Hnd : NoDup (map_to_list (sensor_data db)).*1) by apply NoDup_fst_map_to_list.
  induction (map_to_list (sensor_data db)) as [|[[s d] x] l IH]; cbn; [constructor|].
  apply NoDup_cons in Hnd as [Hnotin Hnd]. specialize (IH Hnd).
  case_bool_decide as Hc; cbn; [|exact IH].
  apply NoDup_cons. split; [|exact IH].
  intros Hin. apply Hnotin. cbn.
  apply list_elem_of_fmap in Hin as ([d' x'] & Hd & Hin). cbn in Hd.
  apply list_elem_of_omap in Hin as ([[s' d''] x''] & Hin & Hf). cbn in Hf.
  case_bool_decide as Hc'; [|done]. injection Hf as Hd' Hx'.
  destruct Hc as (Hs & _), Hc' as (Hs' & _). cbn in *.
  apply list_elem_of_fmap. exists ((s', d''), x''). split; [|exact Hin].
  cbn. by subst.
Qed.

(** X1.  The range query returns exactly the rows of the sensor whose date is in
    the closed range, each date once. *)
Theorem range_query_exact db sensor date_from date_to :
  (∀ v, v ∈ fetch_sensor_data db sensor date_from date_to ↔
        sensor_data db !! (sensor, svv_date v) = Some (svv_value v) ∧
        date_from ≤ svv_date v ≤ date_to) ∧
  NoDup (svv_date <$> fetch_sensor_data db sensor date_from date_to).
Proof.
  split; [intros v; apply elem_of_fetch_sensor_data|apply NoDup_fetch_sensor_data].
Qed.

End Measurements.

Section RecordDates.

Import DatabaseClient.

Lemma elem_of_record_dates db sensor d :
  d ∈ record_dates db sensor ↔ is_Some (sensor_data db !! (sensor, d)).
Proof.
  unfold record_dates. rewrite list_elem_of_omap. split.
  - intros ([[s d'] x] & Hin & Hf). cbn in Hf.
    case_bool_decide as Hs; [|done]. injection Hf as Hd. cbn in Hs. subst.
    apply elem_of_map_to_list in Hin. by exists x.
  - intros [x Hx]. exists ((sensor, d), x). split; [by apply elem_of_map_to_list|].
    cbn. by rewrite bool_decide_eq_true_2.
Qed.

Lemma foldr_max_spec (l : list Z) :
  match foldr (λ d acc, Some (from_option (Z.max d) d acc)) None l with
  | Some m => m ∈ l ∧ ∀ d, d ∈ l → d ≤ m
  | None => l = []
  end.
Proof.
  induction l as [|a l IH]; cbn; [reflexivity|].
  destruct (foldr _ None l) as [m|]; cbn.
  - destruct IH as [Hm Hle]. split.
    + destruct (Z.max_spec a m) as [[_ ->]|[_ ->]]; [by right|by left].
    + intros d Hd. apply elem_of_cons in Hd as [->|Hd]; [lia|].
      specialize (Hle d Hd). lia.
  - subst l. split; [by left|]. intros d Hd.
    apply list_elem_of_singleton in Hd. lia.
Qed.

Lemma foldr_min_spec (l : list Z) :
  match foldr (λ d acc, Some (from_option (Z.min d) d acc)) None l with
  | Some m => m ∈ l ∧ ∀ d, d ∈ l → m ≤ d
  | None => l = []
  end.
Proof.
  induction l as [|a l IH]; cbn; [reflexivity|].
  destruct (foldr _ None l) as [m|]; cbn.
  - destruct IH as [Hm Hle]. split.
    + destruct (Z.min_spec a m) as [[_ ->]|[_ ->]]; [by left|by right].
    + intros d Hd. apply elem_of_cons in Hd as [->|Hd]; [lia|].
      specialize (Hle d Hd). lia.
  - subst l. split; [by left|]. intros d Hd.
    apply list_elem_of_singleton in Hd. lia.
Qed.

(** X2.  The newest and the oldest record date of a sensor are dates of rows of
    the sensor and bound the dates of all its rows; both are [None] exactly
    when the sensor has no row. *)
Theorem record_date_bounds db sensor :
  match fetch_latest_sensor_record_date db sensor,
        fetch_oldest_sensor_record_date db sensor with
  | Some latest, Some oldest =>
      is_Some (sensor_data db !! (sensor, latest)) ∧
      is_Some (sensor_data db !! (sensor, oldest)) ∧
      ∀ d, is_Some (sensor_data db !! (sensor, d)) → oldest ≤ d ≤ latest
  | None, None => ∀ d, sensor_data db !! (sensor, d) = None
  | _, _ => False
  end.
Proof.
  unfold fetch_latest_sensor_record_date, fetch_oldest_sensor_record_date.
  pose proof (foldr_max_spec (record_dates db sensor)) as Hmax.
  pose proof (foldr_min_spec (record_dates db sensor)) as Hmin.
  destruct (foldr (λ d acc, Some (from_option (Z.max d) d acc)) None _) as [latest|];
    destruct (foldr (λ d acc, Some (from_option (Z.min d) d acc)) None _) as [oldest|].
  - destruct Hmax as [Hl Hmax], Hmin as [Ho Hmin].
    split; [by apply elem_of_record_dates|]. split; [by apply elem_of_record_dates|].
    intros d Hd. apply elem_of_record_dates in Hd. split; [by apply Hmin|by apply Hmax].
  - rewrite Hmin in Hmax. destruct Hmax as [Hl _]. by apply elem_of_nil in Hl.
  - rewrite Hmax in Hmin. destruct Hmin as [Ho _]. by apply elem_of_nil in Ho.
  - intros d. destruct (sensor_data db !! (sensor, d)) as [x|] eqn:Hx; [|reflexivity].
    assert (Hd : d ∈ record_dates db sensor) by (apply elem_of_record_dates; by exists x).
    rewrite Hmax in Hd. by apply elem_of_nil in Hd.
Qed.

End RecordDates.

Section Writes.

Import DatabaseClient.

Lemma forallb_valued data :
  forallb (λ entry, bool_decide (is_Some (data_value entry))) data = true ↔
  Forall (λ e, is_Some (data_value e)) data.
Proof.
  induction data as [|e data IH]; cbn; [by split|].
  rewrite andb_true_iff, bool_decide_eq_true, IH, Forall_cons. reflexivity.
Qed.



(** X4.  The write raises [IntegrityError] exactly when a measurement of the
    list has no value. *)
Theorem update_sensor_data_rejects_null sensor data db :
  (update_sensor_data sensor data db).1 = inl IntegrityError ↔
  ∃ e, e ∈ data ∧ data_value e = None.
Proof.
  rewrite update_sensor_data_run. cbn [fst]. unfold all_valued.
  destruct (forallb _ data) eqn:Hall.
  - split; [done|]. intros (e & He & Hnone).
    apply forallb_valued in Hall. rewrite Forall_forall in Hall.
    specialize (Hall e He). rewrite Hnone in Hall. by destruct Hall.
  - split; [|done]. intros _.
    assert (Hex : Exists (λ e, ¬ is_Some (data_value e)) data).
    { apply not_Forall_Exists; [apply _|]. intros HF.
      apply forallb_valued in HF. congruence. }
    apply Exists_exists in Hex as (e & He & Hn). exists e. split; [exact He|].
    destruct (data_value e); [|reflexivity]. destruct Hn. by eexists.
Qed.

End Writes.

(** ** Identifiers *)

Section Identifiers.

Context `{Countable K} {V : Type}.
Variable id_of : V → Z.

Lemma identifiers_insert (m : gmap K V) k v counter :
  m !! k = None → id_of v = counter + 1 →
  NoDup (identifiers id_of m) → Forall (λ id, id ≤ counter) (identifiers id_of m) →
  NoDup (identifiers id_of (<[k := v]> m)) ∧
  Forall (λ id, id ≤ counter + 1) (identifiers id_of (<[k := v]> m)).
Proof.
  intros Hk Hv Hnd Hle. unfold identifiers in *.
  rewrite (map_to_list_insert m k v Hk). cbn. split.
  - apply NoDup_cons. split; [|exact Hnd].
    intros Hin. rewrite Forall_forall in Hle. specialize (Hle _ Hin). lia.
  - apply Forall_cons. split; [lia|].
    eapply Forall_impl; [exact Hle|]. intros id Hid. cbn in Hid. lia.
Qed.

Lemma find_by_identifier (m : gmap K V) k v :
  NoDup (identifiers id_of m) → m !! k = Some v →
  List.find (λ kv, bool_decide (id_of kv.2 = id_of v)) (map_to_list m) = Some (k, v).
Proof.
  intros Hnd Hk. unfold identifiers in Hnd.
  apply elem_of_map_to_list in Hk.
  induction (map_to_list m) as [|[k' v'] l IH]; [by apply elem_of_nil in Hk|].
  cbn in Hnd |- *. apply NoDup_cons in Hnd as [Hnotin Hnd].
  apply elem_of_cons in Hk as [Hk|Hk].
  - injection Hk as <- <-. by rewrite bool_decide_eq_true_2.
  - rewrite bool_decide_eq_false_2; [by apply IH|].
    intros Heq. apply Hnotin. rewrite Heq.
    apply list_elem_of_fmap. by exists (k, v).
Qed.

End Identifiers.

Section WellFormed.

Import DatabaseClient.

Lemma well_formed_populate_tables : well_formed _populate_tables.
Proof.
  unfold well_formed. apply (bool_decide_unpack _). vm_compute. exact I.
Qed.

Lemma well_formed_frame db db' :
  city db' = city db → city_sequence db' = city_sequence db →
  sensor_type db' = sensor_type db → sensor_type_sequence db' = sensor_type_sequence db →
  well_formed db → well_formed db'.
Proof. unfold well_formed. by intros -> -> -> ->. Qed.

Lemma well_formed_insert_or_ignore_city s db :
  well_formed db → well_formed (insert_or_ignore_city s db).
Proof.
  intros (Hnd & Hle & Htypes). unfold insert_or_ignore_city.
  destruct (city db !! station_city s) as [c|] eqn:Hc.
  - unfold well_formed. destruct db; cbn in *. split; [exact Hnd|]. split; [|exact Htypes].
    eapply Forall_impl; [exact Hle|]. intros id Hid. cbn in Hid. lia.
  - destruct (identifiers_insert city_id (city db) (station_city s)
                {| city_id := city_sequence db + 1; city_district := station_district s;
                   city_voivodeship := station_voivodeship s |}
                (city_sequence db) Hc eq_refl Hnd Hle) as [Hnd' Hle'].
    unfold well_formed. destruct db; cbn in *. done.
Qed.

Lemma well_formed_insert_or_ignore_sensor_type codename db :
  well_formed db → well_formed (insert_or_ignore_sensor_type codename db).
Proof.
  intros (Hcnd & Hcle & Hnd & Hle). unfold insert_or_ignore_sensor_type.
  destruct (sensor_type db !! codename) as [id|] eqn:Hc.
  - unfold well_formed. destruct db; cbn in *. repeat split; try done.
    eapply Forall_impl; [exact Hle|]. intros i Hi. cbn in Hi. lia.
  - destruct (identifiers_insert (λ id, id) (sensor_type db) codename
                (sensor_type_sequence db + 1) (sensor_type_sequence db) Hc eq_refl Hnd Hle)
      as [Hnd' Hle'].
    unfold well_formed. destruct db; cbn in *. done.
Qed.

Lemma well_formed_foldl {B} (f : store → B → store) l :
  (∀ db b, well_formed db → well_formed (f db b)) →
  ∀ db, well_formed db → well_formed (foldl f db l).
Proof.
  intros Hf. induction l as [|b l IH]; intros db Hdb; cbn; [exact Hdb|].
  apply IH, Hf, Hdb.
Qed.

Lemma well_formed_update_sensor_types types db :
  well_formed db → well_formed (update_sensor_types types db).
Proof.
  apply well_formed_foldl. intros a b. apply well_formed_insert_or_ignore_sensor_type.
Qed.

Lemma well_formed_update_stations now stations db :
  well_formed db → well_formed (update_stations now stations db).
Proof.
  intros Hdb. unfold update_stations. apply well_formed_foldl.
  - intros a s. unfold insert_or_replace_station.
    destruct (city a !! station_city s); [|done].
    apply well_formed_frame; by destruct a.
  - apply well_formed_foldl; [|exact Hdb].
    intros a s. apply well_formed_insert_or_ignore_city.
Qed.

Lemma well_formed_update_station_sensors now station sensors db :
  well_formed db → well_formed (update_station_sensors now station sensors db).
Proof.
  intros Hdb. unfold update_station_sensors. apply well_formed_foldl.
  - intros a s. unfold insert_or_ignore_sensor.
    destruct (sensor a !! sensor_id s); [done|].
    apply well_formed_frame; by destruct a.
  - by apply well_formed_update_sensor_types.
Qed.

Lemma well_formed_update_station_air_quality_indexes now station indexes db :
  well_formed db →
  well_formed (update_station_air_quality_indexes now station indexes db).
Proof.
  unfold update_station_air_quality_indexes. apply well_formed_foldl.
  intros a entry. unfold upsert_aq_index.
  destruct (sensor_type a !! entry.1); apply well_formed_frame; by destruct a.
Qed.

Lemma well_formed_update_sensor_data sensor data db :
  well_formed db → well_formed (update_sensor_data sensor data db).2.
Proof.
  rewrite update_sensor_data_run. cbn [snd]. apply well_formed_frame; by destruct db.
Qed.

Lemma for_each_well_formed {B} (f : B → M store unit) l :
  (∀ b db, well_formed db → well_formed (f b db).2) →
  ∀ db, well_formed db → well_formed (for_each f l db).2.
Proof.
  intros Hf. induction l as [|b l IH]; intros db Hdb; cbn; [exact Hdb|].
  unfold bind. specialize (Hf b db Hdb).
  destruct (f b db) as [[e|[]] db1]; cbn in Hf |- *; [exact Hf|]. by apply IH.
Qed.

Lemma well_formed_update_station_meta integer_affinity now meta db :
  well_formed db → well_formed (update_station_meta integer_affinity now meta db).2.
Proof.
  intros Hdb. unfold update_station_meta, bind, lift_result.
  destruct (map_result _ meta) as [e|params]; [exact Hdb|].
  apply for_each_well_formed; [|exact Hdb].
  intros p a Ha. unfold insert_station_meta.
  destruct (meta_international_codename p.1); [|exact Ha].
  cbn. revert Ha. apply well_formed_frame; by destruct a.
Qed.

(** X5.  A new store gives each city and each sensor type an identifier of its
    own, and every write of the client keeps it so. *)
Theorem identifiers_stay_unique :
  well_formed _populate_tables ∧
  ∀ db, well_formed db →
    (∀ now stations, well_formed (update_stations now stations db)) ∧
    (∀ types, well_formed (update_sensor_types types db)) ∧
    (∀ now station sensors, well_formed (update_station_sensors now station sensors db)) ∧
    (∀ now station indexes,
       well_formed (update_station_air_quality_indexes now station indexes db)) ∧
    (∀ sensor data, well_formed (update_sensor_data sensor data db).2) ∧
    (∀ integer_affinity now meta,
       well_formed (update_station_meta integer_affinity now meta db).2).
Proof.
  split; [exact well_formed_populate_tables|]. intros db Hdb.
  split; [intros; by apply well_formed_update_stations|].
  split; [intros; by apply well_formed_update_sensor_types|].
  split; [intros; by apply well_formed_update_station_sensors|].
  split; [intros; by apply well_formed_update_station_air_quality_indexes|].
  split; [intros; by apply well_formed_update_sensor_data|].
  intros; by apply well_formed_update_station_meta.
Qed.

End WellFormed.

Lemma identifiers_stay_unique_witness : well_formed Scenario.stocked_store.
Proof.
  destruct identifiers_stay_unique as [Hnew Hkeeps].
  destruct (Hkeeps _ Hnew) as (Hstations & _).
  destruct (Hkeeps _ (Hstations 100 [Scenario.wroclaw])) as (_ & _ & Hsensors & _).
  destruct (Hkeeps _ (Hsensors 100 5 [Scenario.pm10_sensor])) as (_ & _ & _ & _ & Hdata & _).
  exact (Hdata 52 Scenario.stored_points).
Defined.

(** ** Stations *)

Section Stations.

Import DatabaseClient.

Lemma insert_cities_keep stations : ∀ db name c,
  city db !! name = Some c →
  city (foldl (λ db s, insert_or_ignore_city s db) db stations) !! name = Some c.
Proof.
  induction stations as [|s stations IH]; intros db name c Hc; cbn; [exact Hc|].
  apply IH. unfold insert_or_ignore_city.
  destruct (city db !! station_city s) as [c'|] eqn:Hs; destruct db; cbn in *; [exact Hc|].
  rewrite lookup_insert_ne; [exact Hc|]. intros <-. congruence.
Qed.

Lemma insert_or_replace_station_city now s db :
  city (insert_or_replace_station now s db) = city db.
Proof.
  unfold insert_or_replace_station. destruct (city db !! station_city s); by destruct db.
Qed.

Lemma insert_or_replace_stations_city now stations db :
  city (foldl (λ db s, insert_or_replace_station now s db) db stations) = city db.
Proof. apply foldl_preserves. intros a b. apply insert_or_replace_station_city. Qed.

Lemma insert_or_replace_stations_written now stations : ∀ db s c,
  (∀ s', s' ∈ stations → is_Some (city db !! station_city s')) →
  NoDup (station_id <$> stations) → NoDup (station_codename <$> stations) →
  s ∈ stations → city db !! station_city s = Some c →
  station (foldl (λ db s, insert_or_replace_station now s db) db stations) !! station_id s
  = Some (station_row_of s c).
Proof.
  induction stations as [|s' stations IH] using rev_ind; intros db s c Hcities Hids Hcodes Hs Hc;
    [by apply elem_of_nil in Hs|].
  rewrite foldl_app. cbn [foldl].
  set (db1 := foldl _ db stations).
  assert (Hcity1 : city db1 = city db) by apply insert_or_replace_stations_city.
  destruct (Hcities s') as [c' Hc']; [apply elem_of_app; right; by left|].
  unfold insert_or_replace_station. rewrite Hcity1, Hc'.
  assert (Hst : ∀ f g a, station (tgr_on_insert_station g (with_station f a)) = f (station a))
    by (intros f g a; by destruct a).
  rewrite Hst.
  rewrite fmap_app in Hids. rewrite fmap_app in Hcodes. cbn in Hids, Hcodes.
  apply NoDup_app in Hids as (Hids & Hid' & _).
  apply NoDup_app in Hcodes as (Hcodes & Hcode' & _).
  apply elem_of_app in Hs as [Hs|Hs].
  - assert (Hne : station_id s ≠ station_id s').
    { intros Heq. apply (Hid' (station_id s)); [by apply list_elem_of_fmap_2|].
      rewrite Heq. by left. }
    assert (Hcne : station_codename s ≠ station_codename s').
    { intros Heq. apply (Hcode' (station_codename s)); [by apply list_elem_of_fmap_2|].
      rewrite Heq. by left. }
    rewrite lookup_insert_ne by done. rewrite map_lookup_filter.
    subst db1. rewrite (IH db s c); try done.
    + cbn. case_guard as Hg; [reflexivity|]. by destruct Hg.
    + intros s0 Hs0. apply Hcities. apply elem_of_app. by left.
  - apply list_elem_of_singleton in Hs as ->.
    rewrite lookup_insert_eq. unfold station_row_of. congruence.
Qed.

Lemma elem_of_by_key {A} (x : Z * A) (l : list (Z * A)) : x ∈ by_key l ↔ x ∈ l.
Proof. unfold by_key. by rewrite merge_sort_Permutation. Qed.

Lemma update_stations_written now stations db s :
  well_formed db →
  NoDup (station_id <$> stations) → NoDup (station_codename <$> stations) →
  s ∈ stations →
  let db' := update_stations now stations db in
  ∃ c, city db' !! station_city s = Some c ∧
       (∀ c0, city db !! station_city s = Some c0 → c = c0) ∧
       station db' !! station_id s = Some (station_row_of s c) ∧
       city_by_id db' (city_id c) = Some (station_city s, c).
Proof.
  intros Hwf Hids Hcodes Hs. cbn zeta.
  assert (Hwf' : well_formed (update_stations now stations db))
    by (by apply well_formed_update_stations).
  unfold update_stations in *.
  set (db1 := foldl (λ db s, insert_or_ignore_city s db) db stations) in *.
  destruct (insert_cities_present stations db (station_city s)) as [c Hc].
  { right. by apply list_elem_of_fmap_2. }
  fold db1 in Hc. exists c.
  rewrite insert_or_replace_stations_city in *.
  split; [exact Hc|]. split.
  - intros c0 Hc0. apply (insert_cities_keep stations) in Hc0. fold db1 in Hc0. congruence.
  - split.
    + apply insert_or_replace_stations_written; try done.
      intros s' Hs'. apply insert_cities_present. right. by apply list_elem_of_fmap_2.
    + unfold city_by_id.
      rewrite insert_or_replace_stations_city.
      apply (find_by_identifier city_id); [|exact Hc].
      destruct Hwf' as (Hnd & _). by rewrite insert_or_replace_stations_city in Hnd.
Qed.

Lemma update_stations_listed now stations db s :
  well_formed db →
  NoDup (station_id <$> stations) → NoDup (station_codename <$> stations) →
  s ∈ stations →
  {| slv_id := station_id s; slv_name := station_name s;
     slv_latitude := station_latitude s; slv_longitude := station_longitude s;
     slv_city := station_city s |}
  ∈ get_station_list_view (update_stations now stations db).
Proof.
  intros Hwf Hids Hcodes Hs.
  destruct (update_stations_written now stations db s Hwf Hids Hcodes Hs)
    as (c & Hc & _ & Hrow & Hfind).
  unfold get_station_list_view. apply list_elem_of_omap.
  exists (station_id s, station_row_of s c). split.
  - apply elem_of_by_key. by apply elem_of_map_to_list.
  - cbn. rewrite Hfind. reflexivity.
Qed.

(** X6.  After a write of stations with distinct identifiers and distinct
    codenames, the list of stations has a row for each of them, with its
    name, its coordinates and the name of its city. *)
Theorem written_stations_are_listed now stations db s :
  well_formed db →
  NoDup (station_id <$> stations) → NoDup (station_codename <$> stations) →
  s ∈ stations →
  {| slv_id := station_id s; slv_name := station_name s;
     slv_latitude := station_latitude s; slv_longitude := station_longitude s;
     slv_city := station_city s |}
  ∈ get_station_list_view (update_stations now stations db).
Proof. apply update_stations_listed. Qed.

(** X7.  The details of a station that was written are its own, except for the
    district and the voivodeship: these are the ones of the row of its
    city, which is the row the city already had when it had one. *)
Theorem written_station_details now stations db s :
  well_formed db →
  NoDup (station_id <$> stations) → NoDup (station_codename <$> stations) →
  s ∈ stations →
  ∃ c, city (update_stations now stations db) !! station_city s = Some c ∧
       (∀ c0, city db !! station_city s = Some c0 → c = c0) ∧
       fetch_station_detail_view (update_stations now stations db) (station_id s)
       = inr {| sdv_id := station_id s; sdv_codename := station_codename s;
                sdv_name := station_name s; sdv_district := city_district c;
                sdv_voivodeship := city_voivodeship c; sdv_city := station_city s;
                sdv_address := station_address s |}.
Proof.
  intros Hwf Hids Hcodes Hs.
  destruct (update_stations_written now stations db s Hwf Hids Hcodes Hs)
    as (c & Hc & Hfirst & Hrow & Hfind).
  exists c. split; [exact Hc|]. split; [exact Hfirst|].
  unfold fetch_station_detail_view. rewrite Hrow. cbn. rewrite Hfind. reflexivity.
Qed.

End Stations.

(** The station of Wrocław, written to a new store. *)
Lemma written_stations_are_listed_witness :
  {| slv_id := 5; slv_name := "Wrocław, wyb. Conrada-Korzeniowskiego";
     slv_latitude := QArith_base.Qmake 51129378 1000000;
     slv_longitude := QArith_base.Qmake 17029250 1000000; slv_city := "Wrocław" |}
  ∈ DatabaseClient.get_station_list_view
      (DatabaseClient.update_stations 100 [Scenario.wroclaw] DatabaseClient._populate_tables).
Proof.
  apply (written_stations_are_listed 100 [Scenario.wroclaw] DatabaseClient._populate_tables
           Scenario.wroclaw).
  - apply (bool_decide_unpack _). vm_compute. exact I.
  - apply (bool_decide_unpack _). vm_compute. exact I.
  - apply (bool_decide_unpack _). vm_compute. exact I.
  - left.
Defined.

Lemma written_station_details_witness :
  ∃ c, DatabaseClient.city
         (DatabaseClient.update_stations 100 [Scenario.wroclaw] DatabaseClient._populate_tables)
         !! "Wrocław" = Some c ∧
       DatabaseClient.fetch_station_detail_view
         (DatabaseClient.update_stations 100 [Scenario.wroclaw] DatabaseClient._populate_tables) 5
       = inr {| sdv_id := 5; sdv_codename := "DsWrocWybCon";
                sdv_name := "Wrocław, wyb. Conrada-Korzeniowskiego";
                sdv_district := DatabaseClient.city_district c;
                sdv_voivodeship := DatabaseClient.city_voivodeship c;
                sdv_city := "Wrocław"; sdv_address := None |}.
Proof.
  destruct (written_station_details 100 [Scenario.wroclaw] DatabaseClient._populate_tables
              Scenario.wroclaw) as (c & Hc & _ & Hview).
  - apply (bool_decide_unpack _). vm_compute. exact I.
  - apply (bool_decide_unpack _). vm_compute. exact I.
  - apply (bool_decide_unpack _). vm_compute. exact I.
  - left.
  - exists c. split; [exact Hc|exact Hview].
Defined.

(** ** Sensors *)

Section Sensors.

Import DatabaseClient.

Lemma update_sensor_types_frame types db :
  let db' := update_sensor_types types db in
  sensor db' = sensor db ∧ station_update db' = station_update db.
Proof.
  cbn zeta. unfold update_sensor_types.
  split; apply foldl_preserves; intros a b; unfold insert_or_ignore_sensor_type;
    destruct (sensor_type a !! b); by destruct a.
Qed.

Lemma insert_or_ignore_sensor_sensor_type now station s db :
  sensor_type (insert_or_ignore_sensor now station s db) = sensor_type db ∧
  sensor_type_sequence (insert_or_ignore_sensor now station s db) = sensor_type_sequence db.
Proof.
  unfold insert_or_ignore_sensor. destruct (sensor db !! sensor_id s); by destruct db.
Qed.

Lemma insert_sensors_sensor_type now station sensors db :
  sensor_type (foldl (λ db s, insert_or_ignore_sensor now station s db) db sensors)
  = sensor_type db.
Proof. apply foldl_preserves. intros a b. apply insert_or_ignore_sensor_sensor_type. Qed.

Lemma insert_or_ignore_sensor_keeps now station s db id row :
  sensor db !! id = Some row →
  sensor (insert_or_ignore_sensor now station s db) !! id = Some row.
Proof.
  intros Hid. unfold insert_or_ignore_sensor.
  destruct (sensor db !! sensor_id s) as [r|] eqn:Hs; [exact Hid|].
  destruct db; cbn in *. rewrite lookup_insert_ne; [exact Hid|]. intros <-. congruence.
Qed.

Lemma insert_sensors_keep now station sensors : ∀ db id row,
  sensor db !! id = Some row →
  sensor (foldl (λ db s, insert_or_ignore_sensor now station s db) db sensors) !! id
  = Some row.
Proof.
  induction sensors as [|s sensors IH]; intros db id row Hid; cbn; [exact Hid|].
  apply IH. by apply insert_or_ignore_sensor_keeps.
Qed.

Lemma insert_sensors_absent now station sensors : ∀ db id,
  sensor db !! id = None → id ∉ sensor_id <$> sensors →
  sensor (foldl (λ db s, insert_or_ignore_sensor now station s db) db sensors) !! id = None.
Proof.
  induction sensors as [|s sensors IH]; intros db id Hid Hnotin; cbn; [exact Hid|].
  cbn in Hnotin. apply not_elem_of_cons in Hnotin as [Hne Hnotin].
  apply IH; [|exact Hnotin]. unfold insert_or_ignore_sensor.
  destruct (sensor db !! sensor_id s) as [r|] eqn:Hs; [exact Hid|].
  destruct db; cbn in *. by rewrite lookup_insert_ne.
Qed.

Lemma upsert_last_sensors_update_at_stamps now station m :
  last_sensors_update_at <$> upsert_last_sensors_update_at now station m !! inl station
  = Some now.
Proof.
  unfold upsert_last_sensors_update_at.
  destruct (m !! inl station); by rewrite lookup_insert_eq.
Qed.

Lemma insert_or_ignore_sensor_stamped now station s db :
  last_sensors_update_at <$> station_update db !! inl station = Some now →
  last_sensors_update_at
    <$> station_update (insert_or_ignore_sensor now station s db) !! inl station = Some now.
Proof.
  intros Hst. unfold insert_or_ignore_sensor.
  destruct (sensor db !! sensor_id s); [exact Hst|].
  destruct db; cbn in *. apply upsert_last_sensors_update_at_stamps.
Qed.

Lemma insert_or_ignore_sensor_new now station s db :
  sensor db !! sensor_id s = None →
  let db' := insert_or_ignore_sensor now station s db in
  sensor db' !! sensor_id s
  = Some {| sn_station_id := station;
            sn_sensor_type_id := sensor_type db !! sensor_codename s |} ∧
  last_sensors_update_at <$> station_update db' !! inl station = Some now.
Proof.
  intros Hs. cbn zeta. unfold insert_or_ignore_sensor. rewrite Hs.
  destruct db; cbn in *. split; [by rewrite lookup_insert_eq|].
  apply upsert_last_sensors_update_at_stamps.
Qed.

Lemma insert_sensors_new now station sensors : ∀ db s,
  NoDup (sensor_id <$> sensors) → s ∈ sensors → sensor db !! sensor_id s = None →
  let db' := foldl (λ db s, insert_or_ignore_sensor now station s db) db sensors in
  sensor db' !! sensor_id s
  = Some {| sn_station_id := station;
            sn_sensor_type_id := sensor_type db !! sensor_codename s |} ∧
  last_sensors_update_at <$> station_update db' !! inl station = Some now.
Proof.
  induction sensors as [|s' sensors IH] using rev_ind; intros db s Hids Hs Hnew;
    [by apply elem_of_nil in Hs|].
  cbn zeta. rewrite foldl_app. cbn [foldl].
  rewrite fmap_app in Hids. cbn in Hids. apply NoDup_app in Hids as (Hids & Hid' & _).
  set (db1 := foldl _ db sensors).
  assert (Htypes : sensor_type db1 = sensor_type db) by apply insert_sensors_sensor_type.
  apply elem_of_app in Hs as [Hs|Hs].
  - destruct (IH db s Hids Hs Hnew) as [Hrow Hstamp]. fold db1 in Hrow, Hstamp. split.
    + by apply insert_or_ignore_sensor_keeps.
    + by apply insert_or_ignore_sensor_stamped.
  - apply list_elem_of_singleton in Hs as ->.
    rewrite <- Htypes. apply insert_or_ignore_sensor_new.
    apply insert_sensors_absent; [exact Hnew|].
    intros Hin. apply (Hid' _ Hin). by left.
Qed.

Lemma update_station_sensors_listed now station sensors db s :
  well_formed db → NoDup (sensor_id <$> sensors) → s ∈ sensors →
  sensor db !! sensor_id s = None →
  {| sv_id := sensor_id s; sv_codename := sensor_codename s |}
  ∈ fetch_station_sensors (update_station_sensors now station sensors db) station ∧
  fetch_last_station_sensors_update (update_station_sensors now station sensors db) station
  = fromtimestamp now.
Proof.
  intros Hwf Hids Hs Hnew.
  assert (Hwf' : well_formed (update_station_sensors now station sensors db))
    by (by apply well_formed_update_station_sensors).
  unfold update_station_sensors in *.
  set (db1 := update_sensor_types (sensor_codename <$> sensors) db) in *.
  destruct (update_sensor_types_present (sensor_codename <$> sensors) db (sensor_codename s))
    as [t Ht].
  { right. by apply list_elem_of_fmap_2. }
  fold db1 in Ht.
  destruct (insert_sensors_new now station sensors db1 s Hids Hs) as [Hrow Hstamp].
  { subst db1. by rewrite (proj1 (update_sensor_types_frame _ db)). }
  rewrite Ht in Hrow. split.
  - unfold fetch_station_sensors. apply list_elem_of_omap.
    eexists (sensor_id s, _). split.
    + apply elem_of_by_key. apply elem_of_map_to_list. exact Hrow.
    + cbn. rewrite bool_decide_eq_true_2 by done. cbn.
      unfold sensor_type_by_id.
      rewrite (find_by_identifier (λ id, id) _ (sensor_codename s) t); [reflexivity| |].
      * by destruct Hwf' as (_ & _ & Hnd & _).
      * by rewrite insert_sensors_sensor_type.
  - unfold fetch_last_station_sensors_update.
    destruct (station_update _ !! inl station) as [row|]; cbn in Hstamp; [|done].
    by injection Hstamp as ->.
Qed.

(** X8.  After a write of the sensors of a station, each sensor of the list
    that the store did not have is listed for the station with its
    codename, and the station's sensors are stamped with the time of the
    write. *)
Theorem new_sensors_are_listed now station sensors db s :
  well_formed db → NoDup (sensor_id <$> sensors) → s ∈ sensors →
  sensor db !! sensor_id s = None →
  {| sv_id := sensor_id s; sv_codename := sensor_codename s |}
  ∈ fetch_station_sensors (update_station_sensors now station sensors db) station ∧
  fetch_last_station_sensors_update (update_station_sensors now station sensors db) station
  = fromtimestamp now.
Proof. apply update_station_sensors_listed. Qed.

Lemma update_station_sensors_known now station sensors db :
  (∀ id row, sensor db !! id = Some row →
     sensor (update_station_sensors now station sensors db) !! id = Some row) ∧
  ((∀ s, s ∈ sensors → is_Some (sensor db !! sensor_id s)) →
   sensor (update_station_sensors now station sensors db) = sensor db ∧
   station_update (update_station_sensors now station sensors db) = station_update db).
Proof.
  unfold update_station_sensors.
  set (db1 := update_sensor_types (sensor_codename <$> sensors) db).
  destruct (update_sensor_types_frame (sensor_codename <$> sensors) db) as [Hsen Hupd].
  fold db1 in Hsen, Hupd. split.
  - intros id row Hid. apply insert_sensors_keep. by rewrite Hsen.
  - intros Hknown. rewrite foldl_fixed; [done|].
    intros s Hs. unfold insert_or_ignore_sensor. rewrite Hsen.
    destruct (Hknown s Hs) as [row ->]. reflexivity.
Qed.

(** X9.  A sensor the store has is never rewritten: it keeps its station and its
    type whatever list is written; and a write of sensors the store all has
    changes no sensor and no staleness stamp. *)
Theorem stored_sensors_are_kept now station sensors db :
  (∀ id row, sensor db !! id = Some row →
     sensor (update_station_sensors now station sensors db) !! id = Some row) ∧
  ((∀ s, s ∈ sensors → is_Some (sensor db !! sensor_id s)) →
   sensor (update_station_sensors now station sensors db) = sensor db ∧
   station_update (update_station_sensors now station sensors db) = station_update db).
Proof. apply update_station_sensors_known. Qed.

End Sensors.

(** The PM10 sensor of station 5, written to a new store, and written again. *)
Lemma new_sensors_are_listed_witness :
  {| sv_id := 52; sv_codename := "PM10" |}
  ∈ DatabaseClient.fetch_station_sensors
      (DatabaseClient.update_station_sensors 100 5 [Scenario.pm10_sensor]
         DatabaseClient._populate_tables) 5 ∧
  DatabaseClient.fetch_last_station_sensors_update
    (DatabaseClient.update_station_sensors 100 5 [Scenario.pm10_sensor]
       DatabaseClient._populate_tables) 5
  = fromtimestamp 100.
Proof.
  apply (new_sensors_are_listed 100 5 [Scenario.pm10_sensor] DatabaseClient._populate_tables
           Scenario.pm10_sensor).
  - apply (bool_decide_unpack _). vm_compute. exact I.
  - apply (bool_decide_unpack _). vm_compute. exact I.
  - left.
  - reflexivity.
Defined.

Lemma stored_sensors_are_kept_witness :
  DatabaseClient.station_update
    (DatabaseClient.update_station_sensors 900 5 [Scenario.pm10_sensor] Scenario.synced_store)
  = DatabaseClient.station_update Scenario.synced_store.
Proof.
  apply (proj2 (stored_sensors_are_kept 900 5 [Scenario.pm10_sensor] Scenario.synced_store)).
  intros s Hs. apply list_elem_of_singleton in Hs as ->. vm_compute. by eexists.
Defined.

(** ** Air-quality indexes *)

Section LastWritten.

Context `{Countable K} {V B : Type}.
Variables (key_of : B → K) (row_of : B → V).

Lemma last_written_NoDup l b :
  NoDup (key_of <$> l) → b ∈ l →
  last_written key_of row_of (key_of b) l = Some (row_of b).
Proof.
  induction l as [|b' l IH] using rev_ind; intros Hnd Hb; [by apply elem_of_nil in Hb|].
  rewrite fmap_app in Hnd. cbn in Hnd. apply NoDup_app in Hnd as (Hnd & Hnotin & _).
  rewrite last_written_snoc.
  apply elem_of_app in Hb as [Hb|Hb].
  - rewrite decide_False; [by apply IH|].
    intros Heq. apply (Hnotin (key_of b)); [by apply list_elem_of_fmap_2|].
    rewrite Heq. by left.
  - apply list_elem_of_singleton in Hb as ->. by rewrite decide_True.
Qed.

End LastWritten.

Section Indexes.

Import DatabaseClient.

Lemma identifier_determines_key `{Countable K} {V : Type} (id_of : V → Z) (m : gmap K V)
    k1 k2 v1 v2 :
  NoDup (identifiers id_of m) → m !! k1 = Some v1 → m !! k2 = Some v2 →
  id_of v1 = id_of v2 → k1 = k2.
Proof.
  intros Hnd H1 H2 Heq.
  pose proof (find_by_identifier id_of m k1 v1 Hnd H1) as F1.
  pose proof (find_by_identifier id_of m k2 v2 Hnd H2) as F2.
  rewrite Heq in F1. rewrite F1 in F2. by injection F2.
Qed.

Lemma upsert_aq_index_frame now station entry db :
  let db' := upsert_aq_index now station entry db in
  sensor_type db' = sensor_type db ∧
  (∀ other type, other ≠ station → aq_index db' !! (other, type) = aq_index db !! (other, type)) ∧
  (∀ other, other ≠ station →
     station_update db' !! inl other = station_update db !! inl other) ∧
  last_indexes_update_at <$> station_update db' !! inl station = Some now.
Proof.
  cbn zeta. unfold upsert_aq_index, tgr_on_aq_index.
  assert (Hstamp : ∀ m, last_indexes_update_at
                          <$> upsert_last_indexes_update_at now station m !! inl station
                        = Some now).
  { intros m. unfold upsert_last_indexes_update_at.
    destruct (m !! inl station); by rewrite lookup_insert_eq. }
  assert (Hother : ∀ m other, other ≠ station →
            upsert_last_indexes_update_at now station m !! inl other = m !! inl other).
  { intros m other Hne. unfold upsert_last_indexes_update_at.
    destruct (m !! inl station); rewrite lookup_insert_ne; congruence. }
  destruct (sensor_type db !! entry.1) as [type|]; destruct db; cbn.
  - split; [reflexivity|]. split; [|split; [apply Hother|apply Hstamp]].
    intros other t Hne. rewrite lookup_insert_ne; [reflexivity|]. congruence.
  - split; [reflexivity|]. split; [done|]. split; [apply Hother|apply Hstamp].
Qed.

Lemma update_station_air_quality_indexes_frame now station indexes db :
  let db' := update_station_air_quality_indexes now station indexes db in
  sensor_type db' = sensor_type db ∧
  (∀ other type, other ≠ station →
     aq_index db' !! (other, type) = aq_index db !! (other, type)) ∧
  (∀ other, other ≠ station →
     station_update db' !! inl other = station_update db !! inl other) ∧
  fetch_last_station_air_quality_indexes_update db' station = fromtimestamp now.
Proof.
  cbn zeta. unfold update_station_air_quality_indexes.
  set (entries := (OVERALL_SENSOR_TYPE_CODENAME, overall indexes) :: sensors indexes).
  assert (Hne : entries ≠ []) by done. clearbody entries.
  assert (Hfold :
    let db' := foldl (λ db entry, upsert_aq_index now station entry db) db entries in
    sensor_type db' = sensor_type db ∧
    (∀ other type, other ≠ station →
       aq_index db' !! (other, type) = aq_index db !! (other, type)) ∧
    (∀ other, other ≠ station →
       station_update db' !! inl other = station_update db !! inl other) ∧
    last_indexes_update_at <$> station_update db' !! inl station = Some now).
  { induction entries as [|e entries IH] using rev_ind; [done|].
    cbn zeta. rewrite foldl_app. cbn [foldl].
    set (db1 := foldl _ db entries) in *.
    destruct (upsert_aq_index_frame now station e db1) as (Ht & Haq & Hupd & Hstamp).
    destruct entries as [|e0 entries'].
    - subst db1. cbn in *. done.
    - destruct IH as (Ht1 & Haq1 & Hupd1 & _); [done|].
      split; [congruence|]. split; [|split; [|exact Hstamp]].
      + intros other t Hother. rewrite Haq by done. by apply Haq1.
      + intros other Hother. rewrite Hupd by done. by apply Hupd1. }
  cbn zeta in Hfold. destruct Hfold as (Ht & Haq & Hupd & Hstamp).
  split; [exact Ht|]. split; [exact Haq|]. split; [exact Hupd|].
  unfold fetch_last_station_air_quality_indexes_update.
  destruct (station_update _ !! inl station) as [row|]; cbn in Hstamp; [|done].
  by injection Hstamp as ->.
Qed.

(** X10.  A write of the indexes of a station stamps the station's indexes with
    the time of the write, whatever the indexes are, and touches neither
    the index values nor the stamp of any other station. *)
Theorem index_write_is_local now station indexes db :
  let db' := update_station_air_quality_indexes now station indexes db in
  fetch_last_station_air_quality_indexes_update db' station = fromtimestamp now ∧
  ∀ other, other ≠ station →
    fetch_last_station_air_quality_indexes_update db' other
    = fetch_last_station_air_quality_indexes_update db other ∧
    ∀ type_codename,
      fetch_station_air_quality_index_value db' other type_codename
      = fetch_station_air_quality_index_value db other type_codename.
Proof.
  cbn zeta.
  destruct (update_station_air_quality_indexes_frame now station indexes db)
    as (Ht & Haq & Hupd & Hstamp).
  split; [exact Hstamp|]. intros other Hother. split.
  - unfold fetch_last_station_air_quality_indexes_update. by rewrite Hupd.
  - intros t. unfold fetch_station_air_quality_index_value. rewrite Ht.
    destruct (sensor_type db !! t) as [type|]; cbn; [|reflexivity]. by rewrite Haq.
Qed.

Lemma update_station_air_quality_indexes_read now station indexes db entry :
  well_formed db → catalogued db indexes →
  NoDup (fst <$> (OVERALL_SENSOR_TYPE_CODENAME, overall indexes) :: sensors indexes) →
  entry ∈ (OVERALL_SENSOR_TYPE_CODENAME, overall indexes) :: sensors indexes →
  fetch_station_air_quality_index_value
    (update_station_air_quality_indexes now station indexes db) station entry.1
  = index_value entry.2.
Proof.
  intros (_ & _ & Hnd & _) Hcat Hcodes Hentry.
  unfold catalogued in Hcat. unfold update_station_air_quality_indexes.
  set (entries := (OVERALL_SENSOR_TYPE_CODENAME, overall indexes) :: sensors indexes) in *.
  rewrite (upsert_aq_index_fold now station entries db Hcat) by done.
  assert (Htyped : ∀ e, e ∈ entries → is_Some (sensor_type db !! e.1)).
  { intros e He. rewrite forallb_forall in Hcat.
    specialize (Hcat e (proj1 (list_elem_of_In _ _) He)).
    unfold typed in Hcat. by apply bool_decide_eq_true in Hcat. }
  clearbody entries.
  destruct (Htyped entry Hentry) as [type Htype].
  unfold fetch_station_air_quality_index_value.
  assert (Hst : ∀ f g, sensor_type (with_station_update f (with_aq_index g db)) = sensor_type db)
    by (intros; by destruct db).
  assert (Haq : ∀ f g, aq_index (with_station_update f (with_aq_index g db)) = g (aq_index db))
    by (intros; by destruct db).
  rewrite Hst, Haq, Htype. cbn.
  rewrite upserts_lookup.
  replace (station, type) with (aq_key db station entry)
    by (unfold aq_key; by rewrite Htype).
  rewrite last_written_NoDup; [reflexivity| |exact Hentry].
  apply NoDup_fmap_2_strong; [|by eapply NoDup_fmap_1].
  intros e1 e2 He1 He2 Hkey.
  destruct (Htyped e1 He1) as [t1 Ht1], (Htyped e2 He2) as [t2 Ht2].
  unfold aq_key in Hkey. rewrite Ht1, Ht2 in Hkey. cbn in Hkey. injection Hkey as Hkey.
  assert (Hcode : e1.1 = e2.1)
    by exact (identifier_determines_key (λ id, id) _ _ _ _ _ Hnd Ht1 Ht2 Hkey).
  clear -Hcodes He1 He2 Hcode.
  induction entries as [|e entries IH]; [by apply elem_of_nil in He1|].
  cbn in Hcodes. apply NoDup_cons in Hcodes as [Hnotin Hcodes].
  apply elem_of_cons in He1 as [->|He1]; apply elem_of_cons in He2 as [->|He2].
  - reflexivity.
  - destruct Hnotin. rewrite Hcode. by apply list_elem_of_fmap_2.
  - destruct Hnotin. rewrite <- Hcode. by apply list_elem_of_fmap_2.
  - by apply IH.
Qed.

(** X11.  After a write of indexes of sensor types of the catalog, one index per
    type, the value read for the station and a type is the value written. *)
Theorem written_index_is_read now station indexes db entry :
  well_formed db → catalogued db indexes →
  NoDup (fst <$> (OVERALL_SENSOR_TYPE_CODENAME, overall indexes) :: sensors indexes) →
  entry ∈ (OVERALL_SENSOR_TYPE_CODENAME, overall indexes) :: sensors indexes →
  fetch_station_air_quality_index_value
    (update_station_air_quality_indexes now station indexes db) station entry.1
  = index_value entry.2.
Proof. apply update_station_air_quality_indexes_read. Qed.

End Indexes.

(** The record of the five pollutants, written for station 5 of a new
    store: the value read for PM10 is the one written. *)
Lemma written_index_is_read_witness :
  DatabaseClient.fetch_station_air_quality_index_value
    (DatabaseClient.update_station_air_quality_indexes 200 5 Scenario.good_indexes
       DatabaseClient._populate_tables) 5 "PM10"
  = Some 1.
Proof.
  apply (written_index_is_read 200 5 Scenario.good_indexes DatabaseClient._populate_tables
           ("PM10", Scenario.good_index)).
  - apply (bool_decide_unpack _). vm_compute. exact I.
  - vm_compute. reflexivity.
  - apply (bool_decide_unpack _). vm_compute. exact I.
  - right. right. right. left.
Defined.

Lemma index_write_is_local_witness :
  DatabaseClient.fetch_station_air_quality_index_value
    (DatabaseClient.update_station_air_quality_indexes 900 6 Scenario.good_indexes
       Scenario.synced_store) 5 "PM10"
  = DatabaseClient.fetch_station_air_quality_index_value Scenario.synced_store 5 "PM10".
Proof.
  apply (proj2 (index_write_is_local 900 6 Scenario.good_indexes Scenario.synced_store) 5).
  done.
Defined.

(** ** Station metadata *)

Section Meta.

Import DatabaseClient.

Variable integer_affinity : string → key.

Lemma for_each_insert_station_meta now params : ∀ db,
  Forall (λ p : StationMeta * datetime, is_Some (meta_international_codename p.1)) params →
  ∃ db', for_each (λ p, insert_station_meta now (integer_affinity (meta_codename p.1)) p.1 p.2)
           params db = (inr (), db') ∧
         length (station_meta db') = (length (station_meta db) + length params)%nat ∧
         (∀ i row, station_meta db !! i = Some row → station_meta db' !! i = Some row) ∧
         station db' = station db ∧ sensor db' = sensor db ∧ sensor_data db' = sensor_data db ∧
         aq_index db' = aq_index db.
Proof.
  induction params as [|p params IH]; intros db Hall.
  - exists db. cbn. repeat split; [lia|done].
  - apply Forall_cons in Hall as [[code Hcode] Hall].
    cbn [for_each]. unfold bind at 1, insert_station_meta at 1. rewrite Hcode.
    unfold modify at 1.
    set (db1 := tgr_on_station_meta _ _ _).
    destruct (IH db1 Hall) as (db' & Hrun & Hlen & Hkeep & Hst & Hsen & Hdata & Haq).
    exists db'. split; [exact Hrun|].
    assert (Hmeta : station_meta db1 = station_meta db ++
              [{| sm_station_id := integer_affinity (meta_codename p.1);
                  sm_international_codename := code;
                  sm_launch_date := meta_launch_date p.1;
                  sm_shutdown_date := Some p.2; sm_type := meta_type p.1 |}])
      by (subst db1; by destruct db).
    split; [|split].
    + rewrite Hlen, Hmeta, length_app. cbn. lia.
    + intros i row Hi. apply Hkeep. rewrite Hmeta. by apply lookup_app_l_Some.
    + subst db1. destruct db; cbn in *. done.
Qed.

(** X12.  The table of station metadata has no key: a write of records that all
    have a close date and an international codename adds one row per
    record and replaces none, so writing the same records again doubles
    them. *)
Theorem update_station_meta_accumulates now meta db :
  Forall (λ m, is_Some (meta_close_date m) ∧ is_Some (meta_international_codename m)) meta →
  ∃ db', update_station_meta integer_affinity now meta db = (inr (), db') ∧
         length (station_meta db') = (length (station_meta db) + length meta)%nat ∧
         ∀ i row, station_meta db !! i = Some row → station_meta db' !! i = Some row.
Proof.
  intros Hall. unfold update_station_meta.
  assert (Hparams : ∃ params,
    map_result (λ m, match meta_close_date m with
                     | Some d => inr (m, d)
                     | None => inl AttributeError
                     end) meta = inr params ∧
    length params = length meta ∧
    Forall (λ p : StationMeta * datetime, is_Some (meta_international_codename p.1)) params).
  { induction Hall as [|m meta [[d Hd] Hcode] Hall IH].
    - by exists [].
    - destruct IH as (params & Hp & Hlen & Hcodes). exists ((m, d) :: params).
      cbn. rewrite Hd. cbn. rewrite Hp. cbn. split; [reflexivity|].
      split; [by rewrite Hlen|]. by constructor. }
  destruct Hparams as (params & Hp & Hlen & Hcodes).
  unfold bind at 1, lift_result at 1. rewrite Hp.
  destruct (for_each_insert_station_meta now params db Hcodes)
    as (db' & Hrun & Hlen' & Hkeep & _).
  exists db'. split; [exact Hrun|]. split; [by rewrite Hlen', Hlen|exact Hkeep].
Qed.

End Meta.

(** The metadata of a closed station, written twice: two rows. *)
Lemma update_station_meta_accumulates_witness :
  ∃ db', DatabaseClient.update_station_meta Instances.integer_affinity 400
           [Scenario.closed_meta]
           (DatabaseClient.update_station_meta Instances.integer_affinity 300
              [Scenario.closed_meta] DatabaseClient._populate_tables).2
         = (inr (), db') ∧
         length (DatabaseClient.station_meta db') = 2%nat.
Proof.
  destruct (update_station_meta_accumulates Instances.integer_affinity 400
              [Scenario.closed_meta]
              (DatabaseClient.update_station_meta Instances.integer_affinity 300
                 [Scenario.closed_meta] DatabaseClient._populate_tables).2)
    as (db' & Hrun & Hlen & _).
  - repeat constructor; by eexists.
  - exists db'. split; [exact Hrun|]. rewrite Hlen. vm_compute. reflexivity.
Defined.

Section Stamp.

Import DatabaseClient.

Lemma update_stations_stamp now stations db :
  is_Some (global_update db !! STATION_LIST) →
  get_last_stations_update (update_stations now stations db)
  = match stations with
    | [] => get_last_stations_update db
    | _ => inr (fromtimestamp now)
    end.
Proof.
  intros [t Ht]. unfold update_stations.
  set (db1 := foldl (λ db s, insert_or_ignore_city s db) db stations).
  rewrite (insert_or_replace_stations_run now stations db1).
  assert (Hg : global_update db1 = global_update db)
    by apply (insert_cities_frame stations db).
  unfold get_last_stations_update.
  assert (Hgu : ∀ f g a, global_update (with_global_update f (with_station g a))
                         = f (global_update a)) by (intros; by destruct a).
  rewrite Hgu, Hg.
  destruct stations as [|s stations]; [reflexivity|].
  destruct (insert_cities_present (s :: stations) db (station_city s)) as [c Hc].
  { right. cbn. by left. }
  fold db1 in Hc. cbn [omap list_omap]. unfold station_entry at 1. rewrite Hc. cbn.
  rewrite lookup_alter_eq, Ht. reflexivity.
Qed.

(** X13.  A write of stations stamps the station list with the time of the
    write when the list has a station, and leaves the stamp as it was when
    the list is empty. *)
Theorem station_list_stamp now stations db :
  is_Some (global_update db !! STATION_LIST) →
  get_last_stations_update (update_stations now stations db)
  = match stations with
    | [] => get_last_stations_update db
    | _ => inr (fromtimestamp now)
    end.
Proof. apply update_stations_stamp. Qed.

End Stamp.

Lemma station_list_stamp_witness :
  DatabaseClient.get_last_stations_update
    (DatabaseClient.update_stations 100 [Scenario.wroclaw] DatabaseClient._populate_tables)
  = inr (fromtimestamp 100).
Proof.
  apply (station_list_stamp 100 [Scenario.wroclaw] DatabaseClient._populate_tables).
  vm_compute. by eexists.
Defined.

(** * Further properties of the remote API client *)

(** ** What every fetch does to the client *)

Section ThroughGet.

Import APIClient.

Variable remote : list request → request → response.
Variable int_of_str : string → option Z.
Variable fromisoformat : string → option datetime.

(** A relation between the states of the client before and after a call,
    that holds of no call at all, composes, and holds of every [_get]. *)
Variable R : api_state → api_state → Prop.
Hypothesis R_refl : ∀ st, R st st.
Hypothesis R_trans : ∀ st1 st2 st3, R st1 st2 → R st2 st3 → R st1 st3.
Hypothesis R_get : ∀ endpoint page size args st,
  R st (_get remote endpoint page size args st).2.

Lemma through_ret {S A} (proj : S → api_state) (a : A) : through R proj (ret a).
Proof. intros s. apply R_refl. Qed.

Lemma through_raise {S A} (proj : S → api_state) e : through R proj (@raise S A e).
Proof. intros s. apply R_refl. Qed.

Lemma through_lift_result {S A} (proj : S → api_state) (r : result A) :
  through R proj (lift_result r).
Proof. intros s. apply R_refl. Qed.

Lemma through_bind {S A B} (proj : S → api_state) (c : M S A) (k : A → M S B) :
  through R proj c → (∀ a, through R proj (k a)) → through R proj (bind c k).
Proof.
  intros Hc Hk s. unfold bind. specialize (Hc s).
  destruct (c s) as [[e|a] s1]; cbn in *; [exact Hc|].
  eapply R_trans; [exact Hc|]. apply Hk.
Qed.

Lemma through_on_fst {T A} (c : M api_state A) :
  through R id c → through R (fst : api_state * T → api_state) (on_fst c).
Proof.
  intros Hc [st t]. unfold on_fst. cbn. specialize (Hc st). cbn in Hc.
  by destruct (c st) as [r st'].
Qed.

Lemma through_on_snd {T A} (c : M T A) :
  through R (fst : api_state * T → api_state) (on_snd c).
Proof. intros [st t]. unfold on_snd. cbn. destruct (c t). cbn. apply R_refl. Qed.

Lemma through_get endpoint page size args : through R id (_get remote endpoint page size args).
Proof. intros st. apply R_get. Qed.

Lemma through_collect_pages endpoint target args count : ∀ page acc,
  through R id (collect_pages remote endpoint target args page count acc).
Proof.
  induction count as [|count IH]; intros page acc; cbn [collect_pages].
  - apply through_ret.
  - apply through_bind; [apply through_get|]. intros response.
    apply through_bind; [apply through_lift_result|]. intros fragment.
    apply through_bind; [apply through_lift_result|]. intros acc'. apply IH.
Qed.

Lemma through_get_collected endpoint target size args :
  through R id (_get_collected remote int_of_str endpoint target size args).
Proof.
  unfold _get_collected.
  apply through_bind; [apply through_get|]. intros response.
  apply through_bind; [apply through_lift_result|]. intros total.
  apply through_bind; [apply through_lift_result|]. intros fragment.
  apply through_bind; [|intros acc; apply through_collect_pages].
  destruct fragment; first [apply through_ret | apply through_raise].
Qed.

Lemma through_each_page {T} endpoint target (callback : json → M T unit) args count : ∀ page,
  through R fst (each_page remote endpoint target callback args page count).
Proof.
  induction count as [|count IH]; intros page; cbn [each_page].
  - apply through_ret.
  - apply through_bind; [apply through_on_fst, through_get|]. intros response.
    apply through_bind; [apply through_lift_result|]. intros fragment.
    apply through_bind; [apply through_on_snd|]. intros _. apply IH.
Qed.

Lemma through_get_each {T} endpoint target (callback : json → M T unit) size args :
  through R fst (_get_each remote int_of_str endpoint target callback size args).
Proof.
  unfold _get_each.
  apply through_bind; [apply through_on_fst, through_get|]. intros response.
  apply through_bind; [apply through_lift_result|]. intros total.
  destruct (Z.to_nat total); [apply through_ret|].
  apply through_bind; [apply through_lift_result|]. intros fragment.
  apply through_bind; [apply through_on_snd|]. intros _. apply through_each_page.
Qed.

(** Every public fetch acts on the client through [_get] alone. *)
Lemma through_fetches :
  through R id (fetch_stations remote int_of_str) ∧
  (∀ city codename, through R id (fetch_station_meta remote int_of_str fromisoformat
                                    city codename)) ∧
  (∀ station, through R id (fetch_air_quality_indexes remote int_of_str fromisoformat station)) ∧
  (∀ station, through R id (fetch_station_sensors remote int_of_str station)) ∧
  (∀ sensor, through R id (fetch_sensor_data remote int_of_str fromisoformat sensor)) ∧
  (∀ sensor date_from date_to days,
     through R id (fetch_sensor_archival_data remote int_of_str fromisoformat
                     sensor date_from date_to days)).
Proof.
  repeat split.
  - apply through_bind; [apply through_get_collected|]. intros raw. apply through_lift_result.
  - intros city codename.
    apply through_bind; [apply through_get_collected|]. intros raw. apply through_lift_result.
  - intros station.
    apply through_bind; [apply through_get_collected|]. intros raw. apply through_lift_result.
  - intros station.
    apply through_bind; [apply through_get_collected|]. intros raw. apply through_lift_result.
  - intros sensor st. unfold fetch_sensor_data.
    pose proof (through_get_each (DataGetData sensor) "Lista danych pomiarowych"
                  (collect_current fromisoformat) 500 [] (st, [])) as Hrun.
    cbn in Hrun. destruct (_get_each _ _ _ _ _ _ _ _) as [[e|[]] [st' data]]; exact Hrun.
  - intros sensor date_from date_to days st. unfold fetch_sensor_archival_data.
    pose proof (through_get_each (ArchivalDataGetDataBySensor sensor)
                  "Lista archiwalnych wyników pomiarów" (collect_archival fromisoformat) 500
                  (archival_params date_from date_to days) (st, [])) as Hrun.
    cbn in Hrun. destruct (_get_each _ _ _ _ _ _ _ _) as [[e|[]] [st' data]]; [|exact Hrun].
    destruct e; try exact Hrun. destruct (is_rate_limit_code code); exact Hrun.
Qed.

End ThroughGet.

Section Notifications.

Import APIClient.

Lemma last_cons (v : bool) l d : List.last (v :: l) d = List.last l v.
Proof.
  revert v d. induction l as [|b l IH]; intros v d; [reflexivity|].
  change (List.last (v :: b :: l) d) with (List.last (b :: l) d).
  by rewrite (IH b d), (IH b v).
Qed.

Lemma alternates_app previous news1 news2 :
  alternates previous news1 = true →
  alternates (List.last news1 previous) news2 = true →
  alternates previous (news1 ++ news2) = true.
Proof.
  revert previous. induction news1 as [|v news1 IH]; intros previous H1 H2; [exact H2|].
  cbn [alternates app] in H1 |- *. apply andb_prop in H1 as [Hv H1]. rewrite Hv. cbn [andb].
  apply IH; [exact H1|]. by rewrite last_cons in H2.
Qed.

Lemma last_app_default (news1 news2 : list bool) d :
  List.last (news1 ++ news2) d = List.last news2 (List.last news1 d).
Proof.
  revert d. induction news1 as [|v news1 IH]; intros d; [reflexivity|].
  rewrite <- app_comm_cons, !last_cons. apply IH.
Qed.

Lemma notifies_changes_refl st : notifies_changes st st.
Proof.
  split; [reflexivity|]. exists []. rewrite app_nil_r. split; [reflexivity|].
  by destruct (connection_status_changed st).
Qed.

Lemma notifies_changes_trans st1 st2 st3 :
  notifies_changes st1 st2 → notifies_changes st2 st3 → notifies_changes st1 st3.
Proof.
  intros (Hc1 & news1 & Hn1 & H1) (Hc2 & news2 & Hn2 & H2).
  split; [congruence|]. exists (news1 ++ news2).
  split; [by rewrite Hn2, Hn1, app_assoc|].
  rewrite Hc1 in H2. destruct (connection_status_changed st1).
  - destruct H1 as [Ha1 Hs1], H2 as [Ha2 Hs2]. rewrite Hs1 in Ha2. split.
    + by apply alternates_app.
    + by rewrite last_app_default, <- Hs1.
  - by subst.
Qed.

Lemma notifies_changes_set value st : notifies_changes st (set_connection_status value st).
Proof.
  unfold set_connection_status. case_bool_decide as Hv; [apply notifies_changes_refl|].
  split; [reflexivity|]. cbn.
  destruct (connection_status_changed st) eqn:Hcb.
  - exists [value]. split; [reflexivity|]. split; [|reflexivity].
    cbn. rewrite andb_true_r. destruct value, (_connection_status st); done.
  - exists []. by rewrite app_nil_r.
Qed.

Lemma notifies_changes_log rq st : notifies_changes st (log_request rq st).
Proof.
  split; [reflexivity|]. exists []. cbn. rewrite app_nil_r. split; [reflexivity|].
  by destruct (connection_status_changed st).
Qed.

Lemma notifies_changes_get remote endpoint page size args st :
  notifies_changes st (_get remote endpoint page size args st).2.
Proof.
  unfold _get.
  destruct (remote _ _) as [e|[payload|]|[body|]]; try destruct (is_ConnectionError e); cbn;
    try (eapply notifies_changes_trans;
         [apply notifies_changes_log|apply notifies_changes_set]);
    try apply notifies_changes_log.
Qed.

(** X14.  The callback of the connection status is called on changes only:
    whatever the remote does, the values a public fetch notifies alternate,
    starting from the other value than the status the fetch found, and the
    status after the fetch is the last value notified; without a callback
    nothing is notified. *)
Theorem status_notifications remote int_of_str fromisoformat st :
  notifies_changes st (fetch_stations remote int_of_str st).2 ∧
  (∀ city codename,
     notifies_changes st
       (fetch_station_meta remote int_of_str fromisoformat city codename st).2) ∧
  (∀ station,
     notifies_changes st
       (fetch_air_quality_indexes remote int_of_str fromisoformat station st).2) ∧
  (∀ station,
     notifies_changes st (fetch_station_sensors remote int_of_str station st).2) ∧
  (∀ sensor,
     notifies_changes st (fetch_sensor_data remote int_of_str fromisoformat sensor st).2) ∧
  (∀ sensor date_from date_to days,
     notifies_changes st
       (fetch_sensor_archival_data remote int_of_str fromisoformat
          sensor date_from date_to days st).2).
Proof.
  destruct (through_fetches remote int_of_str fromisoformat notifies_changes
              notifies_changes_refl notifies_changes_trans
              (notifies_changes_get remote))
    as (H1 & H2 & H3 & H4 & H5 & H6).
  split; [apply H1|]. split; [intros; apply H2|]. split; [intros; apply H3|].
  split; [intros; apply H4|]. split; [intros; apply H5|]. intros; apply H6.
Qed.

End Notifications.

(** ** The streamed fetches, page by page *)

Section StreamedPages.

Import APIClient.

Variable remote : list request → request → response.
Variable int_of_str : string → option Z.
Variable fromisoformat : string → option datetime.

Section Each.

Context {T : Type}.
Variables (endpoint : endpoint) (target : string) (size : Z).
Variable args : list (string * query_value).
Variable callback : json → M T unit.

#[local] Abbreviation page_request := (page_request endpoint size args).
#[local] Abbreviation page_requests := (page_requests endpoint size args).

Lemma each_page_served count :
  ∀ page st acc history fragments bodies acc',
    requested st = history ++ page_requests (S page) →
    length fragments = count →
    Forall2 (λ body fragment, get_method body target JNull = inr fragment) bodies fragments →
    (∀ k body, bodies !! k = Some body →
       remote (history ++ page_requests (S page + k)) (page_request (S page + k))
       = HttpOk (Some body)) →
    for_each callback fragments acc = (inr (), acc') →
    ∃ st',
      each_page remote endpoint target callback args (Z.of_nat (S page)) count (st, acc)
      = (inr (), (st', acc')) ∧
      requested st' = history ++ page_requests (S page + count).
Proof.
  induction count as [|count IH];
    intros page st acc history fragments bodies acc' Hreq Hlen Hfrag Hserve Hrun.
  - destruct fragments; [|done]. cbn in Hrun. injection Hrun as <-.
    exists st. split; [reflexivity|]. rewrite Hreq. f_equal. f_equal. lia.
  - destruct fragments as [|f fs]; [done|].
    inversion Hfrag as [|body ? bodies' ? Hbody Hrest]; subst.
    pose proof (Hserve 0%nat body eq_refl) as H0.
    rewrite Nat.add_0_r, <- Hreq in H0.
    cbn [each_page].
    unfold bind at 1, on_fst at 1. cbn [fst snd].
    rewrite (_get_ok remote endpoint args st (Z.of_nat (S page)) 100 body H0).
    unfold bind at 1, lift_result at 1. rewrite Hbody.
    cbn [for_each] in Hrun. unfold bind in Hrun.
    destruct (callback f acc) as [[e|[]] acc1] eqn:Hcb; [done|].
    unfold bind at 1, on_snd at 1. cbn [fst snd]. rewrite Hcb.
    replace (Z.of_nat (S page) + 1) with (Z.of_nat (S (S page))) by lia.
    destruct (IH (S page)
      (set_connection_status true
         (log_request {| rq_endpoint := endpoint; rq_page := Z.of_nat (S page);
                         rq_size := 100; rq_args := args |} st))
      acc1 history fs bodies' acc') as (st' & IH1 & IH2).
    + rewrite requested_set_connection_status. unfold log_request. cbn [requested].
      rewrite Hreq, (page_requests_S endpoint size args (S page)), <- app_assoc. reflexivity.
    + simpl in Hlen. lia.
    + exact Hrest.
    + intros k b Hk. specialize (Hserve (S k) b Hk).
      replace (S (S page) + k)%nat with (S page + S k)%nat by lia. exact Hserve.
    + exact Hrun.
    + exists st'. split; [exact IH1|]. rewrite IH2. f_equal. f_equal. lia.
Qed.

Lemma _get_each_served st acc fragments acc' :
  streamed remote int_of_str endpoint target size args (requested st) fragments →
  for_each callback fragments acc = (inr (), acc') →
  ∃ st',
    _get_each remote int_of_str endpoint target callback size args (st, acc)
    = (inr (), (st', acc')) ∧
    requested st' = requested st ++ page_requests (length fragments).
Proof.
  intros (bodies & total & Hfrag & Hserve & Htotal & Hpos & Hlen) Hrun.
  destruct fragments as [|f fs]; [cbn in Hlen; lia|].
  inversion Hfrag as [|body ? bodies' ? Hbody Hrest]; subst.
  pose proof (Hserve 0%nat body eq_refl) as H0. cbn in H0. rewrite app_nil_r in H0.
  cbn in Htotal. injection Htotal as Htotal.
  unfold _get_each.
  unfold bind at 1, on_fst at 1. cbn [fst snd].
  rewrite (_get_ok remote endpoint args st 0 size body H0).
  unfold bind at 1, lift_result at 1. rewrite Htotal.
  cbn [length] in Hlen. rewrite <- Hlen.
  unfold bind at 1, lift_result at 1. rewrite Hbody.
  cbn [for_each] in Hrun. unfold bind in Hrun.
  destruct (callback f acc) as [[e|[]] acc1] eqn:Hcb; [done|].
  unfold bind at 1, on_snd at 1. cbn [fst snd]. rewrite Hcb.
  destruct (each_page_served (length fs) 0%nat
              (set_connection_status true
                 (log_request {| rq_endpoint := endpoint; rq_page := 0; rq_size := size;
                                 rq_args := args |} st))
              acc1 (requested st) fs bodies' acc') as (st' & H1 & H2).
  - rewrite requested_set_connection_status. reflexivity.
  - reflexivity.
  - exact Hrest.
  - intros k b Hk. exact (Hserve (S k) b Hk).
  - exact Hrun.
  - exists st'. split; [exact H1|]. rewrite H2. reflexivity.
Qed.

End Each.

(** *** The two callbacks *)

Lemma reading_entry_value p :
  get_method (reading_entry p) "Wartość" JNull
  = inr (match reading_value p with Some x => JFloat x | None => JNull end).
Proof.
  unfold reading_entry, get_method.
  rewrite lookup_insert_ne by done. by rewrite lookup_singleton_eq.
Qed.

Lemma reading_entry_date p :
  subscript (reading_entry p) "Data" = inr (JStr (reading_text p)).
Proof. unfold reading_entry, subscript. by rewrite lookup_insert_eq. Qed.

Lemma collect_current_readings ps : ∀ acc,
  Forall (λ p, fromisoformat (reading_text p) = Some (reading_date p)) ps →
  collect_current fromisoformat (JList (reading_entry <$> ps)) acc
  = (inr (), acc ++ (reading_data <$> filter (λ p, is_Some (reading_value p)) ps)).
Proof.
  unfold collect_current. unfold bind at 1, lift_result at 1. cbn [iterate].
  induction ps as [|p ps IH]; intros acc Hall; cbn [fmap list_fmap for_each].
  - unfold ret. by rewrite filter_nil, app_nil_r.
  - apply Forall_cons in Hall as [Hp Hall].
    rewrite filter_cons.
    unfold bind at 1. unfold bind at 1, lift_result at 1.
    rewrite reading_entry_value.
    destruct p as [text date [x|]]; cbn [reading_value reading_text reading_date] in *.
    + unfold bind at 1, lift_result at 1. rewrite reading_entry_date. cbn [bind_result].
      unfold py_fromisoformat. cbn [reading_text]. rewrite Hp.
      unfold bind at 1, lift_result at 1. cbn [as_float].
      unfold append, modify. rewrite (IH _ Hall).
      rewrite decide_True by (by eexists).
      cbn. rewrite <- app_assoc. reflexivity.
    + unfold ret. rewrite (IH _ Hall).
      rewrite decide_False; [reflexivity|]. by intros [? ?].
Qed.

Lemma collect_archival_readings ps : ∀ acc,
  Forall (λ p, fromisoformat (reading_text p) = Some (reading_date p)) ps →
  collect_archival fromisoformat (JList (reading_entry <$> ps)) acc
  = (inr (), acc ++ (reading_data <$> ps)).
Proof.
  unfold collect_archival. unfold bind at 1, lift_result at 1. cbn [iterate].
  induction ps as [|p ps IH]; intros acc Hall; cbn [fmap list_fmap for_each].
  - unfold ret. by rewrite app_nil_r.
  - apply Forall_cons in Hall as [Hp Hall].
    unfold bind at 1. unfold bind at 1, lift_result at 1.
    rewrite reading_entry_date. cbn [bind_result]. unfold py_fromisoformat. rewrite Hp.
    unfold bind at 1, lift_result at 1. rewrite reading_entry_value.
    unfold bind at 1, lift_result at 1.
    assert (Hv : as_optional as_float "value"
                   (match reading_value p with Some x => JFloat x | None => JNull end)
                 = inr (reading_value p)) by (by destruct (reading_value p)).
    rewrite Hv. unfold append, modify. rewrite (IH _ Hall).
    cbn. rewrite <- app_assoc. reflexivity.
Qed.

Lemma for_each_pages (callback : json → M (list SensorData) unit)
    (decode : list reading → list SensorData) pages :
  (∀ ps acc, ps ∈ pages → callback (JList (reading_entry <$> ps)) acc = (inr (), acc ++ decode ps)) →
  ∀ acc,
    for_each callback ((λ ps, JList (reading_entry <$> ps)) <$> pages) acc
    = (inr (), acc ++ concat (decode <$> pages)).
Proof.
  induction pages as [|ps pages IH]; intros Hcb acc; cbn [fmap list_fmap for_each concat].
  - unfold ret. by rewrite app_nil_r.
  - unfold bind. rewrite Hcb by (by left).
    rewrite IH; [by rewrite app_assoc|]. intros ps' acc' Hps'. apply Hcb. by right.
Qed.

Lemma elem_of_concat {A} (x : A) (ls : list (list A)) l :
  x ∈ l → l ∈ ls → x ∈ concat ls.
Proof.
  intros Hx Hl. apply list_elem_of_In, in_concat. exists l.
  split; by apply list_elem_of_In.
Qed.

Lemma concat_decode (decode : list reading → list SensorData) (f : list reading → list reading)
    pages :
  (∀ ps, decode ps = reading_data <$> f ps) → (∀ l1 l2, f (l1 ++ l2) = f l1 ++ f l2) →
  f [] = [] →
  concat (decode <$> pages) = reading_data <$> f (concat pages).
Proof.
  intros Hd Hf Hnil. induction pages as [|ps pages IH]; cbn; [by rewrite Hnil|].
  by rewrite IH, Hd, Hf, fmap_app.
Qed.

(** X15.  The current measurements of a sensor, over the pages of the service:
    the pages are requested in ascending order, the first with 500 records
    a page and the later ones with the default 100, and the fetch returns
    the measurements that have a value, in the order of the pages; those
    without a value are left out. *)
Theorem current_readings_with_value sensor st pages :
  Forall (λ p, fromisoformat (reading_text p) = Some (reading_date p)) (concat pages) →
  streamed remote int_of_str (DataGetData sensor) "Lista danych pomiarowych" 500 []
    (requested st) ((λ ps, JList (reading_entry <$> ps)) <$> pages) →
  ∃ st',
    fetch_sensor_data remote int_of_str fromisoformat sensor st
    = (inr (reading_data <$> filter (λ p, is_Some (reading_value p)) (concat pages)), st') ∧
    requested st'
    = requested st ++ page_requests (DataGetData sensor) 500 [] (length pages).
Proof.
  intros Hdates Hpages.
  destruct (_get_each_served (DataGetData sensor) "Lista danych pomiarowych" 500 []
              (collect_current fromisoformat) st [] _
              (reading_data <$> filter (λ p, is_Some (reading_value p)) (concat pages))
              Hpages) as (st' & Hrun & Hreq).
  - rewrite (for_each_pages _ (λ ps, reading_data <$> filter (λ p, is_Some (reading_value p)) ps)).
    + cbn. f_equal. apply (concat_decode _ (filter (λ p, is_Some (reading_value p)))); try done.
      intros l1 l2. apply filter_app.
    + intros ps acc Hps. apply collect_current_readings.
      rewrite Forall_forall in Hdates |- *. intros p Hp. apply Hdates.
      by apply (elem_of_concat _ _ ps).
  - exists st'. unfold fetch_sensor_data. rewrite Hrun. split; [reflexivity|].
    by rewrite Hreq, length_fmap.
Qed.

(** X16.  The archival measurements of a sensor, over the pages of the service:
    the pages are requested the same way, and the fetch returns every
    measurement, with its value or with none, in the order of the pages. *)
Theorem archival_readings_all sensor date_from date_to days st pages :
  Forall (λ p, fromisoformat (reading_text p) = Some (reading_date p)) (concat pages) →
  streamed remote int_of_str (ArchivalDataGetDataBySensor sensor)
    "Lista archiwalnych wyników pomiarów" 500 (archival_params date_from date_to days)
    (requested st) ((λ ps, JList (reading_entry <$> ps)) <$> pages) →
  ∃ st',
    fetch_sensor_archival_data remote int_of_str fromisoformat sensor date_from date_to days st
    = (inr (reading_data <$> concat pages), st') ∧
    requested st'
    = requested st ++
      page_requests (ArchivalDataGetDataBySensor sensor) 500
        (archival_params date_from date_to days) (length pages).
Proof.
  intros Hdates Hpages.
  destruct (_get_each_served (ArchivalDataGetDataBySensor sensor)
              "Lista archiwalnych wyników pomiarów" 500 (archival_params date_from date_to days)
              (collect_archival fromisoformat) st [] _
              (reading_data <$> concat pages) Hpages) as (st' & Hrun & Hreq).
  - rewrite (for_each_pages _ (λ ps, reading_data <$> ps)).
    + cbn. f_equal. by apply (concat_decode _ (λ ps, ps)).
    + intros ps acc Hps. apply collect_archival_readings.
      rewrite Forall_forall in Hdates |- *. intros p Hp. apply Hdates.
      by apply (elem_of_concat _ _ ps).
  - exists st'. unfold fetch_sensor_archival_data. rewrite Hrun. split; [reflexivity|].
    by rewrite Hreq, length_fmap.
Qed.

End StreamedPages.

(** Two pages of the current-data endpoint: the measurement of 09:00 has no
    value and is left out. *)
Lemma current_readings_with_value_witness :
  ∃ st',
    APIClient.fetch_sensor_data Streams.two_page_remote Instances.decimal
      Instances.iso_datetime 52 APIClient.new_api_client
    = (inr [{| data_date := Scenario.may_1st 8;
               data_value := Some (QArith_base.inject_Z 17) |};
            {| data_date := Scenario.may_1st 12;
               data_value := Some (QArith_base.Qmake 43 2) |}], st') ∧
    APIClient.rq_size <$> APIClient.requested st' = [500; 100].
Proof.
  destruct (current_readings_with_value Streams.two_page_remote Instances.decimal
              Instances.iso_datetime 52 APIClient.new_api_client
              [Streams.morning; Streams.noon]) as (st' & Hrun & Hreq).
  - repeat constructor.
  - exists [Streams.page_body (APIClient.DataGetData 52) Streams.morning;
            Streams.page_body (APIClient.DataGetData 52) Streams.noon], 2.
    split; [repeat constructor|]. split; [|done].
    intros k body Hk. destruct k as [|[|k]]; cbn in Hk; [| |done];
      injection Hk as <-; reflexivity.
  - exists st'. split; [exact Hrun|]. rewrite Hreq. reflexivity.
Defined.

(** The same pages of the archival endpoint: the measurement of 09:00 is
    returned, without a value. *)
Lemma archival_readings_all_witness :
  ∃ st',
    APIClient.fetch_sensor_archival_data Streams.two_page_remote Instances.decimal
      Instances.iso_datetime 52 (Some (Scenario.may_1st 8)) (Some (Scenario.may_1st 12)) None
      APIClient.new_api_client
    = (inr [{| data_date := Scenario.may_1st 8;
               data_value := Some (QArith_base.inject_Z 17) |};
            {| data_date := Scenario.may_1st 9; data_value := None |};
            {| data_date := Scenario.may_1st 12;
               data_value := Some (QArith_base.Qmake 43 2) |}], st') ∧
    APIClient.rq_size <$> APIClient.requested st' = [500; 100].
Proof.
  destruct (archival_readings_all Streams.two_page_remote Instances.decimal
              Instances.iso_datetime 52 (Some (Scenario.may_1st 8))
              (Some (Scenario.may_1st 12)) None APIClient.new_api_client
              [Streams.morning; Streams.noon]) as (st' & Hrun & Hreq).
  - repeat constructor.
  - exists [Streams.page_body (APIClient.ArchivalDataGetDataBySensor 52) Streams.morning;
            Streams.page_body (APIClient.ArchivalDataGetDataBySensor 52) Streams.noon], 2.
    split; [repeat constructor|]. split; [|done].
    intros k body Hk. destruct k as [|[|k]]; cbn in Hk; [| |done];
      injection Hk as <-; reflexivity.
  - exists st'. split; [exact Hrun|]. rewrite Hreq. reflexivity.
Defined.

(** ** The collected fetches, decoded *)

Section Decoding.

Import APIClient.

Variable remote : list request → request → response.
Variable int_of_str : string → option Z.

Lemma station_of_entry_json s : station_of_entry (station_json s) = inr s.
Proof.
  unfold station_of_entry, station_json, subscript.
  repeat (rewrite ?lookup_insert_eq, ?lookup_singleton_eq;
          try (rewrite lookup_insert_ne by done); cbn [bind_result]).
  destruct s as [id codename name district voivodeship city [address|] lat lon]; reflexivity.
Qed.

Lemma sensor_of_entry_json s : sensor_of_entry (sensor_json s) = inr s.
Proof.
  unfold sensor_of_entry, sensor_json, subscript.
  repeat (rewrite ?lookup_insert_eq, ?lookup_singleton_eq;
          try (rewrite lookup_insert_ne by done); cbn [bind_result]).
  by destruct s.
Qed.

Lemma map_result_fmap {A B} (f : B → result A) (g : A → B) l :
  (∀ x, f (g x) = inr x) → map_result f (g <$> l) = inr l.
Proof.
  intros Hfg. induction l as [|x l IH]; cbn; [reflexivity|]. by rewrite Hfg, IH.
Qed.

Lemma merge_all_encoded {A} (encode : A → json) (pages : list (list A)) : ∀ acc,
  merge_all (JList acc) ((λ page, JList (encode <$> page)) <$> pages)
  = inr (JList (acc ++ (encode <$> concat pages))).
Proof.
  induction pages as [|page pages IH]; intros acc; cbn.
  - by rewrite app_nil_r.
  - rewrite IH, fmap_app, app_assoc. reflexivity.
Qed.

Lemma _get_collected_lists {A} (encode : A → json) endpoint target st (pages : list (list A)) :
  paginated remote int_of_str endpoint target 100 [] (requested st)
    ((λ page, JList (encode <$> page)) <$> pages) →
  ∃ st',
    _get_collected remote int_of_str endpoint target 100 [] st
    = (inr (JList (encode <$> concat pages)), st') ∧
    requested st' = requested st ++ page_requests endpoint 100 [] (length pages).
Proof.
  intros Hpages.
  destruct (_get_collected_served remote int_of_str endpoint target 100 [] st _ Hpages)
    as (st' & Hrun & Hreq).
  assert (Hcollected :
    collected ((λ page, JList (encode <$> page)) <$> pages)
    = inr (JList (encode <$> concat pages))).
  { destruct pages as [|page pages].
    - by destruct Hpages as (? & ? & ? & ? & ? & ?).
    - cbn [fmap list_fmap collected concat].
      rewrite (merge_all_encoded encode). by rewrite fmap_app. }
  rewrite Hcollected in Hrun, Hreq. exists st'. split; [exact Hrun|].
  rewrite Hreq by reflexivity. by rewrite length_fmap.
Qed.

(** X17.  The list of stations, over the pages of the service: the pages are
    requested in ascending order and the fetch returns the stations they
    hold, decoded, in the order of the pages. *)
Theorem fetch_stations_decodes st pages :
  paginated remote int_of_str StationFindAll "Lista stacji pomiarowych" 100 []
    (requested st) ((λ page, JList (station_json <$> page)) <$> pages) →
  ∃ st',
    fetch_stations remote int_of_str st = (inr (concat pages), st') ∧
    requested st' = requested st ++ page_requests StationFindAll 100 [] (length pages).
Proof.
  intros Hpages.
  destruct (_get_collected_lists station_json _ _ st pages Hpages) as (st' & Hrun & Hreq).
  exists st'. split; [|exact Hreq].
  unfold fetch_stations. rewrite (bind_ok _ _ _ _ _ Hrun).
  unfold lift_result. cbn [iterate bind_result].
  by rewrite (map_result_fmap _ _ _ station_of_entry_json).
Qed.

(** X18.  The sensors of a station, over the pages of the service: the pages
    are requested in ascending order and the fetch returns the sensors they
    hold, decoded, in the order of the pages. *)
Theorem fetch_station_sensors_decodes station st pages :
  paginated remote int_of_str (StationSensors station)
    "Lista stanowisk pomiarowych dla podanej stacji" 100 []
    (requested st) ((λ page, JList (sensor_json <$> page)) <$> pages) →
  ∃ st',
    fetch_station_sensors remote int_of_str station st = (inr (concat pages), st') ∧
    requested st'
    = requested st ++ page_requests (StationSensors station) 100 [] (length pages).
Proof.
  intros Hpages.
  destruct (_get_collected_lists sensor_json _ _ st pages Hpages) as (st' & Hrun & Hreq).
  exists st'. split; [|exact Hreq].
  unfold fetch_station_sensors. rewrite (bind_ok _ _ _ _ _ Hrun).
  unfold lift_result. cbn [iterate bind_result].
  by rewrite (map_result_fmap _ _ _ sensor_of_entry_json).
Qed.

End Decoding.

(** The two pages of stations of the service. *)
Lemma fetch_stations_decodes_witness :
  ∃ st',
    APIClient.fetch_stations Service.remote Instances.decimal APIClient.new_api_client
    = (inr [Scenario.wroclaw; Service.krakow], st') ∧
    length (APIClient.requested st') = 2%nat.
Proof.
  destruct (fetch_stations_decodes Service.remote Instances.decimal APIClient.new_api_client
              Service.station_pages) as (st' & Hrun & Hreq).
  - exists ((λ page, Scenario.envelope 2 "Lista stacji pomiarowych"
                       (JList (station_json <$> page))) <$> Service.station_pages), 2.
    split; [repeat constructor|]. split; [|done].
    intros k body Hk. destruct k as [|[|k]]; cbn in Hk; [| |done];
      injection Hk as <-; reflexivity.
  - exists st'. split; [exact Hrun|]. rewrite Hreq. reflexivity.
Defined.

Lemma fetch_station_sensors_decodes_witness :
  ∃ st',
    APIClient.fetch_station_sensors Service.remote Instances.decimal 5
      APIClient.new_api_client
    = (inr [Scenario.pm10_sensor; Service.no2_sensor], st') ∧
    length (APIClient.requested st') = 1%nat.
Proof.
  destruct (fetch_station_sensors_decodes Service.remote Instances.decimal 5
              APIClient.new_api_client Service.sensor_pages) as (st' & Hrun & Hreq).
  - exists ((λ page, Scenario.envelope 1 "Lista stanowisk pomiarowych dla podanej stacji"
                       (JList (sensor_json <$> page))) <$> Service.sensor_pages), 1.
    split; [repeat constructor|]. split; [|done].
    intros k body Hk. destruct k as [|k]; cbn in Hk; [|done].
    injection Hk as <-. reflexivity.
  - exists st'. split; [exact Hrun|]. rewrite Hreq. reflexivity.
Defined.

Section FetchedIndexes.

Import APIClient.

Variable remote : list request → request → response.
Variable int_of_str : string → option Z.
Variable fromisoformat : string → option datetime.

Lemma map_result_keys {A B} (g : A → result B) l res :
  map_result (λ x, let+ y := g x in inr (x, y)) l = inr res → res.*1 = l.
Proof.
  revert res. induction l as [|x l IH]; intros res Hres; cbn in Hres.
  - by injection Hres as <-.
  - destruct (g x) as [e|y]; [done|]. cbn in Hres.
    destruct (map_result _ l) as [e|res'] eqn:Hl; [done|]. cbn in Hres.
    injection Hres as <-. cbn. f_equal. by apply IH.
Qed.

Lemma fetch_air_quality_indexes_keys station st indexes st' db :
  fetch_air_quality_indexes remote int_of_str fromisoformat station st = (inr indexes, st') →
  (∀ t, t ∈ AQ_TYPES → is_Some (DatabaseClient.sensor_type db !! t)) →
  (sensors indexes).*1 = POLLUTANTS ∧
  catalogued db indexes ∧
  NoDup (((DatabaseClient.OVERALL_SENSOR_TYPE_CODENAME, overall indexes)
          :: sensors indexes).*1).
Proof.
  intros Hrun Htypes. unfold fetch_air_quality_indexes, bind in Hrun.
  destruct (_get_collected _ _ _ _ _ _ st) as [[e|raw] st1]; [done|].
  unfold lift_result in Hrun.
  destruct (index_of_raw _ raw _ _) as [e|overall_index]; [done|].
  cbn [bind_result] in Hrun.
  destruct (map_result _ POLLUTANTS) as [e|per_sensor] eqn:Hper; [done|].
  apply map_result_keys in Hper.
  cbn [bind_result] in Hrun.
  destruct (get_method raw _ JNull) as [e|status]; [done|]. cbn [bind_result] in Hrun.
  destruct (as_optional as_bool _ status) as [e|status']; [done|]. cbn [bind_result] in Hrun.
  destruct (get_method raw _ JNull) as [e|critical]; [done|]. cbn [bind_result] in Hrun.
  destruct (as_optional as_str _ critical) as [e|critical']; [done|]. cbn [bind_result] in Hrun.
  injection Hrun as <- <-. cbn [sensors overall].
  split; [exact Hper|]. split.
  - unfold catalogued. cbn [sensors overall]. apply forallb_forall.
    intros entry Hentry. apply list_elem_of_In in Hentry.
    unfold typed. apply bool_decide_eq_true_2. apply Htypes.
    assert (Hin : entry.1 ∈ DatabaseClient.OVERALL_SENSOR_TYPE_CODENAME :: POLLUTANTS).
    { rewrite <- Hper. apply elem_of_cons in Hentry as [->|Hentry]; [by left|].
      right. by apply list_elem_of_fmap_2. }
    revert Hin. generalize (entry.1). apply Forall_forall.
    apply (bool_decide_unpack _). vm_compute. exact I.
  - cbn [fmap list_fmap fst]. rewrite Hper.
    apply (bool_decide_unpack _). vm_compute. exact I.
Qed.

(** X19.  Whatever the service answers, a record of indexes the client returns
    holds an index for each of the five pollutants, in their fixed order;
    so in a store whose catalog has the sensor types of the configuration
    every index of the record is of a type of the catalog, one index per
    type. *)
Theorem fetched_indexes_are_catalogued station st indexes st' db :
  fetch_air_quality_indexes remote int_of_str fromisoformat station st = (inr indexes, st') →
  (∀ t, t ∈ AQ_TYPES → is_Some (DatabaseClient.sensor_type db !! t)) →
  (sensors indexes).*1 = POLLUTANTS ∧
  catalogued db indexes ∧
  NoDup (((DatabaseClient.OVERALL_SENSOR_TYPE_CODENAME, overall indexes)
          :: sensors indexes).*1).
Proof. apply fetch_air_quality_indexes_keys. Qed.

End FetchedIndexes.

(** The index the service answers for station 5, in a new store. *)
Lemma fetched_indexes_are_catalogued_witness :
  ∃ indexes st',
    APIClient.fetch_air_quality_indexes Service.remote Instances.decimal
      Instances.iso_datetime 5 APIClient.new_api_client = (inr indexes, st') ∧
    index_value (overall indexes) = Some 1 ∧
    catalogued DatabaseClient._populate_tables indexes.
Proof.
  destruct (APIClient.fetch_air_quality_indexes Service.remote Instances.decimal
              Instances.iso_datetime 5 APIClient.new_api_client) as [r st'] eqn:Hrun.
  assert (Hr : ∃ indexes, r = inr indexes ∧ index_value (overall indexes) = Some 1).
  { vm_compute in Hrun. injection Hrun as <- _. eexists. split; reflexivity. }
  destruct Hr as (indexes & -> & Hoverall).
  exists indexes, st'. split; [reflexivity|]. split; [exact Hoverall|].
  apply (fetched_indexes_are_catalogued Service.remote Instances.decimal
           Instances.iso_datetime 5 APIClient.new_api_client indexes st'
           DatabaseClient._populate_tables Hrun).
  apply Forall_forall. apply (bool_decide_unpack _). vm_compute. exact I.
Defined.

(** * Further properties of the orchestrator *)

Section Fresh.

Import Repository.

Variable remote : list APIClient.request → APIClient.request → APIClient.response.
Variable int_of_str : string → option Z.
Variable fromisoformat : string → option datetime.
Variable now : datetime.

(** X20.  A read of data that is younger than its update interval asks the
    remote nothing: it answers from the store and leaves both clients and
    the log as they were. *)
Theorem fresh_reads_are_local w :
  (∀ stamp,
     DatabaseClient.get_last_stations_update (_database_client w) = inr stamp →
     now - stamp < UPDATE_INTERVAL_station →
     get_station_list_view remote int_of_str now w
     = (inr (DatabaseClient.get_station_list_view (_database_client w)), w) ∧
     ∀ station,
       fetch_station_details_view remote int_of_str now station w
       = (DatabaseClient.fetch_station_detail_view (_database_client w) station, w)) ∧
  (∀ station type_codename,
     now - DatabaseClient.fetch_last_station_air_quality_indexes_update
             (_database_client w) station < UPDATE_INTERVAL_aq_indexes →
     fetch_station_air_quality_index_value remote int_of_str fromisoformat now
       station type_codename w
     = (inr (DatabaseClient.fetch_station_air_quality_index_value (_database_client w)
               station type_codename), w)) ∧
  (∀ station,
     now - DatabaseClient.fetch_last_station_sensors_update (_database_client w) station
     < UPDATE_INTERVAL_sensors →
     fetch_station_sensors remote int_of_str now station w
     = (inr (DatabaseClient.fetch_station_sensors (_database_client w) station), w)).
Proof.
  split; [|split].
  - intros stamp Hstamp Hfresh. split; [|intros station].
    + unfold get_station_list_view. unfold bind at 1, query_or_raise at 1. rewrite Hstamp.
      rewrite bool_decide_eq_false_2 by lia. reflexivity.
    + unfold fetch_station_details_view. unfold bind at 1, query_or_raise at 1.
      rewrite Hstamp. rewrite bool_decide_eq_false_2 by lia. reflexivity.
  - intros station type_codename Hfresh.
    unfold fetch_station_air_quality_index_value. unfold bind at 1, query at 1.
    rewrite bool_decide_eq_false_2 by lia. reflexivity.
  - intros station Hfresh.
    unfold fetch_station_sensors. unfold bind at 1, query at 1.
    rewrite bool_decide_eq_false_2 by lia. reflexivity.
Qed.

End Fresh.

(** Station 5 had its indexes written at second 200: a read at second 300
    makes no request, though the transport is down. *)
Lemma fresh_reads_are_local_witness :
  Repository.fetch_station_air_quality_index_value Scenario.unreachable_remote Instances.decimal
    Instances.iso_datetime (fromtimestamp 300) 5 "PM10" (Scenario.world_of Scenario.synced_store)
  = (inr (Some 1), Scenario.world_of Scenario.synced_store).
Proof.
  destruct (fresh_reads_are_local Scenario.unreachable_remote Instances.decimal
              Instances.iso_datetime (fromtimestamp 300)
              (Scenario.world_of Scenario.synced_store)) as (_ & Hindexes & _).
  rewrite (Hindexes 5 "PM10"); [reflexivity|]. vm_compute. reflexivity.
Defined.

Section RefreshFails.

Import Repository.

Variable remote : list APIClient.request → APIClient.request → APIClient.response.
Variable int_of_str : string → option Z.
Variable fromisoformat : string → option datetime.
Variable now : datetime.

Lemma _get_collected_raises endpoint target size args st e :
  remote (APIClient.requested st) (page_request endpoint size args 0) = APIClient.Raises e →
  ∃ st', APIClient._get_collected remote int_of_str endpoint target size args st
         = (inl e, st') ∧
         APIClient._connection_status st'
         = (if is_ConnectionError e then false else APIClient._connection_status st).
Proof.
  intros Hr. unfold APIClient._get_collected, bind at 1, APIClient._get.
  unfold page_request in Hr. change (Z.of_nat 0) with 0 in Hr. rewrite Hr.
  destruct (is_ConnectionError e); eexists; (split; [reflexivity|]); [|reflexivity].
  unfold APIClient.set_connection_status. case_bool_decide as Hs; [exact Hs|reflexivity].
Qed.

Lemma failed_refresh_serves {A B} (fetch : M APIClient.api_state B) (write : B → M world unit)
    (view : DatabaseClient.store → result A) message w e st :
  fetch (_api_client w) = (inl e, st) →
  APIClient._connection_status st
  = (if is_ConnectionError e then false else APIClient._connection_status (_api_client w)) →
  served_from_store w message e (view (_database_client w))
    ((try_except (let* x := on_api fetch in write x) is_ConnectionError
        (logging_warning message) ;;;
      query_or_raise view) w).
Proof.
  intros Hfetch Hstatus. unfold served_from_store.
  assert (Htry :
    try_except (let* x := on_api fetch in write x) is_ConnectionError
      (logging_warning message) w
    = (if is_ConnectionError e then inr () else inl e,
       {| _api_client := st; _database_client := _database_client w;
          warnings := warnings w ++ (if is_ConnectionError e then [(message, e)] else []);
          refreshes := refreshes w |})).
  { unfold try_except.
    rewrite (bind_raised _ _ _ _ _ (on_api_run _ _ _ _ Hfetch)).
    destruct (is_ConnectionError e); cbn; by rewrite ?app_nil_r. }
  destruct (is_ConnectionError e).
  - rewrite (bind_ok _ _ _ _ _ Htry). cbn. done.
  - rewrite (bind_raised _ _ _ _ _ Htry). cbn. by rewrite app_nil_r.
Qed.

Lemma fetch_raises {B} endpoint target (decode : json → result B) st e :
  remote (APIClient.requested st) (page_request endpoint 100 [] 0) = APIClient.Raises e →
  ∃ st', (let* raw := APIClient._get_collected remote int_of_str endpoint target 100 [] in
          lift_result (decode raw)) st = (inl e, st') ∧
         APIClient._connection_status st'
         = (if is_ConnectionError e then false else APIClient._connection_status st).
Proof.
  intros Hr.
  destruct (_get_collected_raises endpoint target 100 [] st e Hr) as (st' & Hrun & Hstatus).
  exists st'. by rewrite (bind_raised _ _ _ _ _ Hrun).
Qed.

(** X21.  When the request of a due refresh raises, a read of the sensors of a
    station, of an index value, of the details of a station or of the list
    of stations answers from the store if the exception is a connectivity
    error, logging it, and raises the exception otherwise; the store is not
    written. *)
Theorem failed_refresh_of_station_reads w station e :
  (UPDATE_INTERVAL_sensors
   ≤ now - DatabaseClient.fetch_last_station_sensors_update (_database_client w) station →
   remote (APIClient.requested (_api_client w))
     (page_request (APIClient.StationSensors station) 100 [] 0) = APIClient.Raises e →
   served_from_store w "Error while updating station sensors: %s" e
     (inr (DatabaseClient.fetch_station_sensors (_database_client w) station))
     (fetch_station_sensors remote int_of_str now station w)) ∧
  (∀ type_codename,
   UPDATE_INTERVAL_aq_indexes
   ≤ now - DatabaseClient.fetch_last_station_air_quality_indexes_update
             (_database_client w) station →
   remote (APIClient.requested (_api_client w))
     (page_request (APIClient.AqIndexGetIndex station) 100 [] 0) = APIClient.Raises e →
   served_from_store w "Error while updating air quality index values: %s" e
     (inr (DatabaseClient.fetch_station_air_quality_index_value (_database_client w)
             station type_codename))
     (fetch_station_air_quality_index_value remote int_of_str fromisoformat now
        station type_codename w)) ∧
  (∀ stamp,
   DatabaseClient.get_last_stations_update (_database_client w) = inr stamp →
   UPDATE_INTERVAL_station ≤ now - stamp →
   remote (APIClient.requested (_api_client w))
     (page_request APIClient.StationFindAll 100 [] 0) = APIClient.Raises e →
   served_from_store w "Error while updating stations: %s" e
     (DatabaseClient.fetch_station_detail_view (_database_client w) station)
     (fetch_station_details_view remote int_of_str now station w) ∧
   served_from_store w "Error while updating stations: %s" e
     (inr (DatabaseClient.get_station_list_view (_database_client w)))
     (get_station_list_view remote int_of_str now w)).
Proof.
  split; [|split].
  - intros Hstale Hr. unfold fetch_station_sensors. unfold bind at 1, query at 1.
    rewrite bool_decide_eq_true_2 by exact Hstale.
    destruct (fetch_raises (APIClient.StationSensors station)
                "Lista stanowisk pomiarowych dla podanej stacji"
                (λ raw, let+ entries := iterate raw in
                        map_result APIClient.sensor_of_entry entries)
                (_api_client w) e Hr) as (st' & Hfetch & Hstatus).
    exact (failed_refresh_serves _ _
             (λ db, inr (DatabaseClient.fetch_station_sensors db station)) _ w e st'
             Hfetch Hstatus).
  - intros type_codename Hstale Hr.
    unfold fetch_station_air_quality_index_value. unfold bind at 1, query at 1.
    rewrite bool_decide_eq_true_2 by exact Hstale.
    destruct (_get_collected_raises (APIClient.AqIndexGetIndex station) "AqIndex" 100 []
                (_api_client w) e Hr) as (st' & Hget & Hstatus).
    assert (Hfetch : APIClient.fetch_air_quality_indexes remote int_of_str fromisoformat
                       station (_api_client w) = (inl e, st')).
    { unfold APIClient.fetch_air_quality_indexes. by rewrite (bind_raised _ _ _ _ _ Hget). }
    exact (failed_refresh_serves _ _
             (λ db, inr (DatabaseClient.fetch_station_air_quality_index_value db
                           station type_codename)) _ w e st' Hfetch Hstatus).
  - intros stamp Hstamp Hstale Hr.
    destruct (fetch_raises APIClient.StationFindAll "Lista stacji pomiarowych"
                (λ raw, let+ entries := iterate raw in
                        map_result APIClient.station_of_entry entries)
                (_api_client w) e Hr) as (st' & Hfetch & Hstatus).
    split.
    + unfold fetch_station_details_view. unfold bind at 1, query_or_raise at 1.
      rewrite Hstamp. rewrite bool_decide_eq_true_2 by exact Hstale.
      exact (failed_refresh_serves _ _
               (λ db, DatabaseClient.fetch_station_detail_view db station) _ w e st'
               Hfetch Hstatus).
    + unfold get_station_list_view. unfold bind at 1, query_or_raise at 1.
      rewrite Hstamp. rewrite bool_decide_eq_true_2 by exact Hstale.
      exact (failed_refresh_serves _ _
               (λ db, inr (DatabaseClient.get_station_list_view db)) _ w e st'
               Hfetch Hstatus).
Qed.

End RefreshFails.

(** The sensors of station 5 are read a day after they were written, with
    the transport down: the stored sensor is returned and the failure is
    logged. *)
Lemma failed_refresh_of_station_reads_witness :
  served_from_store (Scenario.world_of Scenario.synced_store)
    "Error while updating station sensors: %s" ConnectionError
    (inr [{| sv_id := 52; sv_codename := "PM10" |}])
    (Repository.fetch_station_sensors Scenario.unreachable_remote Instances.decimal
       (timedelta_days 2) 5 (Scenario.world_of Scenario.synced_store)).
Proof.
  apply (proj1 (failed_refresh_of_station_reads Scenario.unreachable_remote
                  Instances.decimal Instances.iso_datetime (timedelta_days 2)
                  (Scenario.world_of Scenario.synced_store) 5 ConnectionError)).
  - vm_compute. discriminate.
  - reflexivity.
Defined.

(** ** Reads whose refresh succeeds *)

Section Refreshed.

Import Repository.

Variable remote : list APIClient.request → APIClient.request → APIClient.response.
Variable int_of_str : string → option Z.
Variable fromisoformat : string → option datetime.

Lemma refreshed_read_serves {A B} (fetch : M APIClient.api_state B)
    (write : B → DatabaseClient.store → DatabaseClient.store)
    (view : DatabaseClient.store → result A) message w x st :
  fetch (_api_client w) = (inr x, st) →
  (try_except (let* x := on_api fetch in on_database (modify (write x))) is_ConnectionError
     (logging_warning message) ;;;
   query_or_raise view) w
  = (view (write x (_database_client w)),
     {| _api_client := st; _database_client := write x (_database_client w);
        warnings := warnings w; refreshes := refreshes w |}).
Proof.
  intros Hfetch.
  assert (Htry :
    try_except (let* x := on_api fetch in on_database (modify (write x))) is_ConnectionError
      (logging_warning message) w
    = (inr (), {| _api_client := st; _database_client := write x (_database_client w);
                  warnings := warnings w; refreshes := refreshes w |})).
  { unfold try_except. by rewrite (bind_ok _ _ _ _ _ (on_api_run _ _ _ _ Hfetch)). }
  by rewrite (bind_ok _ _ _ _ _ Htry).
Qed.

(** X22.  An index read of a station whose indexes are due, when the service
    answers: the read returns, for each type, the value the service sent,
    nothing is logged, and until an hour has passed since the second of the
    refresh further reads of the station's indexes ask the remote
    nothing. *)
Theorem due_index_read_is_refreshed now w station indexes st entry :
  well_formed (_database_client w) →
  (∀ t, t ∈ AQ_TYPES → is_Some (DatabaseClient.sensor_type (_database_client w) !! t)) →
  UPDATE_INTERVAL_aq_indexes
  ≤ now - DatabaseClient.fetch_last_station_air_quality_indexes_update
            (_database_client w) station →
  APIClient.fetch_air_quality_indexes remote int_of_str fromisoformat station (_api_client w)
  = (inr indexes, st) →
  entry ∈ (DatabaseClient.OVERALL_SENSOR_TYPE_CODENAME, overall indexes) :: sensors indexes →
  ∃ w',
    fetch_station_air_quality_index_value remote int_of_str fromisoformat now
      station entry.1 w = (inr (index_value entry.2), w') ∧
    _api_client w' = st ∧ warnings w' = warnings w ∧
    ∀ service later type_codename,
      later - fromtimestamp (unixepoch now) < UPDATE_INTERVAL_aq_indexes →
      (fetch_station_air_quality_index_value service int_of_str fromisoformat later
         station type_codename w').2 = w'.
Proof.
  intros Hwf Htypes Hdue Hfetch Hentry.
  destruct (fetch_air_quality_indexes_keys remote int_of_str fromisoformat station
              (_api_client w) indexes st (_database_client w) Hfetch Htypes)
    as (_ & Hcat & Hnd).
  eexists. split; [|split; [|split]].
  - unfold fetch_station_air_quality_index_value. unfold bind at 1, query at 1.
    rewrite bool_decide_eq_true_2 by exact Hdue.
    rewrite (refreshed_read_serves _
               (DatabaseClient.update_station_air_quality_indexes (unixepoch now) station)
               (λ db, inr (DatabaseClient.fetch_station_air_quality_index_value db
                             station entry.1)) _ w indexes st Hfetch).
    by rewrite (update_station_air_quality_indexes_read _ _ _ _ entry Hwf Hcat Hnd Hentry).
  - reflexivity.
  - reflexivity.
  - intros service later type_codename Hfresh.
    unfold fetch_station_air_quality_index_value. unfold bind at 1, query at 1.
    cbn [_database_client].
    destruct (update_station_air_quality_indexes_frame (unixepoch now) station indexes
                (_database_client w)) as (_ & _ & _ & ->).
    rewrite bool_decide_eq_false_2 by lia. reflexivity.
Qed.

(** X23.  A read of the list of stations that is due, when the service answers
    with stations of distinct identifiers and codenames: the list read has
    a row for each station the service sent, nothing is logged, and until a
    day has passed since the second of the refresh further reads of the
    list leave both clients as they are, whatever the remote would answer. *)
Theorem due_station_list_is_refreshed now w stamp stations st s :
  well_formed (_database_client w) →
  DatabaseClient.get_last_stations_update (_database_client w) = inr stamp →
  UPDATE_INTERVAL_station ≤ now - stamp →
  APIClient.fetch_stations remote int_of_str (_api_client w) = (inr stations, st) →
  NoDup (station_id <$> stations) → NoDup (station_codename <$> stations) →
  s ∈ stations →
  ∃ view w',
    get_station_list_view remote int_of_str now w = (inr view, w') ∧
    {| slv_id := station_id s; slv_name := station_name s;
       slv_latitude := station_latitude s; slv_longitude := station_longitude s;
       slv_city := station_city s |} ∈ view ∧
    _api_client w' = st ∧ warnings w' = warnings w ∧
    ∀ service later,
      later - fromtimestamp (unixepoch now) < UPDATE_INTERVAL_station →
      (get_station_list_view service int_of_str later w').2 = w'.
Proof.
  intros Hwf Hstamp Hdue Hfetch Hids Hcodes Hs.
  eexists _, _. split; [|split; [|split; [|split]]].
  - unfold get_station_list_view. unfold bind at 1, query_or_raise at 1. rewrite Hstamp.
    rewrite bool_decide_eq_true_2 by exact Hdue.
    exact (refreshed_read_serves _
             (DatabaseClient.update_stations (unixepoch now))
             (λ db, inr (DatabaseClient.get_station_list_view db)) _ w stations st Hfetch).
  - by apply update_stations_listed.
  - reflexivity.
  - reflexivity.
  - intros service later Hfresh.
    unfold get_station_list_view. unfold bind at 1, query_or_raise at 1.
    cbn [_database_client]. rewrite update_stations_stamp.
    + destruct stations as [|s0 stations0]; [by apply elem_of_nil in Hs|].
      rewrite bool_decide_eq_false_2 by lia. reflexivity.
    + unfold DatabaseClient.get_last_stations_update in Hstamp.
      destruct (DatabaseClient.global_update _ !! _); [by eexists|done].
Qed.

(** X24.  A read of the sensors of a station that is due, when the service
    answers with sensors of distinct identifiers: the sensors read include
    each sensor the service sent that the store did not have, and nothing
    is logged.  When the store had them all, the station's sensors keep
    the stamp they had: they are still due. *)
Theorem due_sensors_read_is_refreshed now w station sensors st :
  well_formed (_database_client w) →
  UPDATE_INTERVAL_sensors
  ≤ now - DatabaseClient.fetch_last_station_sensors_update (_database_client w) station →
  APIClient.fetch_station_sensors remote int_of_str station (_api_client w)
  = (inr sensors, st) →
  NoDup (sensor_id <$> sensors) →
  ∃ view w',
    fetch_station_sensors remote int_of_str now station w = (inr view, w') ∧
    _api_client w' = st ∧ warnings w' = warnings w ∧
    (∀ s, s ∈ sensors → DatabaseClient.sensor (_database_client w) !! sensor_id s = None →
       {| sv_id := sensor_id s; sv_codename := sensor_codename s |} ∈ view) ∧
    ((∀ s, s ∈ sensors → is_Some (DatabaseClient.sensor (_database_client w) !! sensor_id s)) →
     DatabaseClient.fetch_last_station_sensors_update (_database_client w') station
     = DatabaseClient.fetch_last_station_sensors_update (_database_client w) station).
Proof.
  intros Hwf Hdue Hfetch Hids.
  eexists _, _. split; [|split; [|split; [|split]]].
  - unfold fetch_station_sensors. unfold bind at 1, query at 1.
    rewrite bool_decide_eq_true_2 by exact Hdue.
    exact (refreshed_read_serves _
             (DatabaseClient.update_station_sensors (unixepoch now) station)
             (λ db, inr (DatabaseClient.fetch_station_sensors db station)) _ w sensors st
             Hfetch).
  - reflexivity.
  - reflexivity.
  - intros s Hs Hnew.
    by apply (update_station_sensors_listed (unixepoch now) station sensors _ s).
  - intros Hknown. cbn [_database_client].
    unfold DatabaseClient.fetch_last_station_sensors_update.
    destruct (update_station_sensors_known (unixepoch now) station sensors
                (_database_client w)) as [_ Hsame].
    by rewrite (proj2 (Hsame Hknown)).
Qed.

End Refreshed.

(** The index of station 5 is read from the service at 13:00 of
    2024-05-01: the overall value is the one the service sends, and a
    read half an hour later asks nothing, though the transport is then
    down. *)
Lemma due_index_read_is_refreshed_witness :
  ∃ w',
    Repository.fetch_station_air_quality_index_value Service.remote Instances.decimal
      Instances.iso_datetime (Scenario.may_1st 13) 5 "Ogólny"
      (Scenario.world_of DatabaseClient._populate_tables) = (inr (Some 1), w') ∧
    (Repository.fetch_station_air_quality_index_value Scenario.unreachable_remote
       Instances.decimal Instances.iso_datetime (Scenario.may_1st 13 + timedelta_minutes 30)
       5 "PM10" w').2 = w'.
Proof.
  destruct (APIClient.fetch_air_quality_indexes Service.remote Instances.decimal
              Instances.iso_datetime 5 APIClient.new_api_client) as [r st] eqn:Hfetch.
  assert (Hr : ∃ indexes, r = inr indexes ∧ index_value (overall indexes) = Some 1).
  { vm_compute in Hfetch. injection Hfetch as <- _. eexists. split; reflexivity. }
  destruct Hr as (indexes & -> & Hoverall).
  destruct (due_index_read_is_refreshed Service.remote Instances.decimal
              Instances.iso_datetime (Scenario.may_1st 13)
              (Scenario.world_of DatabaseClient._populate_tables) 5 indexes st
              (DatabaseClient.OVERALL_SENSOR_TYPE_CODENAME, overall indexes))
    as (w' & Hread & _ & _ & Hlater).
  - apply (bool_decide_unpack _). vm_compute. exact I.
  - apply Forall_forall. apply (bool_decide_unpack _). vm_compute. exact I.
  - vm_compute. discriminate.
  - exact Hfetch.
  - left.
  - exists w'. cbn [fst snd] in Hread. rewrite Hoverall in Hread. split; [exact Hread|].
    apply Hlater. vm_compute. reflexivity.
Defined.

(** The list of stations of a new store is read from the service. *)
Lemma due_station_list_is_refreshed_witness :
  ∃ view w',
    Repository.get_station_list_view Service.remote Instances.decimal (Scenario.may_1st 13)
      (Scenario.world_of DatabaseClient._populate_tables) = (inr view, w') ∧
    {| slv_id := 400; slv_name := "Kraków, Aleja Krasińskiego";
       slv_latitude := QArith_base.Qmake 50057678 1000000;
       slv_longitude := QArith_base.Qmake 19926189 1000000; slv_city := "Kraków" |} ∈ view.
Proof.
  destruct (APIClient.fetch_stations Service.remote Instances.decimal
              APIClient.new_api_client) as [r st] eqn:Hfetch.
  assert (Hr : r = inr [Scenario.wroclaw; Service.krakow]).
  { vm_compute in Hfetch. by injection Hfetch as <- _. }
  subst r.
  destruct (due_station_list_is_refreshed Service.remote Instances.decimal
              (Scenario.may_1st 13) (Scenario.world_of DatabaseClient._populate_tables)
              (fromtimestamp 0) [Scenario.wroclaw; Service.krakow] st Service.krakow)
    as (view & w' & Hread & Hin & _).
  - apply (bool_decide_unpack _). vm_compute. exact I.
  - reflexivity.
  - vm_compute. discriminate.
  - exact Hfetch.
  - apply (bool_decide_unpack _). vm_compute. exact I.
  - apply (bool_decide_unpack _). vm_compute. exact I.
  - right. left.
  - exists view, w'. split; [exact Hread|exact Hin].
Defined.

(** The sensors of station 5 of a new store are read from the service. *)
Lemma due_sensors_read_is_refreshed_witness :
  ∃ view w',
    Repository.fetch_station_sensors Service.remote Instances.decimal (Scenario.may_1st 13) 5
      (Scenario.world_of DatabaseClient._populate_tables) = (inr view, w') ∧
    {| sv_id := 50; sv_codename := "NO2" |} ∈ view.
Proof.
  destruct (APIClient.fetch_station_sensors Service.remote Instances.decimal 5
              APIClient.new_api_client) as [r st] eqn:Hfetch.
  assert (Hr : r = inr [Scenario.pm10_sensor; Service.no2_sensor]).
  { vm_compute in Hfetch. by injection Hfetch as <- _. }
  subst r.
  destruct (due_sensors_read_is_refreshed Service.remote Instances.decimal
              (Scenario.may_1st 13) (Scenario.world_of DatabaseClient._populate_tables)
              5 [Scenario.pm10_sensor; Service.no2_sensor] st)
    as (view & w' & Hread & _ & _ & Hnew & _).
  - apply (bool_decide_unpack _). vm_compute. exact I.
  - vm_compute. discriminate.
  - exact Hfetch.
  - apply (bool_decide_unpack _). vm_compute. exact I.
  - exists view, w'. split; [exact Hread|].
    apply (Hnew Service.no2_sensor); [right; left|reflexivity].
Defined.

(** ** Reads and refreshes of measurements *)

Section SensorDataReads.

Import Repository.

Variable remote : list APIClient.request → APIClient.request → APIClient.response.
Variable int_of_str : string → option Z.
Variable fromisoformat : string → option datetime.
Variable now : datetime.

(** X25.  Whatever the refresh did, a read of measurements that returns returns
    the rows the store then has for the sensor in the window asked for, the
    window ending now when no end was given: every row returned is a row of
    the store with its date in the window, and every such row is returned. *)
Theorem served_measurements_are_stored sensor date_from date_to w served w' :
  fetch_sensor_data remote int_of_str fromisoformat now sensor date_from date_to w
  = (inr served, w') →
  ∀ v, v ∈ served ↔
       DatabaseClient.sensor_data (_database_client w') !! (sensor, svv_date v)
       = Some (svv_value v) ∧
       date_from ≤ svv_date v ≤ default now date_to.
Proof.
  intros Hrun v. unfold fetch_sensor_data in Hrun. cbv zeta in Hrun.
  unfold bind at 1, query at 1 in Hrun. unfold bind at 1, query at 1 in Hrun.
  unfold bind in Hrun.
  destruct (try_except _ _ _ w) as [[e|[]] w1]; [done|].
  unfold query in Hrun. injection Hrun as <- <-.
  apply elem_of_fetch_sensor_data.
Qed.

End SensorDataReads.

(** The read of 08:00 to 16:00 with the transport down: the two stored
    measurements. *)
Lemma served_measurements_are_stored_witness :
  {| svv_date := Scenario.may_1st 10; svv_value := QArith_base.inject_Z 21 |}
  ∈ default []
      (returned
         (Repository.fetch_sensor_data Scenario.unreachable_remote Instances.decimal
            Instances.iso_datetime (Scenario.may_1st 16) 52 (Scenario.may_1st 8)
            (Some (Scenario.may_1st 16)) (Scenario.world_of Scenario.stocked_store)).1).
Proof.
  destruct (Repository.fetch_sensor_data Scenario.unreachable_remote Instances.decimal
              Instances.iso_datetime (Scenario.may_1st 16) 52 (Scenario.may_1st 8)
              (Some (Scenario.may_1st 16)) (Scenario.world_of Scenario.stocked_store))
    as [r w'] eqn:Hrun.
  assert (Hr : ∃ served, r = inr served ∧
                 Repository._database_client w' = Scenario.stocked_store).
  { vm_compute in Hrun. injection Hrun as <- <-. eexists. split; reflexivity. }
  destruct Hr as (served & -> & Hdb). cbn.
  apply (served_measurements_are_stored Scenario.unreachable_remote Instances.decimal
           Instances.iso_datetime (Scenario.may_1st 16) 52 (Scenario.may_1st 8)
           (Some (Scenario.may_1st 16)) (Scenario.world_of Scenario.stocked_store)
           served w' Hrun).
  rewrite Hdb. split; [vm_compute; reflexivity|]. cbn. vm_compute. split; discriminate.
Defined.

Section Endpoints.

Import APIClient.

Variable remote : list request → request → response.
Variable int_of_str : string → option Z.
Variable fromisoformat : string → option datetime.

Lemma each_page_requests {T} endpoint target (callback : json → M T unit) args count :
  ∀ page st acc,
    ∃ later,
      requested (each_page remote endpoint target callback args page count (st, acc)).2.1
      = requested st ++ later ∧
      Forall (λ rq, rq_endpoint rq = endpoint) later.
Proof.
  induction count as [|count IH]; intros page st acc.
  - exists []. cbn. by rewrite app_nil_r.
  - cbn [each_page]. unfold bind at 1, on_fst at 1. cbn [fst snd].
    destruct (_get_logs remote endpoint args st page 100) as (r & st1 & Hget & Hreq).
    rewrite Hget.
    assert (Hone : ∃ later, requested st1 = requested st ++ later ∧
                            Forall (λ rq, rq_endpoint rq = endpoint) later).
    { eexists. split; [exact Hreq|]. by repeat constructor. }
    destruct r as [e|response]; [exact Hone|].
    unfold bind at 1, lift_result at 1.
    destruct (get_method response target JNull) as [e|fragment]; [exact Hone|].
    unfold bind at 1, on_snd at 1. cbn [fst snd].
    destruct (callback fragment acc) as [[e|[]] acc1]; [exact Hone|].
    destruct (IH (page + 1) st1 acc1) as (later & Hlater & Hall).
    eexists. rewrite Hlater, Hreq, <- app_assoc. split; [reflexivity|].
    apply Forall_app. split; [by repeat constructor|exact Hall].
Qed.

Lemma _get_each_requests {T} endpoint target (callback : json → M T unit) size args st acc :
  ∃ later,
    requested (_get_each remote int_of_str endpoint target callback size args (st, acc)).2.1
    = requested st ++ later ∧
    later ≠ [] ∧ Forall (λ rq, rq_endpoint rq = endpoint) later.
Proof.
  unfold _get_each. unfold bind at 1, on_fst at 1. cbn [fst snd].
  destruct (_get_logs remote endpoint args st 0 size) as (r & st1 & Hget & Hreq).
  rewrite Hget.
  assert (Hone : ∃ later, requested st1 = requested st ++ later ∧ later ≠ [] ∧
                          Forall (λ rq, rq_endpoint rq = endpoint) later).
  { eexists. split; [exact Hreq|]. split; [done|]. by repeat constructor. }
  destruct r as [e|response]; [exact Hone|].
  unfold bind at 1, lift_result at 1.
  destruct (total_pages_of int_of_str response) as [e|total]; [exact Hone|].
  destruct (Z.to_nat total) as [|n]; [exact Hone|].
  unfold bind at 1, lift_result at 1.
  destruct (get_method response target JNull) as [e|fragment]; [exact Hone|].
  unfold bind at 1, on_snd at 1. cbn [fst snd].
  destruct (callback fragment acc) as [[e|[]] acc1]; [exact Hone|].
  destruct (each_page_requests endpoint target callback args n 1 st1 acc1)
    as (later & Hlater & Hall).
  eexists. rewrite Hlater, Hreq, <- app_assoc. split; [reflexivity|]. split; [done|].
  apply Forall_app. split; [by repeat constructor|exact Hall].
Qed.

Lemma fetch_sensor_data_requests sensor st :
  ∃ later,
    requested (fetch_sensor_data remote int_of_str fromisoformat sensor st).2
    = requested st ++ later ∧
    later ≠ [] ∧ Forall (λ rq, rq_endpoint rq = DataGetData sensor) later.
Proof.
  unfold fetch_sensor_data.
  destruct (_get_each_requests (DataGetData sensor) "Lista danych pomiarowych"
              (collect_current fromisoformat) 500 [] st []) as (later & Hreq & Hne & Hall).
  exists later. split; [|done].
  by destruct (_get_each _ _ _ _ _ _ _ _) as [[e|[]] [st' data]].
Qed.

Lemma fetch_sensor_archival_data_requests sensor date_from date_to days st :
  ∃ later,
    requested (fetch_sensor_archival_data remote int_of_str fromisoformat
                 sensor date_from date_to days st).2
    = requested st ++ later ∧
    later ≠ [] ∧ Forall (λ rq, rq_endpoint rq = ArchivalDataGetDataBySensor sensor) later.
Proof.
  unfold fetch_sensor_archival_data.
  destruct (_get_each_requests (ArchivalDataGetDataBySensor sensor)
              "Lista archiwalnych wyników pomiarów" (collect_archival fromisoformat) 500
              (archival_params date_from date_to days) st [])
    as (later & Hreq & Hne & Hall).
  exists later. split; [|done].
  destruct (_get_each _ _ _ _ _ _ _ _) as [[e|[]] [st' data]]; [|exact Hreq].
  destruct e; try exact Hreq. by destruct (is_rate_limit_code code).
Qed.

End Endpoints.

Section RefreshRequests.

Import Repository.

Variable remote : list APIClient.request → APIClient.request → APIClient.response.
Variable int_of_str : string → option Z.
Variable fromisoformat : string → option datetime.
Variable now : datetime.

Lemma refresh_leg_requests {B} (fetch : M APIClient.api_state B)
    (write : B → M DatabaseClient.store unit) w :
  APIClient.requested (_api_client ((let* data := on_api fetch in on_database (write data)) w).2)
  = APIClient.requested (fetch (_api_client w)).2.
Proof.
  unfold bind, on_api. destruct (fetch (_api_client w)) as [[e|data] st]; [reflexivity|].
  unfold on_database. cbn. by destruct (write data _).
Qed.

(** X26.  A refresh of measurements asks the archival endpoint only when the
    start of its range is at least 3 days and 1 hour old, and the
    current-data endpoint only when the end of its range is at most that
    old; it asks no other endpoint, and when the range is not inverted it
    asks at least one request. *)
Theorem update_sensor_data_requests sensor date_from date_to w :
  ∃ later,
    APIClient.requested
      (_api_client
         (update_sensor_data remote int_of_str fromisoformat now sensor date_from date_to w).2)
    = APIClient.requested (_api_client w) ++ later ∧
    Forall (λ rq,
              APIClient.rq_endpoint rq = APIClient.ArchivalDataGetDataBySensor sensor ∧
              ARCHIVE_AGE ≤ now - date_from ∨
              APIClient.rq_endpoint rq = APIClient.DataGetData sensor ∧
              now - date_to ≤ ARCHIVE_AGE) later ∧
    (date_from ≤ date_to → later ≠ []).
Proof.
  unfold update_sensor_data.
  unfold bind at 1, ghost_refresh at 1, modify at 1.
  set (w0 := {| _api_client := _api_client w; _database_client := _database_client w;
                warnings := warnings w;
                refreshes := refreshes w ++ [(sensor, date_from, date_to)] |}).
  change (APIClient.requested (_api_client w)) with (APIClient.requested (_api_client w0)).
  clearbody w0.
  set (archival := let* data := on_api (APIClient.fetch_sensor_archival_data remote int_of_str
                                         fromisoformat sensor (Some date_from) (Some date_to)
                                         None) in
                   on_database (DatabaseClient.update_sensor_data sensor data)).
  set (current := let* data := on_api (APIClient.fetch_sensor_data remote int_of_str
                                        fromisoformat sensor) in
                  on_database (DatabaseClient.update_sensor_data sensor data)).
  assert (Harch : ∀ w1, ∃ later,
    APIClient.requested (_api_client (archival w1).2)
    = APIClient.requested (_api_client w1) ++ later ∧ later ≠ [] ∧
    Forall (λ rq, APIClient.rq_endpoint rq = APIClient.ArchivalDataGetDataBySensor sensor)
      later).
  { intros w1. subst archival. rewrite refresh_leg_requests.
    apply fetch_sensor_archival_data_requests. }
  assert (Hcur : ∀ w1, ∃ later,
    APIClient.requested (_api_client (current w1).2)
    = APIClient.requested (_api_client w1) ++ later ∧ later ≠ [] ∧
    Forall (λ rq, APIClient.rq_endpoint rq = APIClient.DataGetData sensor) later).
  { intros w1. subst current. rewrite refresh_leg_requests.
    apply fetch_sensor_data_requests. }
  clearbody archival current.
  unfold bind.
  destruct (bool_decide (ARCHIVE_AGE ≤ now - date_from)) eqn:Ha;
    destruct (bool_decide (now - date_to ≤ ARCHIVE_AGE)) eqn:Hc.
  - apply bool_decide_eq_true in Ha. apply bool_decide_eq_true in Hc.
    destruct (Harch w0) as (l1 & Hl1 & Hne1 & Hall1).
    destruct (archival w0) as [[e|[]] w1]; cbn [snd] in *.
    + exists l1. split; [exact Hl1|]. split; [|done].
      eapply Forall_impl; [exact Hall1|]. cbn. intros rq Hrq. by left.
    + destruct (Hcur w1) as (l2 & Hl2 & Hne2 & Hall2).
      exists (l1 ++ l2). rewrite Hl2, Hl1, <- app_assoc. split; [reflexivity|]. split.
      * apply Forall_app. split.
        -- eapply Forall_impl; [exact Hall1|]. cbn. intros rq Hrq. by left.
        -- eapply Forall_impl; [exact Hall2|]. cbn. intros rq Hrq. by right.
      * intros _. by destruct l1.
  - apply bool_decide_eq_true in Ha.
    destruct (Harch w0) as (l1 & Hl1 & Hne1 & Hall1).
    exists l1. destruct (archival w0) as [[e|[]] w1]; cbn [snd] in *;
      (split; [exact Hl1|]); (split; [|done]);
      (eapply Forall_impl; [exact Hall1|]); cbn; intros rq Hrq; by left.
  - apply bool_decide_eq_true in Hc. cbn.
    destruct (Hcur w0) as (l2 & Hl2 & Hne2 & Hall2).
    exists l2. split; [exact Hl2|]. split; [|done].
    eapply Forall_impl; [exact Hall2|]. cbn. intros rq Hrq. by right.
  - apply bool_decide_eq_false in Ha. apply bool_decide_eq_false in Hc.
    exists []. cbn. rewrite app_nil_r. split; [reflexivity|]. split; [constructor|]. lia.
Qed.

End RefreshRequests.

(** The refresh of 08:00 to 16:00, four days later, asks the archival
    endpoint. *)
Lemma update_sensor_data_requests_witness :
  ∃ later,
    APIClient.requested
      (Repository._api_client
         (Repository.update_sensor_data Scenario.archive_remote Instances.decimal
            Instances.iso_datetime (Scenario.may_1st 100) 52 (Scenario.may_1st 8)
            (Scenario.may_1st 16) (Scenario.world_of Scenario.stocked_store)).2)
    = later ∧
    later ≠ [] ∧
    Forall (λ rq, APIClient.rq_endpoint rq = APIClient.ArchivalDataGetDataBySensor 52) later.
Proof.
  destruct (update_sensor_data_requests Scenario.archive_remote Instances.decimal
              Instances.iso_datetime (Scenario.may_1st 100) 52 (Scenario.may_1st 8)
              (Scenario.may_1st 16) (Scenario.world_of Scenario.stocked_store))
    as (later & Hreq & Hall & Hne).
  exists later. split; [exact Hreq|]. split; [apply Hne; vm_compute; discriminate|].
  eapply Forall_impl; [exact Hall|]. cbn. intros rq [[Hrq _]|[_ Hyoung]]; [exact Hrq|].
  vm_compute in Hyoung. by destruct Hyoung.
Defined.

(** ** The metadata of the stations, decoded *)

Section MetaDecoding.

Import APIClient.

Variable remote : list request → request → response.
Variable int_of_str : string → option Z.
Variable fromisoformat : string → option datetime.
Variable isoformat : datetime → string.

Lemma truthy_text s : s ≠ "" → truthy (JStr s) = true.
Proof. intros Hs. cbn. by rewrite bool_decide_eq_false_2. Qed.

Lemma station_meta_of_entry_fields m :
  dates_read_back isoformat fromisoformat m →
  station_meta_of_entry fromisoformat (JDict (station_meta_fields isoformat m)) = inr m ∧
  (meta_close_date m = None →
   station_meta_of_entry fromisoformat
     (JDict (delete "Data zamknięcia" (station_meta_fields isoformat m))) = inr m).
Proof.
  intros [Hlaunch Hclose]. split.
  - unfold station_meta_of_entry, station_meta_fields, subscript, get_method.
    repeat (rewrite ?lookup_insert_eq, ?lookup_singleton_eq;
            try (rewrite lookup_insert_ne by done); cbn [bind_result default]).
    unfold py_fromisoformat. rewrite Hlaunch. cbn [bind_result].
    destruct m as [codename [international|] launch [close|] type];
      cbn [meta_close_date meta_launch_date] in *.
    + destruct (Hclose close eq_refl) as [Hread Hne].
      unfold optional_date, id. rewrite (truthy_text _ Hne). cbn. rewrite Hread. reflexivity.
    + reflexivity.
    + destruct (Hclose close eq_refl) as [Hread Hne].
      unfold optional_date, id. rewrite (truthy_text _ Hne). cbn. rewrite Hread. reflexivity.
    + reflexivity.
  - intros Hnone.
    unfold station_meta_of_entry, station_meta_fields, subscript, get_method.
    repeat (rewrite ?lookup_delete_eq, ?lookup_insert_eq, ?lookup_singleton_eq;
            try (rewrite lookup_delete_ne by done);
            try (rewrite lookup_insert_ne by done); cbn [bind_result default]).
    unfold py_fromisoformat. rewrite Hlaunch. cbn [bind_result].
    destruct m as [codename [international|] launch close type];
      cbn [meta_close_date meta_launch_date] in *; subst close; reflexivity.
Qed.

Lemma map_result_fmap_Forall {A B} (f : B → result A) (g : A → B) l :
  Forall (λ x, f (g x) = inr x) l → map_result f (g <$> l) = inr l.
Proof.
  induction 1 as [|x l Hx Hl IH]; cbn; [reflexivity|]. by rewrite Hx, IH.
Qed.

(** X27.  The metadata of the stations, over the pages of the service, asked
    without a filter (an empty text is no filter): the fetch returns the
    records the pages hold, in the order of the pages; a station that is
    not closed comes back without a close date, whether the service sends
    a null close date or none. *)
Theorem fetch_station_meta_decodes city codename st pages :
  default "" city = "" → default "" codename = "" →
  Forall (dates_read_back isoformat fromisoformat) (concat pages) →
  paginated remote int_of_str MetadataStations "Lista metadanych stacji pomiarowych" 100 []
    (requested st)
    ((λ page, JList (JDict ∘ station_meta_fields isoformat <$> page)) <$> pages) →
  (∃ st',
     fetch_station_meta remote int_of_str fromisoformat city codename st
     = (inr (concat pages), st') ∧
     requested st' = requested st ++ page_requests MetadataStations 100 [] (length pages)) ∧
  ∀ m, m ∈ concat pages → meta_close_date m = None →
       station_meta_of_entry fromisoformat
         (JDict (delete "Data zamknięcia" (station_meta_fields isoformat m))) = inr m.
Proof.
  intros Hcity Hcodename Hdates Hpages. split.
  - destruct (_get_collected_lists remote int_of_str (JDict ∘ station_meta_fields isoformat)
                _ _ st pages Hpages) as (st' & Hrun & Hreq).
    exists st'. split; [|exact Hreq].
    unfold fetch_station_meta.
    assert (Hparams :
      match city with
      | Some c => if bool_decide (c = "") then [] else [("filter[miasto]", QueryText c)]
      | None => []
      end ++
      match codename with
      | Some c => if bool_decide (c = "") then [] else [("filter[kod-stacji]", QueryText c)]
      | None => []
      end = []).
    { destruct city as [c|], codename as [c'|]; cbn in *; subst; reflexivity. }
    rewrite Hparams. cbv zeta. rewrite (bind_ok _ _ _ _ _ Hrun).
    unfold lift_result. cbn [iterate bind_result].
    rewrite map_result_fmap_Forall; [reflexivity|].
    eapply Forall_impl; [exact Hdates|]. cbn. intros m Hm.
    apply (station_meta_of_entry_fields m Hm).
  - intros m Hm Hnone. rewrite Forall_forall in Hdates.
    by apply (station_meta_of_entry_fields m (Hdates m Hm)).
Qed.

End MetaDecoding.

(** A page with a closed station and an active one, asked with empty
    filters. *)
Lemma fetch_station_meta_decodes_witness :
  ∃ st',
    APIClient.fetch_station_meta Metadata.remote Instances.decimal Instances.iso_datetime
      (Some "") None APIClient.new_api_client
    = (inr [Scenario.closed_meta; Scenario.active_meta], st').
Proof.
  destruct (fetch_station_meta_decodes Metadata.remote Instances.decimal
              Instances.iso_datetime Metadata.isoformat (Some "") None
              APIClient.new_api_client [[Scenario.closed_meta; Scenario.active_meta]])
    as [(st' & Hrun & _) _].
  - reflexivity.
  - reflexivity.
  - cbn [concat app]. apply Forall_cons. split; [|apply Forall_cons; split; [|constructor]].
    + split; [reflexivity|]. intros d Hd. injection Hd as <-. split; [reflexivity|done].
    + split; [reflexivity|]. intros d Hd. discriminate Hd.
  - exists [Scenario.envelope 1 "Lista metadanych stacji pomiarowych"
              (JList (JDict ∘ station_meta_fields Metadata.isoformat
                        <$> [Scenario.closed_meta; Scenario.active_meta]))], 1.
    split; [repeat constructor|]. split; [|done].
    intros k body Hk. destruct k as [|k]; cbn in Hk; [|done].
    injection Hk as <-. reflexivity.
  - exists st'. exact Hrun.
Defined.

(** ** What reaches the caller *)

(** The archival endpoint reports the rate limit on the second page of the
    recent-edge refresh: the read raises [TooManyRequests] to its caller
    and logs nothing. *)
Lemma fetch_sensor_data_propagates_witness :
  ∃ w1,
    Repository.fetch_sensor_data Scenario.rate_limited_remote Instances.decimal
      Instances.iso_datetime (Scenario.may_1st 100) 52 (Scenario.may_1st 8)
      (Some (Scenario.may_1st 16)) (Scenario.world_of Scenario.stocked_store)
    = (inl (TooManyRequests APIClient.RATE_LIMIT_MESSAGE), w1) ∧
    Repository.warnings w1 = [].
Proof.
  destruct (Repository.refresh_edges Scenario.rate_limited_remote Instances.decimal
              Instances.iso_datetime (Scenario.may_1st 100) 52 (Scenario.may_1st 8)
              (default (Scenario.may_1st 100) (Some (Scenario.may_1st 16)))
              (DatabaseClient.fetch_latest_sensor_record_date
                 (Repository._database_client (Scenario.world_of Scenario.stocked_store)) 52)
              (DatabaseClient.fetch_oldest_sensor_record_date
                 (Repository._database_client (Scenario.world_of Scenario.stocked_store)) 52)
              (Scenario.world_of Scenario.stocked_store)) as [r w1] eqn:Hrun.
  assert (Hr : r = inl (TooManyRequests APIClient.RATE_LIMIT_MESSAGE) ∧
               Repository.warnings w1 = []).
  { vm_compute in Hrun. injection Hrun as <- <-. split; reflexivity. }
  destruct Hr as [-> Hwarn]. exists w1. split; [|exact Hwarn].
  exact (fetch_sensor_data_propagates Scenario.rate_limited_remote Instances.decimal
           Instances.iso_datetime (Scenario.may_1st 100) 52 (Scenario.may_1st 8)
           (Some (Scenario.may_1st 16)) (Scenario.world_of Scenario.stocked_store)
           _ w1 Hrun eq_refl).
Defined.


(** * The connection status after a fetch *)

Section Quiet.

Lemma quiet_bind_result {A B} (r : result A) (k : A → result B) :
  quiet r → (∀ a, quiet (k a)) → quiet (bind_result r k).
Proof. destruct r as [e|a]; cbn; [done|]. intros _ Hk. apply Hk. Qed.

Lemma quiet_map_result {A B} (f : A → result B) l :
  (∀ a, quiet (f a)) → quiet (map_result f l).
Proof.
  intros Hf. induction l as [|a l IH]; cbn; [done|].
  apply quiet_bind_result; [apply Hf|]. intros b.
  apply quiet_bind_result; [exact IH|]. done.
Qed.

Lemma quiet_get_method obj key otherwise : quiet (get_method obj key otherwise).
Proof. by destruct obj. Qed.

Lemma quiet_subscript obj key : quiet (subscript obj key).
Proof. destruct obj; cbn; try done. by destruct (_ !! _). Qed.

Lemma quiet_iterate v : quiet (iterate v).
Proof. by destruct v. Qed.

Lemma quiet_as_int field v : quiet (as_int field v).
Proof. by destruct v. Qed.

Lemma quiet_as_str field v : quiet (as_str field v).
Proof. by destruct v. Qed.

Lemma quiet_as_float field v : quiet (as_float field v).
Proof. by destruct v. Qed.

Lemma quiet_as_bool field v : quiet (as_bool field v).
Proof. by destruct v. Qed.

Lemma quiet_as_optional {A} (read : string → json → result A) field v :
  (∀ f x, quiet (read f x)) → quiet (as_optional read field v).
Proof.
  intros Hread. destruct v; cbn; try done;
    (apply quiet_bind_result; [apply Hread|done]).
Qed.

End Quiet.

Section Outcome.

Import APIClient.

Variable remote : list request → request → response.
Variable int_of_str : string → option Z.
Variable fromisoformat : string → option datetime.

Hypothesis transport : transport_errors remote.

Lemma quiet_py_int v : quiet (py_int int_of_str v).
Proof. destruct v; cbn; try done. by destruct (int_of_str s). Qed.

Lemma quiet_total_pages_of response : quiet (total_pages_of int_of_str response).
Proof.
  apply quiet_bind_result; [apply quiet_get_method|]. intros v. apply quiet_py_int.
Qed.

Lemma quiet_py_fromisoformat v : quiet (py_fromisoformat fromisoformat v).
Proof. destruct v; cbn; try done. by destruct (fromisoformat s). Qed.

Lemma quiet_optional_date v : quiet (optional_date fromisoformat v).
Proof.
  unfold optional_date. destruct (truthy v); [|done].
  apply quiet_bind_result; [apply quiet_py_fromisoformat|done].
Qed.

Lemma quiet_merge_fragment acc fragment : quiet (merge_fragment acc fragment).
Proof. destruct fragment; cbn; try done; by destruct acc. Qed.

Ltac quiet_steps :=
  repeat first
    [ apply quiet_bind_result; [|intros ?]
    | apply quiet_subscript | apply quiet_get_method | apply quiet_as_int
    | apply quiet_as_str | apply quiet_as_float | apply quiet_as_bool
    | apply quiet_as_optional; intros ? ?
    | apply quiet_py_fromisoformat | apply quiet_optional_date | apply quiet_iterate
    | exact I ].

Lemma quiet_station_of_entry entry : quiet (station_of_entry entry).
Proof. unfold station_of_entry. quiet_steps. Qed.

Lemma quiet_sensor_of_entry entry : quiet (sensor_of_entry entry).
Proof. unfold sensor_of_entry. quiet_steps. Qed.

Lemma quiet_station_meta_of_entry entry : quiet (station_meta_of_entry fromisoformat entry).
Proof. unfold station_meta_of_entry. quiet_steps. Qed.

Lemma quiet_index_of_raw raw date_key value_key :
  quiet (index_of_raw fromisoformat raw date_key value_key).
Proof. unfold index_of_raw. quiet_steps. Qed.

(** *** The callbacks *)

Lemma quiet_for_each {T A} (f : A → M T unit) l :
  (∀ a s, quiet (f a s).1) → ∀ s, quiet (for_each f l s).1.
Proof.
  intros Hf. induction l as [|a l IH]; intros s; cbn; [done|].
  unfold bind. specialize (Hf a s). destruct (f a s) as [[e|[]] s1]; [exact Hf|]. apply IH.
Qed.

Lemma quiet_collect_current data acc : quiet (collect_current fromisoformat data acc).1.
Proof.
  unfold collect_current, bind at 1, lift_result at 1.
  pose proof (quiet_iterate data) as Hit. destruct (iterate data) as [e|entries]; [exact Hit|].
  apply quiet_for_each. intros entry s.
  unfold bind at 1, lift_result at 1.
  pose proof (quiet_get_method entry "Wartość" JNull) as Hv.
  destruct (get_method entry "Wartość" JNull) as [e|value]; [exact Hv|].
  assert (Hrest : quiet
    ((let* date :=
        lift_result (let+ d := subscript entry "Data" in py_fromisoformat fromisoformat d) in
      let* value := lift_result (as_float "value" value) in
      append {| data_date := date; data_value := Some value |}) s).1).
  { unfold bind at 1, lift_result at 1.
    assert (Hd : quiet (let+ d := subscript entry "Data" in py_fromisoformat fromisoformat d))
      by quiet_steps.
    destruct (bind_result _ _) as [e|date]; [exact Hd|].
    unfold bind, lift_result.
    pose proof (quiet_as_float "value" value) as Hf.
    by destruct (as_float "value" value) as [e|x]. }
  destruct value; first [exact I | exact Hrest].
Qed.

Lemma quiet_collect_archival data acc : quiet (collect_archival fromisoformat data acc).1.
Proof.
  unfold collect_archival, bind at 1, lift_result at 1.
  pose proof (quiet_iterate data) as Hit. destruct (iterate data) as [e|entries]; [exact Hit|].
  apply quiet_for_each. intros entry s.
  unfold bind at 1, lift_result at 1.
  assert (Hd : quiet (let+ d := subscript entry "Data" in py_fromisoformat fromisoformat d))
    by quiet_steps.
  destruct (bind_result _ _) as [e|date]; [exact Hd|].
  unfold bind at 1, lift_result at 1.
  pose proof (quiet_get_method entry "Wartość" JNull) as Hv.
  destruct (get_method entry "Wartość" JNull) as [e|value]; [exact Hv|].
  unfold bind, lift_result.
  assert (Hf : quiet (as_optional as_float "value" value)) by quiet_steps.
  by destruct (as_optional as_float "value" value) as [e|x].
Qed.

(** *** The status through a call *)

Lemma keeps_on_ret {S A} (proj : S → api_state) (a : A) : keeps_on proj (ret a).
Proof. intros s Hs. exact Hs. Qed.

Lemma keeps_on_raise {S A} (proj : S → api_state) e :
  quiet (@inl exn A e) → keeps_on proj (@raise S A e).
Proof. intros [Hc Ha] s Hs. cbn. split; congruence. Qed.

Lemma keeps_on_lift_result {S A} (proj : S → api_state) (r : result A) :
  quiet r → keeps_on proj (lift_result r).
Proof.
  intros Hr s Hs. cbn. destruct r as [e|a]; [|exact Hs].
  destruct Hr as [Hc Ha]. split; congruence.
Qed.

Lemma keeps_on_bind {S A B} (proj : S → api_state) (c : M S A) (k : A → M S B) :
  keeps_on proj c → (∀ a, keeps_on proj (k a)) → keeps_on proj (bind c k).
Proof.
  intros Hc Hk s Hs. unfold bind. specialize (Hc s Hs).
  destruct (c s) as [[e|a] s1]; cbn in *; [exact Hc|]. by apply Hk.
Qed.

Lemma turns_on_bind {S A B} (proj : S → api_state) (c : M S A) (k : A → M S B) :
  turns_on proj c → (∀ a, keeps_on proj (k a)) → turns_on proj (bind c k).
Proof.
  intros Hc Hk s. unfold bind. specialize (Hc s).
  destruct (c s) as [[e|a] s1]; cbn in *; [exact Hc|]. by apply Hk.
Qed.

Lemma turns_on_keeps_on {S A} (proj : S → api_state) (c : M S A) :
  turns_on proj c → keeps_on proj c.
Proof. intros Hc s _. apply Hc. Qed.

Lemma status_set value st : _connection_status (set_connection_status value st) = value.
Proof. unfold set_connection_status. by case_bool_decide. Qed.

Lemma turns_on_get endpoint page size args :
  turns_on id (_get remote endpoint page size args).
Proof.
  intros st. unfold _get.
  destruct (remote _ _) as [e|[payload|]|[body|]] eqn:Hr.
  - destruct (transport _ _ _ Hr) as [->|[name ->]]; cbn.
    + split; [intros _; apply status_set|done].
    + done.
  - cbn [fst snd]. unfold id.
    destruct payload; cbn; try done.
    split; [done|]. intros _. apply status_set.
  - cbn. unfold id. rewrite status_set. done.
  - cbn. unfold id. apply status_set.
  - cbn. unfold id. rewrite status_set. done.
Qed.

Lemma keeps_on_collect_pages endpoint target args count : ∀ page acc,
  keeps_on id (collect_pages remote endpoint target args page count acc).
Proof.
  induction count as [|count IH]; intros page acc; cbn [collect_pages].
  - apply keeps_on_ret.
  - apply keeps_on_bind; [apply turns_on_keeps_on, turns_on_get|]. intros response.
    apply keeps_on_bind; [apply keeps_on_lift_result, quiet_get_method|]. intros fragment.
    apply keeps_on_bind; [apply keeps_on_lift_result, quiet_merge_fragment|]. intros acc'.
    apply IH.
Qed.

Lemma turns_on_get_collected endpoint target size args :
  turns_on id (_get_collected remote int_of_str endpoint target size args).
Proof.
  unfold _get_collected.
  apply turns_on_bind; [apply turns_on_get|]. intros response.
  apply keeps_on_bind; [apply keeps_on_lift_result, quiet_total_pages_of|]. intros total.
  apply keeps_on_bind; [apply keeps_on_lift_result, quiet_get_method|]. intros fragment.
  apply keeps_on_bind; [|intros acc; apply keeps_on_collect_pages].
  destruct fragment; first [apply keeps_on_ret | by apply keeps_on_raise].
Qed.

Lemma turns_on_fst {T A} (c : M api_state A) :
  turns_on id c → turns_on (fst : api_state * T → api_state) (on_fst c).
Proof.
  intros Hc [st t]. unfold on_fst. cbn. specialize (Hc st).
  by destruct (c st) as [r st'].
Qed.

Lemma keeps_on_snd {T A} (c : M T A) :
  (∀ t, quiet (c t).1) → keeps_on (fst : api_state * T → api_state) (on_snd c).
Proof.
  intros Hc [st t] Hs. unfold on_snd. cbn in *. specialize (Hc t).
  destruct (c t) as [[e|a] t']; cbn in *; [|exact Hs].
  destruct Hc as [Hconn Hapi]. split; congruence.
Qed.

Lemma keeps_on_each_page {T} endpoint target (callback : json → M T unit) args count :
  (∀ data acc, quiet (callback data acc).1) →
  ∀ page, keeps_on fst (each_page remote endpoint target callback args page count).
Proof.
  intros Hcb. induction count as [|count IH]; intros page; cbn [each_page].
  - apply keeps_on_ret.
  - apply keeps_on_bind; [apply turns_on_keeps_on, turns_on_fst, turns_on_get|].
    intros response.
    apply keeps_on_bind; [apply keeps_on_lift_result, quiet_get_method|]. intros fragment.
    apply keeps_on_bind; [apply keeps_on_snd, Hcb|]. intros _. apply IH.
Qed.

Lemma turns_on_get_each {T} endpoint target (callback : json → M T unit) size args :
  (∀ data acc, quiet (callback data acc).1) →
  turns_on fst (_get_each remote int_of_str endpoint target callback size args).
Proof.
  intros Hcb. unfold _get_each.
  apply turns_on_bind; [apply turns_on_fst, turns_on_get|]. intros response.
  apply keeps_on_bind; [apply keeps_on_lift_result, quiet_total_pages_of|]. intros total.
  destruct (Z.to_nat total); [apply keeps_on_ret|].
  apply keeps_on_bind; [apply keeps_on_lift_result, quiet_get_method|]. intros fragment.
  apply keeps_on_bind; [apply keeps_on_snd, Hcb|]. intros _.
  by apply keeps_on_each_page.
Qed.

(** X29.  When the transport raises exceptions of its own only, the connection
    status after a public fetch agrees with how the fetch ended: it is on
    when the fetch returned or raised a structured error of the service,
    and off when it raised a connectivity error. *)
Theorem status_follows_outcome st :
  (let out := fetch_stations remote int_of_str st in status_follows out.1 out.2) ∧
  (∀ city codename,
     let out := fetch_station_meta remote int_of_str fromisoformat city codename st in
     status_follows out.1 out.2) ∧
  (∀ station,
     let out := fetch_air_quality_indexes remote int_of_str fromisoformat station st in
     status_follows out.1 out.2) ∧
  (∀ station,
     let out := fetch_station_sensors remote int_of_str station st in
     status_follows out.1 out.2) ∧
  (∀ sensor,
     let out := fetch_sensor_data remote int_of_str fromisoformat sensor st in
     status_follows out.1 out.2) ∧
  (∀ sensor date_from date_to days,
     let out := fetch_sensor_archival_data remote int_of_str fromisoformat
                  sensor date_from date_to days st in
     status_follows out.1 out.2).
Proof.
  cbv zeta. repeat split.
  - apply (turns_on_bind id); [apply turns_on_get_collected|]. intros raw.
    apply keeps_on_lift_result.
    apply quiet_bind_result; [apply quiet_iterate|]. intros entries.
    apply quiet_map_result, quiet_station_of_entry.
  - intros city codename.
    apply (turns_on_bind id); [apply turns_on_get_collected|]. intros raw.
    apply keeps_on_lift_result.
    apply quiet_bind_result; [apply quiet_iterate|]. intros entries.
    apply quiet_map_result, quiet_station_meta_of_entry.
  - intros station.
    apply (turns_on_bind id); [apply turns_on_get_collected|]. intros raw.
    apply keeps_on_lift_result.
    apply quiet_bind_result; [apply quiet_index_of_raw|]. intros overall_index.
    apply quiet_bind_result.
    { apply quiet_map_result. intros pollutant.
      apply quiet_bind_result; [apply quiet_index_of_raw|done]. }
    intros per_sensor. quiet_steps.
  - intros station.
    apply (turns_on_bind id); [apply turns_on_get_collected|]. intros raw.
    apply keeps_on_lift_result.
    apply quiet_bind_result; [apply quiet_iterate|]. intros entries.
    apply quiet_map_result, quiet_sensor_of_entry.
  - intros sensor. unfold fetch_sensor_data.
    pose proof (turns_on_get_each (DataGetData sensor) "Lista danych pomiarowych"
                  (collect_current fromisoformat) 500 [] quiet_collect_current (st, []))
      as Hrun.
    destruct (_get_each _ _ _ _ _ _ _ _) as [[e|[]] [st' data]]; exact Hrun.
  - intros sensor date_from date_to days. unfold fetch_sensor_archival_data.
    pose proof (turns_on_get_each (ArchivalDataGetDataBySensor sensor)
                  "Lista archiwalnych wyników pomiarów" (collect_archival fromisoformat) 500
                  (archival_params date_from date_to days) quiet_collect_archival (st, []))
      as Hrun.
    destruct (_get_each _ _ _ _ _ _ _ _) as [[e|[]] [st' data]]; [|exact Hrun].
    cbn in Hrun. destruct e; try exact Hrun.
    destruct (is_rate_limit_code code); cbn; [done|]. by apply Hrun.
Qed.

End Outcome.

Lemma status_follows_outcome_witness :
  transport_errors Scenario.unreachable_remote ∧
  APIClient._connection_status
    (APIClient.fetch_stations Scenario.unreachable_remote Instances.decimal
       APIClient.new_api_client).2 = false.
Proof.
  assert (Htransport : transport_errors Scenario.unreachable_remote).
  { intros history rq e He. left. by injection He as <-. }
  split; [exact Htransport|].
  pose proof (proj1 (status_follows_outcome Scenario.unreachable_remote Instances.decimal
                       Instances.iso_datetime Htransport APIClient.new_api_client)) as Hrun.
  cbv zeta in Hrun.
  destruct (APIClient.fetch_stations _ _ _) as [[e|stations] st'] eqn:Hfetch.
  - cbn in Hrun |- *. apply Hrun.
    by injection (eq_trans (eq_sym Hfetch) (eq_refl : _ = (inl ConnectionError, _))) as -> _.
  - discriminate (eq_trans (eq_sym Hfetch) (eq_refl : _ = (inl ConnectionError, _))).
Defined.
